(** * FinSmartAI, Indian-market pipeline: tokenizer, sequence builder,
      outlier cleaning and prediction-window preparation

    Shallow embedding of

    - [indian_market/scripts/tokenize_data.py]
      ([KronosDataTokenizer], [create_sequences_for_training]),
    - [indian_market/scripts/clean_normalize_data.py]
      ([clean_data], [normalize_data]),
    - [indian_market/scripts/kronos_predict.py]
      ([KronosCLI.prepare_data_for_prediction],
       [KronosCLI.calculate_technical_indicators],
       [KronosCLI.download_stock_data],
       [KronosCLI.inverse_transform_predictions], [KronosCLI.predict_symbol],
       [KronosCLI.generate_prediction_dates]).

    Conventions of the embedding.

    - A Python [int] is a [Z]; a list index or a length is a [nat] and is
      injected into [Z] where the source mixes it with an [int].
    - A price or a volume, a Python [float], is an exact rational, [Q]; a
      cell that holds NaN is the absent key of the row's cell map, so a cell
      read has type [option Q]. On these values rounding is not modelled.
    - A token of [transform] is a NumPy [float64] that holds an integer: the
      module [Double] has these values with the rounding and the overflow of
      their sum and product.
    - A raised exception is [None].
    - A [dict] is a [gmap]; a [DataFrame] is a list of named numeric columns
      together with its rows. *)

From Stdlib Require Import ZArith QArith Qround Lia.
From stdpp Require Import base option list sorting gmap strings.

Local Close Scope Q_scope.
Local Open Scope Z_scope.

(** ** Python built-ins *)

Module Py.

(** Number of elements of [range(start, stop, step)] for [step <> 0]. *)
Definition range_len (start stop step : Z) : Z :=
  if 0 <? step then
    if start <? stop then (stop - start - 1) `div` step + 1 else 0
  else
    if stop <? start then (start - stop - 1) `div` (- step) + 1 else 0.

(** [range(start, stop, step)]; a zero step raises [ValueError]. *)
Definition range (start stop step : Z) : option (list Z) :=
  if step =? 0 then None
  else Some ((λ k : nat, start + Z.of_nat k * step)
               <$> seq 0 (Z.to_nat (range_len start stop step))).

(** A slice bound brought into [0 .. n]: negative bounds count from the end. *)
Definition clamp_index (n i : Z) : Z :=
  if i <? 0 then Z.max 0 (i + n) else Z.min i n.

(** [xs[a:b]] *)
Definition slice {A} (xs : list A) (a b : Z) : list A :=
  let n := Z.of_nat (length xs) in
  let a' := clamp_index n a in
  let b' := clamp_index n b in
  take (Z.to_nat (b' - a')) (drop (Z.to_nat a') xs).

(** [len(xs)] as a Python [int]. *)
Definition len {A} (xs : list A) : Z := Z.of_nat (length xs).

End Py.

(** ** Floating-point values with NaN *)

Module Float.

#[global] Instance Qle_dec (x y : Q) : Decision (x <= y)%Q :=
  Z_le_dec (Qnum x * QDen y) (Qnum y * QDen x).

(** NaN is [None]; arithmetic propagates it, comparisons with it are false. *)
Definition add (a b : option Q) : option Q :=
  x ← a; y ← b; Some (x + y)%Q.
Definition sub (a b : option Q) : option Q :=
  x ← a; y ← b; Some (x - y)%Q.
Definition mul (a b : option Q) : option Q :=
  x ← a; y ← b; Some (x * y)%Q.

(** [a <= b] *)
Definition le (a b : option Q) : Prop :=
  match a, b with
  | Some x, Some y => (x <= y)%Q
  | _, _ => False
  end.

#[global] Instance le_dec (a b : option Q) : Decision (le a b) :=
  match a, b with
  | Some x, Some y => Qle_dec x y
  | Some _, None => right (λ H, H)
  | None, _ => right (λ H, H)
  end.

#[global] Instance Qlt_dec (x y : Q) : Decision (x < y)%Q :=
  Z_lt_dec (Qnum x * QDen y) (Qnum y * QDen x).

#[global] Instance Qeq_dec' (x y : Q) : Decision (x == y)%Q :=
  Z.eq_dec (Qnum x * QDen y) (Qnum y * QDen x).

(** Python's [max(0, b)]: [b] when [b > 0] holds, else the first argument. *)
Definition max0 (b : option Q) : option Q :=
  match b with
  | Some y => if decide (0 < y)%Q then Some y else Some 0%Q
  | None => Some 0%Q
  end.

Definition sum (l : list Q) : Q := foldr Qplus 0%Q l.

End Float.

(** ** NumPy's [float64] on integers *)

Module Double.

(** A double that holds an integer, an infinity or NaN. The tokens of
    [transform] are such values: they start as bin indices and are only
    added and multiplied. The two zeros are not told apart. *)
Inductive t :=
| Finite (z : Z)
| Infinity (negative : bool)
| NaN.

#[global] Instance t_eq_dec : EqDecision t.
Proof. solve_decision. Defined.

(** Round-to-nearest, ties to even, of an integer to 53 significant bits,
    without a bound on the exponent: below [2^53] in magnitude every integer
    is a double; from there on the doubles are the multiples of
    [2^(log2 |x| - 52)]. *)
Definition round_even (x : Z) : Z :=
  let e := Z.log2 (Z.abs x) - 52 in
  if e <=? 0 then x
  else
    let u := 2 ^ e in
    let q := x `div` u in
    let r := x `mod` u in
    if 2 * r <? u then q * u
    else if u <? 2 * r then (q + 1) * u
    else if Z.even q then q * u else (q + 1) * u.

(** The double nearest to an integer: a result of magnitude [2^1024] or
    more overflows to an infinity. *)
Definition round (x : Z) : t :=
  let y := round_even x in
  if 2 ^ 1024 <=? Z.abs y then Infinity (y <? 0) else Finite y.

(** Conversion of a Python [int] or of an [int64]; an integer that is too
    large for a double is taken to the infinity of its sign. *)
Definition of_int (z : Z) : t := round z.

Definition add (a b : t) : t :=
  match a, b with
  | Finite x, Finite y => round (x + y)
  | Finite _, Infinity s | Infinity s, Finite _ => Infinity s
  | Infinity s1, Infinity s2 => if decide (s1 = s2) then Infinity s1 else NaN
  | _, _ => NaN
  end.

Definition mul (a b : t) : t :=
  match a, b with
  | Finite x, Finite y => round (x * y)
  | Finite x, Infinity s | Infinity s, Finite x =>
      if decide (x = 0) then NaN else Infinity (xorb s (x <? 0))
  | Infinity s1, Infinity s2 => Infinity (xorb s1 s2)
  | _, _ => NaN
  end.

(** [a <= b] and [a < b] on doubles; a comparison with NaN is false. *)
Definition le (a b : t) : Prop :=
  match a, b with
  | Finite x, Finite y => x <= y
  | Infinity true, (Finite _ | Infinity _) => True
  | Finite _, Infinity false => True
  | Infinity false, Infinity false => True
  | _, _ => False
  end.

Definition lt (a b : t) : Prop :=
  match a, b with
  | Finite x, Finite y => x < y
  | Infinity true, (Finite _ | Infinity false) => True
  | Finite _, Infinity false => True
  | _, _ => False
  end.

End Double.

(** ** The part of pandas the scripts use *)

Module Pandas.

(** One record of a frame. The [symbol] and [timestamp] columns are typed
    fields; every other column is numeric and lives in [cells]. *)
Record Row := mkRow {
  symbol : string;
  timestamp : Z;
  cells : gmap string Q
}.

Record DataFrame := mkFrame {
  columns : list string;
  rows : list Row
}.

(** The value of column [col] in row [r]; [None] is NaN. *)
Definition cell (r : Row) (col : string) : option Q := cells r !! col.

Definition with_rows (f : DataFrame) (rs : list Row) : DataFrame :=
  {| columns := columns f; rows := rs |}.

(** The symbol and the timestamp of a row. *)
Definition row_key (r : Row) : string * Z := (symbol r, timestamp r).

(** [Series.unique()]: distinct values in order of first appearance. *)
Fixpoint unique (l : list string) : list string :=
  match l with
  | [] => []
  | x :: l => x :: filter (λ y, y ≠ x) (unique l)
  end.

(** [data['symbol'].unique()] *)
Definition symbols (f : DataFrame) : list string := unique (symbol <$> rows f).

(** [data[data['symbol'] == s]] *)
Definition of_symbol (f : DataFrame) (s : string) : DataFrame :=
  with_rows f (filter (λ r, symbol r = s) (rows f)).

Definition ts_le (r1 r2 : Row) : Prop := timestamp r1 <= timestamp r2.

#[global] Instance ts_le_dec : RelDecision ts_le :=
  λ r1 r2, Z_le_dec (timestamp r1) (timestamp r2).

#[global] Instance ts_le_total : Total ts_le.
Proof. intros r1 r2. unfold ts_le. lia. Qed.

#[global] Instance ts_le_trans : Transitive ts_le.
Proof. intros r1 r2 r3. unfold ts_le. lia. Qed.

(** [frame.sort_values('timestamp')]: ascending in the timestamp. Rows with
    equal timestamps keep the order a merge sort gives them; pandas promises
    no particular order among them. *)
Definition sort_values (f : DataFrame) : DataFrame :=
  with_rows f (merge_sort ts_le (rows f)).

(** [frame[col].values]; an unknown column raises [KeyError]. *)
Definition column (f : DataFrame) (col : string) : option (list (option Q)) :=
  if decide (col ∈ columns f) then Some ((λ r, cell r col) <$> rows f) else None.

(** [frame[cols].values]: the row-major matrix of the listed columns. *)
Definition values (f : DataFrame) (cols : list string)
  : option (list (list (option Q))) :=
  if decide (Forall (λ c, c ∈ columns f) cols)
  then Some ((λ r, (λ c, cell r c) <$> cols) <$> rows f)
  else None.

(** [Series.quantile(q)] with the default linear interpolation: NaN entries
    are skipped; on the ascending values [v] of length [n] the result lies
    at the fractional position [(n - 1) * q]; an empty series gives NaN. *)
Definition quantile (series : list (option Q)) (q : Q) : option Q :=
  let v := merge_sort Qle (omap id series) in
  let pos := (inject_Z (Py.len v - 1) * q)%Q in
  let j := Qfloor pos in
  let g := (pos - inject_Z j)%Q in
  match v !! Z.to_nat j, v !! Z.to_nat (j + 1) with
  | Some lo, Some hi => Some (lo + g * (hi - lo))%Q
  | Some lo, None => Some lo
  | None, _ => None
  end.

(** [frame.tail(n)]: the last [n] rows; for a negative [n], all rows but
    the first [-n]. *)
Definition tail (f : DataFrame) (n : Z) : DataFrame :=
  with_rows f
    (if n <? 0 then drop (Z.to_nat (- n)) (rows f)
     else drop (length (rows f) - Z.to_nat n)%nat (rows f)).

(** [frame.dropna()]: keep the rows without NaN in any column. *)
Definition dropna (f : DataFrame) : DataFrame :=
  with_rows f (filter (λ r, Forall (λ c, is_Some (cell r c)) (columns f)) (rows f)).

(** [frame[col] = series] for a series aligned with the rows: add or
    overwrite a column, row by row; a NaN entry removes the key. *)
Definition set_cell (r : Row) (col : string) (v : option Q) : Row :=
  {| symbol := symbol r; timestamp := timestamp r;
     cells := match v with
              | Some q => <[col := q]> (cells r)
              | None => delete col (cells r)
              end |}.

Definition set_column (f : DataFrame) (col : string) (series : list (option Q))
  : DataFrame :=
  {| columns := if decide (col ∈ columns f) then columns f else columns f ++ [col];
     rows := imap (λ i r, set_cell r col (mjoin (series !! i))) (rows f) |}.

End Pandas.

(** ** [tokenize_data.py] *)

Module TokenizeData.
Import Pandas.

(** *** The fitted quantile discretizer (scikit-learn's [KBinsDiscretizer]
    with [encode='ordinal']): its state is the list of bin edges. *)
Record KBinsDiscretizer := mkKBins { bin_edges : list Q }.

(** [np.searchsorted(edges, x, side='right')] on ascending [edges]: the
    number of edges that are at most [x]. *)
Definition searchsorted_right (edges : list Q) (x : Q) : Z :=
  Py.len (filter (λ e, (e <= x)%Q) edges).

(** The ordinal bin of one value: its position among the interior edges
    [bin_edges[1:-1]]. Values below the first or above the last edge land in
    the first or the last bin. *)
Definition ordinal_bin (d : KBinsDiscretizer) (x : Q) : Z :=
  searchsorted_right (Py.slice (bin_edges d) 1 (-1)) x.

(** [discretizer.transform(col_data).flatten()]: the bin indices as an array
    of doubles; the library rejects NaN. *)
Definition kbins_transform (d : KBinsDiscretizer) (col_data : list (option Q))
  : option (list Double.t) :=
  mapM (λ v, (λ x, Double.of_int (ordinal_bin d x)) <$> v) col_data.

(** The fitting routine of the library, [KBinsDiscretizer(n_bins=...,
    encode='ordinal', strategy='quantile').fit]: from the bin count and a
    column to a fitted discretizer, or an exception. It is a collaborator of
    the script and is taken as given. *)
Definition KBinsFit : Type := Z → list (option Q) → option KBinsDiscretizer.

(** A model of that routine for the examples: the edges are the quantiles
    [0/n, 1/n, ..., n/n] of the column by linear interpolation, and an edge
    that closes a bin of zero width is removed. The library refuses fewer
    than two bins, a NaN, and an empty column. *)
Fixpoint drop_repeated (prev : Q) (edges : list Q) : list Q :=
  match edges with
  | [] => []
  | e :: edges =>
      if decide (e == prev)%Q then drop_repeated prev edges
      else e :: drop_repeated e edges
  end.

Definition quantile_fit : KBinsFit := λ n col_data,
  if decide (n < 2) then None
  else
    _ ← mapM (M := option) id col_data;
    edges ← mapM (M := option)
                 (λ k : nat, quantile col_data (inject_Z (Z.of_nat k) / inject_Z n)%Q)
                 (seq 0 (Z.to_nat n + 1));
    match edges with
    | [] => None
    | e :: edges => Some {| bin_edges := e :: drop_repeated e edges |}
    end.

(** *** [class KronosDataTokenizer] *)
Record KronosDataTokenizer := mkTokenizer {
  n_bins : Z;
  vocab_size : Z;
  discretizers : gmap string KBinsDiscretizer;
  special_tokens : gmap string Z
}.

(** [__init__(self, n_bins=1000, vocab_size=10000)] *)
Definition init (n_bins vocab_size : Z) : KronosDataTokenizer :=
  {| n_bins := n_bins;
     vocab_size := vocab_size;
     discretizers := ∅;
     special_tokens :=
       <["pad" := 0]> (<["unk" := 1]> (<["cls" := 2]>
         (<["sep" := 3]> (<["mask" := 4]> ∅)))) |}.

Definition default_n_bins : Z := 1000.
Definition default_vocab_size : Z := 10000.

(** [len(self.special_tokens)] *)
Definition n_special (self : KronosDataTokenizer) : Z :=
  Z.of_nat (size (special_tokens self)).

Definition set_discretizer (self : KronosDataTokenizer) (col : string)
    (d : KBinsDiscretizer) : KronosDataTokenizer :=
  {| n_bins := n_bins self;
     vocab_size := vocab_size self;
     discretizers := <[col := d]> (discretizers self);
     special_tokens := special_tokens self |}.

(** [fit(self, data, feature_columns)]: one discretizer per column, fitted
    with [self.n_bins] on the whole column and stored under the column name. *)
Fixpoint fit (kfit : KBinsFit) (self : KronosDataTokenizer) (data : DataFrame)
    (feature_columns : list string) : option KronosDataTokenizer :=
  match feature_columns with
  | [] => Some self
  | col :: feature_columns =>
      col_data ← column data col;
      discretizer ← kfit (n_bins self) col_data;
      fit kfit (set_discretizer self col discretizer) data feature_columns
  end.

(** Lines 93-100 of [transform]: the token column of every fitted feature,
    each shifted by [len(self.special_tokens)]; unfitted columns are
    skipped. *)
Fixpoint feature_tokens (self : KronosDataTokenizer) (symbol_data : DataFrame)
    (feature_columns : list string) : option (list (list Double.t)) :=
  match feature_columns with
  | [] => Some []
  | col :: feature_columns =>
      match discretizers self !! col with
      | Some d =>
          col_data ← column symbol_data col;
          tokens ← kbins_transform d col_data;
          let tokens : list Double.t :=
            (λ t, Double.add t (Double.of_int (n_special self))) <$> tokens in
          rest ← feature_tokens self symbol_data feature_columns;
          Some (tokens :: rest)
      | None => feature_tokens self symbol_data feature_columns
      end
  end.

(** Line 110, [token = token * radix + t], with [t] a double. [token] is
    the Python [int] [0] until the first pass ([None]), whose product [0 *
    radix] is exact, and a double afterwards; every operation on doubles
    rounds. *)
Definition combine_step (radix : Z) (token : option Double.t) (t : Double.t)
    : option Double.t :=
  Some (match token with
        | None => Double.add (Double.of_int (0 * radix)) t
        | Some token => Double.add (Double.mul token (Double.of_int radix)) t
        end).

(** What the loop leaves in [token]; the [int] [0] that no pass has touched
    is written as the double [0]. *)
Definition token_value (token : option Double.t) : Double.t :=
  default (Double.of_int 0) token.

(** Lines 106-110: the inner loop over the feature token columns at row [i]. *)
Definition combine_at (self : KronosDataTokenizer)
    (feature_tokens : list (list Double.t)) (i : nat) : Double.t :=
  token_value
    (foldl (λ token feat_tokens,
              match feat_tokens !! i with
              | Some t => combine_step (n_bins self + n_special self) token t
              | None => token
              end)
           None feature_tokens).

(** Lines 104-111: [feature_tokens[0]] raises [IndexError] when no column is
    fitted. *)
Definition combined_tokens (self : KronosDataTokenizer)
    (feature_tokens : list (list Double.t)) : option (list Double.t) :=
  first ← head feature_tokens;
  Some (combine_at self feature_tokens <$> seq 0 (length first)).

(** Lines 114-118: chunks of [sequence_length] tokens; a shorter last chunk
    is not kept. *)
Definition split_sequences {A} (combined_tokens : list A) (sequence_length : Z)
    : option (list (list A)) :=
  match Py.range 0 (Py.len combined_tokens) sequence_length with
  | None => None
  | Some starts =>
      Some (filter (λ sequence, Py.len sequence = sequence_length)
              ((λ i, Py.slice combined_tokens i (i + sequence_length)) <$> starts))
  end.

(** The rows of one symbol in timestamp order (lines 89-90). *)
Definition symbol_frame (data : DataFrame) (s : string) : DataFrame :=
  sort_values (of_symbol data s).

(** The composite tokens of one symbol (lines 89-111). *)
Definition symbol_tokens (self : KronosDataTokenizer) (data : DataFrame)
    (feature_columns : list string) (s : string) : option (list Double.t) :=
  feature_tokens self (symbol_frame data s) feature_columns
    ≫= combined_tokens self.

(** The body of the loop over symbols (lines 89-118). *)
Definition symbol_sequences (self : KronosDataTokenizer) (data : DataFrame)
    (feature_columns : list string) (sequence_length : Z) (s : string)
    : option (list (list Double.t)) :=
  symbol_tokens self data feature_columns s
    ≫= λ combined, split_sequences combined sequence_length.

(** [transform(self, data, feature_columns, sequence_length=512)] *)
Definition transform (self : KronosDataTokenizer) (data : DataFrame)
    (feature_columns : list string) (sequence_length : Z)
    : option (list (list Double.t)) :=
  token_sequences ←
    mapM (M := option)
         (symbol_sequences self data feature_columns sequence_length)
         (symbols data);
  Some (concat token_sequences).

(** *** Vocabulary of the statements

    What [feature_tokens] holds for one fitted column: the shifted bin of
    every row of the frame. *)
Definition token_column (self : KronosDataTokenizer) (f : DataFrame)
    (col : string) (tokens : list Double.t) : Prop :=
  ∃ d, discretizers self !! col = Some d ∧
       Forall2 (λ r t, ∃ x, cell r col = Some x ∧
                            t = Double.add (Double.of_int (ordinal_bin d x))
                                           (Double.of_int (n_special self)))
               (rows f) tokens.

(** Two tokenizer states that differ at most in [vocab_size]. *)
Definition same_up_to_vocab_size (t1 t2 : KronosDataTokenizer) : Prop :=
  n_bins t1 = n_bins t2 ∧
  discretizers t1 = discretizers t2 ∧
  special_tokens t1 = special_tokens t2.

(** A run of consecutive rows of the symbol [s], in timestamp order. *)
Definition single_symbol_run (data : DataFrame) (s : string) (run : list Row) : Prop :=
  Forall (λ r, symbol r = s ∧ r ∈ rows data) run ∧
  StronglySorted ts_le run ∧
  ∃ pre post, rows (symbol_frame data s) = pre ++ run ++ post.

(** The feature matrix of a list of rows. *)
Definition feature_rows (feature_columns : list string) (rs : list Row)
    : list (list (option Q)) :=
  (λ r, (λ c, cell r c) <$> feature_columns) <$> rs.

(** *** The composite token, row by row

    The feature columns that have a discretizer, in the order given. *)
Definition fitted_columns (self : KronosDataTokenizer) (feature_columns : list string)
    : list string :=
  filter (λ col, is_Some (discretizers self !! col)) feature_columns.

(** Mixed-radix accumulation over the integers: starting from [0], every
    digit [bin] is entered by [token = token * radix + (bin + offset)]; the
    first digit ends up the most significant one. *)
Definition mixed_radix (radix offset : Z) (bins : list Z) : Z :=
  foldl (λ token bin, token * radix + (bin + offset)) 0 bins.

(** The ordinal bin index of a row in every fitted column. *)
Definition row_bins (self : KronosDataTokenizer) (feature_columns : list string)
    (r : Row) : option (list Z) :=
  mapM (M := option)
       (λ col, d ← discretizers self !! col; x ← cell r col; Some (ordinal_bin d x))
       (fitted_columns self feature_columns).

(** The same accumulation as the code performs it, in doubles: every bin
    and the offset are converted, and the sum and the product round. *)
Definition double_mixed_radix (radix offset : Z) (bins : list Z) : Double.t :=
  token_value
    (foldl (λ token bin,
              combine_step radix token
                (Double.add (Double.of_int bin) (Double.of_int offset)))
           None bins).

(** The composite token of a row, with radix [n_bins + len(special_tokens)]
    and offset [len(special_tokens)]. *)
Definition row_token (self : KronosDataTokenizer) (feature_columns : list string)
    (r : Row) : option Double.t :=
  double_mixed_radix (n_bins self + n_special self) (n_special self)
    <$> row_bins self feature_columns r.

(** The windows the chunking is meant to keep: for every [k] below
    [len(tokens) // L], the [L] tokens that start at offset [k * L]. *)
Definition full_windows {A} (L : nat) (tokens : list A) : list (list A) :=
  (λ k, take L (drop (k * L) tokens)) <$> seq 0 (length tokens `div` L)%nat.

(** *** [save] and [load]: the pickled object is the dictionary built by
    [save]; the file system maps a path to the object stored there. *)
Inductive PyObject :=
| PInt (z : Z)
| PDiscretizers (d : gmap string KBinsDiscretizer)
| PSpecialTokens (m : gmap string Z).

Definition as_int (o : PyObject) : option Z :=
  match o with PInt z => Some z | _ => None end.
Definition as_discretizers (o : PyObject) : option (gmap string KBinsDiscretizer) :=
  match o with PDiscretizers d => Some d | _ => None end.
Definition as_special_tokens (o : PyObject) : option (gmap string Z) :=
  match o with PSpecialTokens m => Some m | _ => None end.

(** [save(self, filepath)] *)
Definition save (self : KronosDataTokenizer) (filepath : string)
    (fs : gmap string (gmap string PyObject)) : gmap string (gmap string PyObject) :=
  let tokenizer_data : gmap string PyObject :=
    <["n_bins" := PInt (n_bins self)]>
      (<["vocab_size" := PInt (vocab_size self)]>
         (<["discretizers" := PDiscretizers (discretizers self)]>
            (<["special_tokens" := PSpecialTokens (special_tokens self)]> ∅))) in
  <[filepath := tokenizer_data]> fs.

(** [load(cls, filepath)]: a missing file or key raises. *)
Definition load (filepath : string) (fs : gmap string (gmap string PyObject))
    : option KronosDataTokenizer :=
  tokenizer_data ← fs !! filepath;
  nb ← tokenizer_data !! "n_bins" ≫= as_int;
  vs ← tokenizer_data !! "vocab_size" ≫= as_int;
  let tokenizer := init nb vs in
  ds ← tokenizer_data !! "discretizers" ≫= as_discretizers;
  st ← tokenizer_data !! "special_tokens" ≫= as_special_tokens;
  Some {| n_bins := n_bins tokenizer;
          vocab_size := vocab_size tokenizer;
          discretizers := ds;
          special_tokens := st |}.

(** *** [create_sequences_for_training] *)

(** Lines 222-229: one pass of the sliding-window loop appends one input
    window and one target window. *)
Definition append_window {A} (features : list A) (sequence_length prediction_length : Z)
    (acc : list (list A) * list (list A)) (i : Z) : list (list A) * list (list A) :=
  let input_seq := Py.slice features i (i + sequence_length) in
  let target_seq :=
    Py.slice features (i + sequence_length)
             (i + sequence_length + prediction_length) in
  (acc.1 ++ [input_seq], acc.2 ++ [target_seq]).

(** Lines 221-229 for one feature matrix. *)
Definition sliding_windows {A} (features : list A)
    (sequence_length prediction_length stride : Z)
    (acc : list (list A) * list (list A)) : option (list (list A) * list (list A)) :=
  match Py.range 0 (Py.len features - sequence_length - prediction_length) stride with
  | None => None
  | Some starts =>
      Some (foldl (append_window features sequence_length prediction_length)
                  acc starts)
  end.

(** Lines 213-229: the loop over the symbols. *)
Fixpoint symbols_loop (data : DataFrame) (feature_columns : list string)
    (sequence_length prediction_length stride : Z) (syms : list string)
    (acc : list (list (list (option Q))) * list (list (list (option Q))))
    : option (list (list (list (option Q))) * list (list (list (option Q)))) :=
  match syms with
  | [] => Some acc
  | s :: syms =>
      features ← values (symbol_frame data s) feature_columns;
      acc' ← sliding_windows features sequence_length prediction_length stride acc;
      symbols_loop data feature_columns sequence_length prediction_length stride
                   syms acc'
  end.

(** [np.array(windows)] on a list of matrices with the same number of
    columns: the array has the windows as they are when they all have the
    same number of rows, and NumPy (from 1.24) raises [ValueError] for an
    inhomogeneous shape when they do not. *)
Definition np_array {A} (windows : list (list A)) : option (list (list A)) :=
  match windows with
  | [] => Some []
  | first :: rest =>
      if decide (Forall (λ w, length w = length first) rest) then Some windows
      else None
  end.

(** [create_sequences_for_training(data, feature_columns, sequence_length=512,
    prediction_length=10, stride=256)]: the input windows and the target
    windows, in step. *)
Definition create_sequences_for_training (data : DataFrame)
    (feature_columns : list string) (sequence_length prediction_length stride : Z)
    : option (list (list (list (option Q))) * list (list (list (option Q)))) :=
  '(input_sequences, target_sequences) ←
    symbols_loop data feature_columns sequence_length prediction_length stride
                 (symbols data) ([], []);
  input_sequences ← np_array input_sequences;
  target_sequences ← np_array target_sequences;
  Some (input_sequences, target_sequences).

End TokenizeData.

(** ** Sample data *)

Module Examples.
Import Pandas TokenizeData.

(** A row with the two features [open] and [close]. *)
Definition bar (s : string) (t : Z) (o c : Q) : Row :=
  mkRow s t (<["open" := o]> (<["close" := c]> ∅)).

(** Two interleaved symbols, not in timestamp order. *)
Definition two_symbols : DataFrame :=
  mkFrame ["open"; "close"]
    [bar "X" 3 1 5; bar "Y" 1 2 (7 # 2); bar "X" 1 0 1; bar "X" 2 9 2;
     bar "Y" 0 2 (7 # 2)].

(** A tokenizer with four bins per feature. *)
Definition coarse_tokenizer : KronosDataTokenizer :=
  set_discretizer
    (set_discretizer (init 4 100) "open" {| bin_edges := [0; 1; 2; 3; 9]%Q |})
    "close" {| bin_edges := [0; 1; 2; 3; 9]%Q |}.

(** Three rows of one symbol: exactly a window of two and a target of one. *)
Definition three_rows : DataFrame :=
  mkFrame ["open"; "close"] [bar "X" 1 10 11; bar "X" 2 11 12; bar "X" 3 12 13].

(** Two rows of one symbol. *)
Definition two_rows : DataFrame :=
  mkFrame ["open"; "close"] [bar "X" 1 0 0; bar "X" 2 1 1].

(** Seven of the feature columns that [main] tokenizes, and three rows of one
    symbol over them: the second and the third row differ in the last
    column only. *)
Definition seven_columns : list string :=
  ["open"; "high"; "low"; "close"; "volume"; "sma_5"; "sma_20"].

Definition wide_row (s : string) (t : Z) (v last : Q) : Row :=
  mkRow s t (<["sma_20" := last]> (list_to_map ((λ c, (c, v)) <$> seven_columns))).

Definition seven_features : DataFrame :=
  mkFrame seven_columns
    [wide_row "X" 1 0 0; wide_row "X" 2 1 0; wide_row "X" 3 1 1].

(** A row of raw OHLCV data. *)
Definition candle (s : string) (t : Z) (o h l c v : Q) : Row :=
  mkRow s t (<["open" := o]> (<["high" := h]> (<["low" := l]>
               (<["close" := c]> (<["volume" := v]> ∅))))).

Definition ohlcv : list string := ["open"; "high"; "low"; "close"; "volume"].

(** Seven raw rows: an [open] outlier at timestamp 5, a [high] outlier at 6
    and a negative [volume] at 7. *)
Definition raw_with_outliers : DataFrame :=
  mkFrame ohlcv
    [candle "X" 1 10 10 10 10 100; candle "X" 2 11 11 11 11 100;
     candle "X" 3 12 12 12 12 100; candle "X" 4 11 11 11 11 100;
     candle "X" 5 100 11 11 11 100; candle "X" 6 10 50 10 10 100;
     candle "X" 7 10 10 10 10 (-5)].

(** Three raw rows without indicator columns, and the same rows in a frame
    that already has the indicator column [sma_5]. *)
Definition three_candles : DataFrame :=
  mkFrame ohlcv
    [candle "X" 3 10 10 10 10 100; candle "X" 1 11 11 11 11 100;
     candle "X" 2 12 12 12 12 100].

Definition three_candles_with_sma : DataFrame :=
  mkFrame (ohlcv ++ ["sma_5"]) (rows three_candles).

(** Six hundred rows of one symbol, the latest first. *)
Definition six_hundred_rows : DataFrame :=
  mkFrame ["close"]
    ((λ k : nat, mkRow "X" (600 - Z.of_nat k) {["close" := inject_Z (Z.of_nat k)]})
       <$> seq 0 600).

End Examples.

(** ** [clean_normalize_data.py] *)

Module CleanNormalizeData.
Import Pandas.

(** [Q1 - k * IQR] and [Q3 + k * IQR] of a series (lines 68-74, 83-88). *)
Definition iqr_bounds (k : Q) (series : list (option Q)) : option Q * option Q :=
  let Q1 := quantile series (1 # 4) in
  let Q3 := quantile series (3 # 4) in
  let IQR := Float.sub Q3 Q1 in
  (Float.sub Q1 (Float.mul (Some k) IQR), Float.add Q3 (Float.mul (Some k) IQR)).

(** [(frame[col] >= lower) & (frame[col] <= upper)] at one row. *)
Definition within (col : string) (lower upper : option Q) (r : Row) : Prop :=
  Float.le lower (cell r col) ∧ Float.le (cell r col) upper.

#[global] Instance within_dec col lower upper r : Decision (within col lower upper r).
Proof. unfold within. apply _. Defined.

Definition price_columns : list string := ["open"; "high"; "low"; "close"].

(** The bounds the loop computes for a price column on the current frame. *)
Definition price_bounds (symbol_data : DataFrame) (col : string)
    : option (option Q * option Q) :=
  iqr_bounds (3 # 2) <$> column symbol_data col.

(** Lines 68-80: one pass of the loop over the price columns. *)
Definition remove_price_outliers (symbol_data : DataFrame) (col : string)
    : option DataFrame :=
  '(lower_bound, upper_bound) ← price_bounds symbol_data col;
  Some (with_rows symbol_data
          (filter (within col lower_bound upper_bound) (rows symbol_data))).

(** Lines 67-80: the loop over a list of price columns; each pass sees the
    rows the earlier passes kept. *)
Fixpoint price_filter (cols : list string) (symbol_data : DataFrame)
    : option DataFrame :=
  match cols with
  | [] => Some symbol_data
  | col :: cols =>
      remove_price_outliers symbol_data col ≫= price_filter cols
  end.

(** The bounds of the volume filter: [max(0, Q1 - 3 * IQR)] and
    [Q3 + 3 * IQR] (lines 83-92). *)
Definition volume_bounds (symbol_data : DataFrame) : option (option Q * option Q) :=
  '(lower_bound_vol, upper_bound_vol) ← iqr_bounds 3 <$> column symbol_data "volume";
  Some (Float.max0 lower_bound_vol, upper_bound_vol).

(** Lines 83-93. *)
Definition remove_volume_outliers (symbol_data : DataFrame) : option DataFrame :=
  '(lower, upper) ← volume_bounds symbol_data;
  Some (with_rows symbol_data
          (filter (within "volume" lower upper) (rows symbol_data))).

(** Lines 63-93: the body of the loop over the symbols. *)
Definition clean_symbol (data : DataFrame) (s : string) : option DataFrame :=
  price_filter price_columns (of_symbol data s) ≫= remove_volume_outliers.

(** [pd.concat(frames, ignore_index=True)] of frames with the same columns. *)
Definition concat_frames (cols : list string) (frames : list DataFrame) : DataFrame :=
  {| columns := cols; rows := concat (rows <$> frames) |}.

(** [clean_data(data)]. The outer [option] is an exception; the inner one is
    the [None] the function returns when no symbol is present. *)
Definition clean_data (data : DataFrame) : option (option DataFrame) :=
  let data := dropna data in
  cleaned_data ← mapM (M := option) (clean_symbol data) (symbols data);
  Some (match cleaned_data with
        | [] => None
        | _ => Some (concat_frames (columns data) cleaned_data)
        end).

End CleanNormalizeData.

(** ** [kronos_predict.py] *)

Module KronosPredict.
Import Pandas.

(** A fitted per-column scaler, as [normalize_data] stores them. *)
Inductive Scaler :=
| StandardScaler (mean scale : Q)
| MinMaxScaler (scale min : Q).

(** [scaler.transform] on one value. *)
Definition scaler_transform (sc : Scaler) (x : Q) : Q :=
  match sc with
  | StandardScaler mean scale => ((x - mean) / scale)%Q
  | MinMaxScaler scale min => (x * scale + min)%Q
  end.

(** The state of [KronosCLI] that [prepare_data_for_prediction] reads:
    [self.scalers] is [None] until [load_scalers] has run. *)
Record KronosCLI := mkCLI {
  scalers : option (gmap string (gmap string Scaler))
}.

(** What the function writes to the logger. *)
Inductive LogRecord :=
| WarningNotEnoughData (available requested : Z).

(** The pandas operations whose results are not rational: the exponentially
    weighted mean [series.ewm(span=n).mean()] and the rolling standard
    deviation [series.rolling(window=n).std()]. They are taken as given. *)
Record SeriesOps := mkSeriesOps {
  ewm_mean : nat → list (option Q) → list (option Q);
  rolling_std : nat → list (option Q) → list (option Q)
}.

(** [series.rolling(window=w).mean()]: NaN until [w] values are available
    and wherever the window holds a NaN. *)
Definition rolling_mean (w : nat) (xs : list (option Q)) : list (option Q) :=
  imap (λ i _,
          if decide (i + 1 < w)%nat then None
          else win ← mapM (M := option) id (take w (drop (i + 1 - w) xs));
               Some (Float.sum win / inject_Z (Z.of_nat w))%Q)
       xs.

(** [series.diff()] *)
Definition diff (xs : list (option Q)) : list (option Q) :=
  imap (λ i x, match i with
               | O => None
               | S j => Float.sub x (mjoin (xs !! j))
               end) xs.

(** [delta.where(delta > 0, 0)] and [-delta.where(delta < 0, 0)] at one entry;
    a comparison with NaN is false, so NaN becomes [0]. *)
Definition gain_of (d : option Q) : option Q :=
  match d with
  | Some x => if decide (0 < x)%Q then Some x else Some 0%Q
  | None => Some 0%Q
  end.
Definition loss_of (d : option Q) : option Q :=
  match d with
  | Some x => if decide (x < 0)%Q then Some (- x)%Q else Some (- 0)%Q
  | None => Some (- 0)%Q
  end.

(** [100 - (100 / (1 + gain / loss))] on averages that are never negative:
    a zero [loss] makes the quotient infinite (value [100]) or, with a zero
    [gain], NaN. *)
Definition rsi_of (gain loss : option Q) : option Q :=
  match gain, loss with
  | Some g, Some l =>
      if decide (l == 0)%Q
      then if decide (g == 0)%Q then None else Some 100%Q
      else Some (100 - 100 / (1 + g / l))%Q
  | _, _ => None
  end.

(** [calculate_technical_indicators(self, data)] *)
Definition calculate_technical_indicators (ops : SeriesOps) (data : DataFrame)
    : option DataFrame :=
  close ← column data "close";
  let data := set_column data "sma_5" (rolling_mean 5 close) in
  let data := set_column data "sma_20" (rolling_mean 20 close) in
  let ema_12 := ewm_mean ops 12 close in
  let ema_26 := ewm_mean ops 26 close in
  let data := set_column data "ema_12" ema_12 in
  let data := set_column data "ema_26" ema_26 in
  let delta := diff close in
  let gain := rolling_mean 14 (gain_of <$> delta) in
  let loss := rolling_mean 14 (loss_of <$> delta) in
  let data := set_column data "rsi" (zip_with rsi_of gain loss) in
  let macd := zip_with Float.sub ema_12 ema_26 in
  let data := set_column data "macd" macd in
  let macd_signal := ewm_mean ops 9 macd in
  let data := set_column data "macd_signal" macd_signal in
  let data := set_column data "macd_histogram" (zip_with Float.sub macd macd_signal) in
  let bb_middle := rolling_mean 20 close in
  let data := set_column data "bb_middle" bb_middle in
  let bb_std := rolling_std ops 20 close in
  let twice := Float.mul (Some 2%Q) <$> bb_std in
  let data := set_column data "bb_upper" (zip_with Float.add bb_middle twice) in
  let data := set_column data "bb_lower" (zip_with Float.sub bb_middle twice) in
  Some (dropna data).

Definition feature_columns : list string :=
  ["open"; "high"; "low"; "close"; "volume";
   "sma_5"; "sma_20"; "ema_12"; "ema_26"; "rsi";
   "macd"; "macd_signal"; "macd_histogram";
   "bb_middle"; "bb_upper"; "bb_lower"].

(** Lines 186-188: rescale every available column that has a scaler. *)
Definition apply_scalers (symbol_scalers : gmap string Scaler)
    (available_columns : list string) (recent_data : DataFrame) : DataFrame :=
  foldl (λ recent_data col,
           match symbol_scalers !! col with
           | Some sc =>
               set_column recent_data col
                 ((λ r, scaler_transform sc <$> cell r col) <$> rows recent_data)
           | None => recent_data
           end)
        recent_data available_columns.

(** Lines 184-188. [recent_data['symbol'].iloc[0]] raises [IndexError] on a
    frame without rows; it is only evaluated when [self.scalers] is a
    non-empty dictionary. *)
Definition normalize (self : KronosCLI) (available_columns : list string)
    (recent_data : DataFrame) : option DataFrame :=
  match scalers self with
  | None => Some recent_data
  | Some all_scalers =>
      if decide (all_scalers = ∅) then Some recent_data
      else
        first ← head (rows recent_data);
        match all_scalers !! symbol first with
        | Some symbol_scalers =>
            Some (apply_scalers symbol_scalers available_columns recent_data)
        | None => Some recent_data
        end
  end.

(** Lines 158-166: sort, fall back to the available number of rows with a
    warning, and take the last [sequence_length] rows. *)
Definition select_recent (data : DataFrame) (sequence_length : Z)
    : list LogRecord * DataFrame :=
  let data := sort_values data in
  let '(log, sequence_length) :=
    if decide (Py.len (rows data) < sequence_length)
    then ([WarningNotEnoughData (Py.len (rows data)) sequence_length],
          Py.len (rows data))
    else ([], sequence_length) in
  (log, tail data sequence_length).

(** [prepare_data_for_prediction(self, data, sequence_length=512)]: the log,
    and the input tensor (a batch of one matrix) with the frame it was built
    from, or an exception. *)
Definition prepare_data_for_prediction (ops : SeriesOps) (self : KronosCLI)
    (data : DataFrame) (sequence_length : Z)
    : list LogRecord * option (list (list (list (option Q))) * DataFrame) :=
  let '(log, recent_data) := select_recent data sequence_length in
  (log,
   recent_data ←
     (if decide ("sma_5" ∈ columns recent_data) then Some recent_data
      else calculate_technical_indicators ops recent_data);
   let available_columns :=
     filter (λ col, col ∈ columns recent_data) feature_columns in
   recent_data ← normalize self available_columns recent_data;
   input_sequence ← values recent_data available_columns;
   Some ([input_sequence], recent_data)).

End KronosPredict.

(** ** [kronos_predict.py]: further methods of [KronosCLI] *)

Module KronosCLIMethods.
Import Pandas KronosPredict.

(** The columns [calculate_technical_indicators] adds. *)
Definition indicator_columns : list string :=
  ["sma_5"; "sma_20"; "ema_12"; "ema_26"; "rsi";
   "macd"; "macd_signal"; "macd_histogram";
   "bb_middle"; "bb_upper"; "bb_lower"].

(** *** [generate_prediction_dates]

    A calendar date is its proleptic Gregorian ordinal ([date.toordinal()]);
    [date.weekday()] is [(ordinal + 6) % 7], Monday being [0]. The strings
    [strftime('%Y-%m-%d')] produces are determined by the ordinals, which
    stand for them here. *)
Definition weekday (date : Z) : Z := (date + 6) `mod` 7.

(** Lines 346-347: [while current_date.weekday() >= 5: current_date += 1 day].
    [fuel] bounds the number of times the condition is tested; [None] means
    that the bound was reached. *)
Fixpoint skip_weekend (fuel : nat) (current_date : Z) : option Z :=
  match fuel with
  | O => None
  | S fuel =>
      if 5 <=? weekday current_date then skip_weekend fuel (current_date + 1)
      else Some current_date
  end.

(** Lines 343-348: the body of the [for] loop, [n] times. *)
Fixpoint prediction_dates_loop (fuel : nat) (n : nat) (current_date : Z)
    : option (list Z) :=
  match n with
  | O => Some []
  | S n =>
      current_date ← skip_weekend fuel (current_date + 1);
      rest ← prediction_dates_loop fuel n current_date;
      Some (current_date :: rest)
  end.

(** [generate_prediction_dates(self, last_date, steps)] *)
Definition generate_prediction_dates (fuel : nat) (last_date : Z) (steps : Z)
    : option (list Z) :=
  prediction_dates_loop fuel (Z.to_nat steps) last_date.

(** *** [inverse_transform_predictions]

    [scaler.inverse_transform] on one value. *)
Definition scaler_inverse_transform (sc : Scaler) (y : Q) : Q :=
  match sc with
  | StandardScaler mean scale => (y * scale + mean)%Q
  | MinMaxScaler scale min => ((y - min) / scale)%Q
  end.

(** [scaler.inverse_transform] on a column of values. scikit-learn validates
    its input and refuses an array without samples. *)
Definition scaler_inverse_transform_column (sc : Scaler) (col : list Q)
    : option (list Q) :=
  match col with
  | [] => None
  | _ => Some (scaler_inverse_transform sc <$> col)
  end.

(** The divisor of a scaler. *)
Definition scale_of (sc : Scaler) : Q :=
  match sc with
  | StandardScaler _ scale => scale
  | MinMaxScaler scale _ => scale
  end.

(** The array of predictions: [shape[1]] and the rows. *)
Record Array2 := mkArray2 {
  width : nat;
  entries : list (list Q)
}.

(** [predictions[:, j]]; [IndexError] when [j] is not below [shape[1]]. *)
Definition array_column (a : Array2) (j : nat) : option (list Q) :=
  if decide (j < width a)%nat then mapM (M := option) (λ row, row !! j) (entries a)
  else None.

(** What the function returns: the array it was given, or the close prices. *)
Inductive Predictions :=
| RawPredictions (a : Array2)
| ClosePredictions (l : list Q).

Inductive InverseLogRecord :=
| WarningNoScalers.

(** [inverse_transform_predictions(self, predictions, symbol)] *)
Definition inverse_transform_predictions (self : KronosCLI) (predictions : Array2)
    (symbol : string) : list InverseLogRecord * option Predictions :=
  let fallback := ([WarningNoScalers], Some (RawPredictions predictions)) in
  match scalers self with
  | None => fallback
  | Some all_scalers =>
      if decide (all_scalers = ∅) then fallback
      else
        match all_scalers !! symbol with
        | None => fallback
        | Some symbol_scalers =>
            ([],
             close_scaler ← symbol_scalers !! "close";
             close_predictions ← array_column predictions 3;
             ClosePredictions
               <$> scaler_inverse_transform_column close_scaler close_predictions)
        end
  end.

(** [self.scalers[symbol][col]], where the scalers are loaded and have both
    keys. *)
Definition scaler_of (self : KronosCLI) (symbol col : string) : option Scaler :=
  match scalers self with
  | Some all_scalers =>
      match all_scalers !! symbol with
      | Some symbol_scalers => symbol_scalers !! col
      | None => None
      end
  | None => None
  end.

(** *** [download_stock_data]

    [yfinance] is outside the program: [history symbol period] is the frame
    [yf.Ticker(symbol).history(period=period)] gives, read after
    [reset_index] and the renaming of its columns, with the date of a daily
    bar as the timestamp; [None] is an exception. [data.empty] holds for a
    frame without rows or without columns. *)
Definition set_symbol (s : string) (r : Row) : Row :=
  {| symbol := s; timestamp := timestamp r; cells := cells r |}.

Definition download_stock_data (history : string → string → option DataFrame)
    (symbol period : string) : option DataFrame :=
  data ← history symbol period;
  if decide (rows data = [] ∨ columns data = []) then None
  else Some (with_rows data (set_symbol symbol <$> rows data)).

(** *** [predict_symbol]

    What the method takes from outside: the download and the network
    [self.model(input_sequence, steps=steps)], whose output is taken to be a
    matrix, as [predictions[:, 3]] reads it. *)
Record Externals := mkExternals {
  history : string → string → option DataFrame;
  model : list (list (list (option Q))) → Z → option Array2
}.

(** The dictionary [predict_symbol] returns, without [model_info]. A NaN
    [last_known_price] is [None]. *)
Record PredictionResult := mkResult {
  result_symbol : string;
  prediction_steps : Z;
  sequence_length : Z;
  last_known_price : option Q;
  predictions : Predictions;
  prediction_dates : list Z
}.

(** [predict_symbol(self, symbol, steps=10, sequence_length=512,
    download_period='1y')]. [recent_data['close'].iloc[-1]] raises
    [KeyError] without the column and [IndexError] on a frame without rows,
    as [recent_data['timestamp'].iloc[-1]] does. *)
Definition predict_symbol (fuel : nat) (ops : SeriesOps) (ext : Externals)
    (self : KronosCLI) (symbol : string) (steps sequence_length : Z)
    (download_period : string)
    : list (LogRecord + InverseLogRecord) * option PredictionResult :=
  match download_stock_data (history ext) symbol download_period with
  | None => ([], None)
  | Some data =>
      let '(log, prepared) :=
        prepare_data_for_prediction ops self data sequence_length in
      match prepared with
      | None => (inl <$> log, None)
      | Some (input_sequence, recent_data) =>
          match model ext input_sequence steps with
          | None => (inl <$> log, None)
          | Some raw =>
              let '(log', close_predictions) :=
                inverse_transform_predictions self raw symbol in
              ((inl <$> log) ++ (inr <$> log'),
               match close_predictions with
               | None => None
               | Some close_predictions =>
                   match column recent_data "close" ≫= last,
                         last (timestamp <$> rows recent_data) with
                   | Some last_close, Some last_date =>
                       match generate_prediction_dates fuel last_date steps with
                       | Some dates =>
                           Some (mkResult symbol steps sequence_length last_close
                                   close_predictions dates)
                       | None => None
                       end
                   | _, _ => None
                   end
               end)
          end
      end
  end.

End KronosCLIMethods.

(** ** [clean_normalize_data.py]: [normalize_data] *)

Module NormalizeData.
Import Pandas KronosPredict.

(** scikit-learn's [fit] is outside the program: the scaler that
    [StandardScaler()] and [MinMaxScaler()] fit on a series of one column;
    [None] is an exception. *)
Record ScalerFit := mkScalerFit {
  standard_fit : list (option Q) → option Scaler;
  minmax_fit : list (option Q) → option Scaler
}.

(** Line 119. *)
Definition feature_columns : list string :=
  ["open"; "high"; "low"; "close"; "volume"].

(** Lines 133-136: [method == 'standard'] selects [StandardScaler], every
    other value [MinMaxScaler]. *)
Definition fit_with (fit : ScalerFit) (method : string)
    : list (option Q) → option Scaler :=
  if decide (method = "standard") then standard_fit fit else minmax_fit fit.

(** [normalized_data.loc[symbol_data.index, col] = values], for a frame whose
    index repeats no label, as the frame [clean_data] returns: the rows of
    the symbol take the values in order, the other rows stay. *)
Fixpoint loc_assign (s col : string) (rs : list Row) (values : list (option Q))
    : list Row :=
  match rs with
  | [] => []
  | r :: rs =>
      if decide (symbol r = s) then
        match values with
        | v :: values => set_cell r col v :: loc_assign s col rs values
        | [] => r :: rs
        end
      else r :: loc_assign s col rs values
  end.

(** Lines 132-145: the body of the loop over the columns, on
    [normalized_data] and [symbol_scalers]. [fit_transform] fits the scaler
    and transforms the same series; NaN entries stay NaN. *)
Definition normalize_column (fit : ScalerFit) (method : string)
    (symbol_data : DataFrame) (s : string)
    (state : DataFrame * gmap string Scaler) (col : string)
    : option (DataFrame * gmap string Scaler) :=
  series ← column symbol_data col;
  scaler ← fit_with fit method series;
  let normalized_values := fmap (M := option) (scaler_transform scaler) <$> series in
  Some (with_rows state.1 (loc_assign s col (rows state.1) normalized_values),
        <[col := scaler]> state.2).

(** Lines 132-145: the loop over the columns. *)
Fixpoint normalize_columns (fit : ScalerFit) (method : string)
    (symbol_data : DataFrame) (s : string) (cols : list string)
    (state : DataFrame * gmap string Scaler)
    : option (DataFrame * gmap string Scaler) :=
  match cols with
  | [] => Some state
  | col :: cols =>
      match normalize_column fit method symbol_data s state col with
      | Some state => normalize_columns fit method symbol_data s cols state
      | None => None
      end
  end.

(** Lines 128-147: the loop over the symbols, on [normalized_data] and
    [scalers]. *)
Fixpoint normalize_symbols (fit : ScalerFit) (method : string) (data : DataFrame)
    (ss : list string) (state : DataFrame * gmap string (gmap string Scaler))
    : option (DataFrame * gmap string (gmap string Scaler)) :=
  match ss with
  | [] => Some state
  | s :: ss =>
      match normalize_columns fit method (of_symbol data s) s feature_columns
              (state.1, ∅) with
      | Some (normalized_data, symbol_scalers) =>
          normalize_symbols fit method data ss
            (normalized_data, <[s := symbol_scalers]> state.2)
      | None => None
      end
  end.

(** [normalize_data(data, method='standard')]: the normalized copy and the
    scalers, or an exception. *)
Definition normalize_data (fit : ScalerFit) (data : DataFrame) (method : string)
    : option (DataFrame * gmap string (gmap string Scaler)) :=
  normalize_symbols fit method data (symbols data) (data, ∅).

(** A row and its copy scaled by a dictionary of scalers: the same symbol
    and timestamp, and every cell that has a scaler for the row's symbol and
    the column transformed by it. *)
Definition scaled_by (all_scalers : gmap string (gmap string Scaler))
    (r r' : Row) : Prop :=
  row_key r' = row_key r ∧
  ∀ c : string,
    cell r' c = match all_scalers !! symbol r with
                | Some symbol_scalers =>
                    match symbol_scalers !! c with
                    | Some sc => scaler_transform sc <$> cell r c
                    | None => cell r c
                    end
                | None => cell r c
                end.

End NormalizeData.

(** ** More sample data *)

Module MoreExamples.
Import Pandas.

(** Twenty-two daily rows of one symbol with a rising close; the timestamps
    are day ordinals, the first one a Monday. *)
Definition rising_candles : DataFrame :=
  mkFrame Examples.ohlcv
    ((λ k : nat,
        Examples.candle "X" (738886 + Z.of_nat k)
          (inject_Z (Z.of_nat k)) (inject_Z (Z.of_nat k + 2)) (inject_Z (Z.of_nat k))
          (inject_Z (Z.of_nat k + 1)) 100) <$> seq 0 22).

(** Scalers for the symbol [X]: one for the close price and one for the
    volume. *)
Definition cli_with_scalers : KronosPredict.KronosCLI :=
  KronosPredict.mkCLI
    (Some {["X" := <["close" := KronosPredict.StandardScaler 10 2]>
                     {["volume" := KronosPredict.MinMaxScaler (1 # 100) 0]}]}).

(** Two predicted rows of five features, with the scaled values of the
    prices 12 and 14 in the fourth column, and one row of two features. *)
Definition two_predictions : KronosCLIMethods.Array2 :=
  KronosCLIMethods.mkArray2 5
    [[0%Q; 0%Q; 0%Q; (2 # 2)%Q; 0%Q]; [0%Q; 0%Q; 0%Q; (4 # 2)%Q; 0%Q]].

Definition narrow_prediction : KronosCLIMethods.Array2 :=
  KronosCLIMethods.mkArray2 2 [[1%Q; 2%Q]].

(** A download that replays stored bars, with a network that answers
    [two_predictions] whatever it is given. *)
Definition replay (data : DataFrame) : KronosCLIMethods.Externals :=
  KronosCLIMethods.mkExternals (λ _ _, Some data) (λ _ _, Some two_predictions).

(** Indicator operations that return the series they are given. *)
Definition plain_ops : KronosPredict.SeriesOps :=
  KronosPredict.mkSeriesOps (λ _ xs, xs) (λ _ xs, xs).

(** Cleaned bars of two symbols, interleaved. *)
Definition two_symbol_candles : DataFrame :=
  mkFrame Examples.ohlcv
    [Examples.candle "X" 1 10 12 9 11 100; Examples.candle "Y" 1 50 52 49 51 300;
     Examples.candle "X" 2 11 13 10 12 200; Examples.candle "Y" 2 51 53 50 52 500].

(** A stand-in for scikit-learn's [fit]: centre on the mean of the values
    that are present, with scale one, or shift the minimum to zero; a series
    without values raises. *)
Definition centring_fit : NormalizeData.ScalerFit :=
  NormalizeData.mkScalerFit
    (λ series,
       match omap id series with
       | [] => None
       | v => Some (KronosPredict.StandardScaler
                      (Float.sum v / inject_Z (Z.of_nat (length v)))%Q 1%Q)
       end)
    (λ series,
       match merge_sort Qle (omap id series) with
       | [] => None
       | lowest :: _ => Some (KronosPredict.MinMaxScaler 1%Q (- lowest)%Q)
       end).

End MoreExamples.

(** * Properties *)

(** ** Doubles that hold integers *)

Section double_facts.
Import Double.

Lemma round_even_exact x : Z.abs x < 2 ^ 53 → round_even x = x.
Proof.
  intros Hx. unfold round_even.
  destruct (Z.leb_spec (Z.log2 (Z.abs x) - 52) 0) as [|He]; [done|].
  exfalso. destruct (decide (Z.abs x = 0)) as [H0|H0].
  { rewrite H0 in He. simpl in He. lia. }
  assert (Z.log2 (Z.abs x) < 53); [|lia].
  apply Z.log2_lt_pow2; lia.
Qed.

Lemma round_exact x : Z.abs x < 2 ^ 53 → round x = Finite x.
Proof.
  intros Hx. unfold round. rewrite round_even_exact by done.
  destruct (Z.leb_spec (2 ^ 1024) (Z.abs x)) as [Hbig|]; [|done].
  assert (2 ^ 53 < 2 ^ 1024) by (apply Z.pow_lt_mono_r; lia). lia.
Qed.

(** Rounding does not take a value below a double it is at least. *)
Lemma round_even_ge c x : 0 <= c < 2 ^ 53 → c <= x → c <= round_even x.
Proof.
  intros Hc Hx. destruct (decide (x < 2 ^ 53)) as [Hsmall|Hbig].
  { rewrite round_even_exact by lia. done. }
  unfold round_even.
  assert (Hpos : 0 < x) by lia.
  rewrite Z.abs_eq by lia.
  destruct (Z.log2_spec x Hpos) as [Hlo Hhi].
  assert (53 <= Z.log2 x).
  { destruct (decide (53 <= Z.log2 x)); [done|].
    assert (2 ^ Z.succ (Z.log2 x) <= 2 ^ 53) by (apply Z.pow_le_mono_r; lia). lia. }
  destruct (Z.leb_spec (Z.log2 x - 52) 0); [lia|].
  set (e := Z.log2 x - 52) in *. set (u := 2 ^ e).
  assert (Hu : 2 <= u).
  { change 2 with (2 ^ 1). apply Z.pow_le_mono_r; lia. }
  assert (Hq : 2 ^ 52 <= x `div` u).
  { apply Z.div_le_lower_bound; [lia|].
    replace (Z.log2 x) with (e + 52) in Hlo by lia.
    rewrite Z.pow_add_r in Hlo by lia. fold u in Hlo. lia. }
  assert (2 ^ 53 <= x `div` u * u).
  { change (2 ^ 53) with (2 ^ 52 * 2). nia. }
  repeat case_match; nia.
Qed.

Lemma round_ge c x : 0 <= c < 2 ^ 53 → c <= x → le (Finite c) (round x).
Proof.
  intros Hc Hx. pose proof (round_even_ge c x Hc Hx) as Hy. unfold round.
  destruct (Z.leb_spec (2 ^ 1024) (Z.abs (round_even x))); simpl; [|done].
  destruct (Z.ltb_spec (round_even x) 0); [lia|done].
Qed.

Lemma le_weaken c c' a : c' <= c → le (Finite c) a → le (Finite c') a.
Proof. intros Hc. destruct a as [z|[]|]; simpl; try done. lia. Qed.

Lemma add_ge c1 c2 a b :
  0 <= c1 → 0 <= c2 → c1 + c2 < 2 ^ 53 →
  le (Finite c1) a → le (Finite c2) b → le (Finite (c1 + c2)) (add a b).
Proof.
  intros H1 H2 Hsum Ha Hb.
  destruct a as [x|[]|], b as [y|[]|]; simpl in *; try done.
  apply round_ge; lia.
Qed.

Lemma mul_ge c1 c2 a b :
  0 < c1 → 0 < c2 → c1 * c2 < 2 ^ 53 →
  le (Finite c1) a → le (Finite c2) b → le (Finite (c1 * c2)) (mul a b).
Proof.
  intros H1 H2 Hprod Ha Hb.
  destruct a as [x|[]|], b as [y|[]|]; simpl in *; try done.
  - apply round_ge; nia.
  - rewrite decide_False by lia. by destruct (Z.ltb_spec x 0); [lia|].
  - rewrite decide_False by lia. by destruct (Z.ltb_spec y 0); [lia|].
Qed.

Lemma le_lt c a : le (Finite (c + 1)) a → lt (Finite c) a.
Proof. destruct a as [z|[]|]; simpl; try done. lia. Qed.

End double_facts.

(** ** Python built-ins *)

Section py_facts.
Context {A : Type}.
Implicit Types xs : list A.

Lemma range_zero_step start stop : Py.range start stop 0 = None.
Proof. reflexivity. Qed.

(** With a positive step and start [0] the range is [0, step, 2*step, ...]
    below [stop]. *)
Lemma range_up stop step :
  0 < step →
  Py.range 0 stop step =
    Some ((λ k : nat, Z.of_nat k * step)
            <$> seq 0 (Z.to_nat (if 0 <? stop then (stop - 1) `div` step + 1 else 0))).
Proof.
  intros Hstep. unfold Py.range, Py.range_len.
  destruct (Z.eqb_spec step 0) as [->|_]; [lia|].
  destruct (Z.ltb_spec 0 step); [|lia].
  rewrite Z.sub_0_r. reflexivity.
Qed.

Lemma range_up_empty stop step :
  0 < step → stop <= 0 → Py.range 0 stop step = Some [].
Proof.
  intros Hstep Hstop. rewrite range_up by done.
  destruct (Z.ltb_spec 0 stop); [lia|]. reflexivity.
Qed.

Lemma range_up_single stop step :
  0 < stop <= step → Py.range 0 stop step = Some [0].
Proof.
  intros [Hstop Hstep]. rewrite range_up by lia.
  destruct (Z.ltb_spec 0 stop); [|lia].
  rewrite Z.div_small by lia. reflexivity.
Qed.

(** A slice with non-negative bounds is a [take] of a [drop]. *)
Lemma slice_nonneg xs a b :
  0 <= a → 0 <= b →
  Py.slice xs a b = take (Z.to_nat b - Z.to_nat a) (drop (Z.to_nat a) xs).
Proof.
  intros Ha Hb. unfold Py.slice, Py.clamp_index.
  destruct (Z.ltb_spec a 0); [lia|]. destruct (Z.ltb_spec b 0); [lia|].
  destruct (decide (Z.of_nat (length xs) <= a)) as [Hlen|Hlen].
  - rewrite !drop_ge by lia. by rewrite !take_nil.
  - destruct (decide (b <= Z.of_nat (length xs))) as [Hb'|Hb'].
    + do 2 f_equal; lia.
    + rewrite !take_ge; [|rewrite length_drop; lia..]. f_equal; lia.
Qed.

(** Every slice is a run of consecutive elements of the list. *)
Lemma slice_segment xs a b :
  ∃ pre post, xs = pre ++ Py.slice xs a b ++ post.
Proof.
  unfold Py.slice.
  set (j := Z.to_nat _). set (k := Z.to_nat _).
  exists (take k xs), (drop j (drop k xs)).
  by rewrite !take_drop.
Qed.

Lemma slice_fmap {B} (f : A → B) xs a b :
  Py.slice (f <$> xs) a b = f <$> Py.slice xs a b.
Proof. unfold Py.slice. by rewrite length_fmap, fmap_take, fmap_drop. Qed.

End py_facts.

(** ** Lists *)

Section list_facts.
Context {A : Type}.

Lemma filter_all (P : A → Prop) `{!∀ x, Decision (P x)} (l : list A) :
  Forall P l → filter P l = l.
Proof.
  induction 1 as [|x l Hx _ IH]; [done|].
  by rewrite filter_cons_True, IH.
Qed.

Lemma filter_none (P : A → Prop) `{!∀ x, Decision (P x)} (l : list A) :
  Forall (λ x, ¬ P x) l → filter P l = [].
Proof.
  induction 1 as [|x l Hx _ IH]; [done|].
  by rewrite filter_cons_False.
Qed.

(** A filter that accepts exactly the images of the first [q] indices. *)
Lemma filter_fmap_seq_prefix (P : A → Prop) `{!∀ x, Decision (P x)}
    (f : nat → A) (q m : nat) :
  (q ≤ m)%nat →
  (∀ k, (k < q)%nat → P (f k)) →
  (∀ k, (q ≤ k < m)%nat → ¬ P (f k)) →
  filter P (f <$> seq 0 m) = f <$> seq 0 q.
Proof.
  intros Hqm Hlow Hhigh.
  replace m with (q + (m - q))%nat by lia.
  rewrite seq_app, fmap_app, filter_app.
  rewrite filter_all, filter_none, app_nil_r; [done|..].
  - apply Forall_fmap, Forall_seq. intros k Hk. apply Hhigh. lia.
  - apply Forall_fmap, Forall_seq. intros k Hk. apply Hlow. lia.
Qed.

Lemma elem_of_concat (x : A) (ls : list (list A)) :
  x ∈ concat ls ↔ ∃ l, x ∈ l ∧ l ∈ ls.
Proof.
  rewrite list_elem_of_In, in_concat. split.
  - intros (l & Hl & Hx). exists l. by rewrite !list_elem_of_In.
  - intros (l & Hx & Hl). exists l. by rewrite <- !list_elem_of_In.
Qed.

End list_facts.

(** ** Chunking into windows *)

Section chunking.
Import TokenizeData.
Context {A : Type}.
Implicit Types tokens : list A.

Lemma length_full_windows (L : nat) tokens :
  length (full_windows L tokens) = (length tokens `div` L)%nat.
Proof. unfold full_windows. by rewrite length_fmap, length_seq. Qed.

Lemma full_windows_lookup (L : nat) tokens (k : nat) :
  (k < length tokens `div` L)%nat →
  full_windows L tokens !! k = Some (take L (drop (k * L) tokens)).
Proof.
  intros Hk. unfold full_windows.
  by rewrite list_lookup_fmap, lookup_seq_lt.
Qed.

Lemma full_windows_window_length (L : nat) tokens :
  (0 < L)%nat → Forall (λ w, length w = L) (full_windows L tokens).
Proof.
  intros HL. unfold full_windows. apply Forall_fmap, Forall_seq.
  intros k [_ Hk]. simpl in *. rewrite length_take, length_drop.
  assert (L * S k ≤ length tokens)%nat; [|lia].
  etrans; [|apply (Nat.Div0.mul_div_le _ L)].
  apply Nat.mul_le_mono_l. lia.
Qed.

End chunking.

Lemma split_sequences_full_windows {A} (combined : list A) (L : Z) :
  0 < L →
  TokenizeData.split_sequences combined L
  = Some (TokenizeData.full_windows (Z.to_nat L) combined).
Proof.
  intros HL. unfold TokenizeData.split_sequences, TokenizeData.full_windows.
  rewrite range_up by done. f_equal.
  rewrite <- list_fmap_compose.
  set (n := length combined). set (l := Z.to_nat L).
  assert (Hl : (0 < l)%nat) by lia.
  assert (Hdiv : (l * (n `div` l) ≤ n)%nat) by apply Nat.Div0.mul_div_le.
  assert (Hmod : (n < l * S (n `div` l))%nat)
    by (apply Nat.mul_succ_div_gt; lia).
  rewrite filter_fmap_seq_prefix with (q := (n `div` l)%nat).
  - apply list_fmap_ext. intros _ k _. simpl.
    rewrite slice_nonneg by lia. do 2 f_equal; lia.
  - unfold Py.len. fold n. destruct (Z.ltb_spec 0 (Z.of_nat n)).
    + assert (Z.of_nat (n `div` l) - 1 <= (Z.of_nat n - 1) `div` L); [|lia].
      apply Z.div_le_lower_bound; [lia|]. nia.
    + assert (n = 0)%nat as -> by lia. by rewrite Nat.Div0.div_0_l.
  - intros k Hk. simpl. rewrite slice_nonneg by lia.
    unfold Py.len. rewrite length_take, length_drop. fold n. nia.
  - intros k [Hk _]. simpl. rewrite slice_nonneg by lia.
    unfold Py.len. rewrite length_take, length_drop. fold n. nia.
Qed.

(** ** The composite token *)

Section composite_token.
Import Pandas TokenizeData.
Implicit Types (self : KronosDataTokenizer) (f data : DataFrame).
Implicit Types (cols : list string) (r : Row).

Lemma fitted_columns_cons_Some self col cols d :
  discretizers self !! col = Some d →
  fitted_columns self (col :: cols) = col :: fitted_columns self cols.
Proof. intros Hd. unfold fitted_columns. by rewrite filter_cons_True by by rewrite Hd. Qed.

Lemma fitted_columns_cons_None self col cols :
  discretizers self !! col = None →
  fitted_columns self (col :: cols) = fitted_columns self cols.
Proof.
  intros Hd. unfold fitted_columns.
  rewrite filter_cons_False; [done|]. rewrite Hd. by intros [? ?].
Qed.

Lemma fitted_columns_lookup self cols col :
  col ∈ fitted_columns self cols → is_Some (discretizers self !! col).
Proof. unfold fitted_columns. rewrite list_elem_of_filter. tauto. Qed.

Lemma feature_tokens_inv self f cols ft :
  feature_tokens self f cols = Some ft →
  Forall (λ col, col ∈ columns f) (fitted_columns self cols) ∧
  Forall2 (token_column self f) (fitted_columns self cols) ft.
Proof.
  revert ft. induction cols as [|col cols IH]; intros ft Hft; simpl in Hft.
  { by simplify_eq. }
  destruct (discretizers self !! col) as [d|] eqn:Hd.
  - rewrite (fitted_columns_cons_Some _ _ _ d) by done.
    unfold column in Hft. case_decide as Hcol; [|done]. simpl in Hft.
    destruct (kbins_transform d _) as [tokens|] eqn:Htok; [|done]. simpl in Hft.
    destruct (feature_tokens self f cols) as [rest|]; [|done]. simplify_eq/=.
    destruct (IH _ eq_refl) as [IH1 IH2].
    split; [by constructor|]. constructor; [|done].
    exists d. split; [done|].
    apply mapM_Some_1, Forall2_fmap_l in Htok.
    apply Forall2_fmap_r. eapply Forall2_impl; [exact Htok|].
    intros r t Ht. simpl in Ht. destruct (cell r col) as [x|]; [|done].
    simplify_eq/=. eauto.
  - rewrite fitted_columns_cons_None by done. eauto.
Qed.

(** The inner loop of [transform] at row [i] is the accumulation, in
    doubles, of that row's bins. *)
Lemma combine_at_row self f fcols ft (i : nat) r :
  Forall2 (token_column self f) fcols ft →
  rows f !! i = Some r →
  ∃ bins,
    Forall2 (λ col b, ∃ d x, discretizers self !! col = Some d ∧
                             cell r col = Some x ∧ b = ordinal_bin d x) fcols bins ∧
    combine_at self ft i
    = double_mixed_radix (n_bins self + n_special self) (n_special self) bins.
Proof.
  intros Hft Hr. unfold combine_at, double_mixed_radix.
  generalize (@None Double.t).
  induction Hft as [|col tokens fcols ft (d & Hd & Hcol) _ IH]; intros acc.
  { exists []. by split; [constructor|]. }
  destruct (Forall2_lookup_l _ _ _ _ _ Hcol Hr) as (t & Ht & x & Hx & ->).
  destruct (IH (combine_step (n_bins self + n_special self) acc
                  (Double.add (Double.of_int (ordinal_bin d x))
                              (Double.of_int (n_special self)))))
    as (bins & Hbins & Heq).
  exists (ordinal_bin d x :: bins). split.
  - constructor; [|done]. eauto.
  - simpl. by rewrite Ht.
Qed.

Lemma row_bins_Some self cols r bins :
  row_bins self cols r = Some bins ↔
  Forall2 (λ col b, ∃ d x, discretizers self !! col = Some d ∧
                           cell r col = Some x ∧ b = ordinal_bin d x)
          (fitted_columns self cols) bins.
Proof.
  unfold row_bins. rewrite mapM_Some.
  split; intros HF; (eapply Forall2_impl; [exact HF|]); intros col b; simpl.
  - intros H. destruct (discretizers self !! col) as [d|]; [|done].
    simpl in H. destruct (cell r col) as [x|] eqn:Hx; [|done].
    simplify_eq/=. eauto.
  - intros (d & x & -> & Hx & ->). simpl. by rewrite Hx.
Qed.

Lemma feature_tokens_is_Some self f cols :
  Forall (λ col, col ∈ columns f) (fitted_columns self cols) →
  Forall (λ r, is_Some (row_bins self cols r)) (rows f) →
  is_Some (feature_tokens self f cols).
Proof.
  intros Hcols Hrows.
  assert (Hcell : ∀ col, col ∈ fitted_columns self cols →
                         Forall (λ r, is_Some (cell r col)) (rows f)).
  { intros col Hcol. eapply Forall_impl; [exact Hrows|].
    intros r [bins Hbins%row_bins_Some].
    apply list_elem_of_lookup in Hcol as [j Hj].
    destruct (Forall2_lookup_l _ _ _ _ _ Hbins Hj) as (b & _ & d & x & _ & -> & _).
    eauto. }
  clear Hrows.
  induction cols as [|col cols IH]; simpl; [done|].
  destruct (discretizers self !! col) as [d|] eqn:Hd.
  - rewrite (fitted_columns_cons_Some _ _ _ d) in Hcols, Hcell by done.
    apply Forall_cons in Hcols as [Hcol Hcols].
    unfold column. rewrite decide_True by done. simpl.
    destruct (mapM_is_Some_2 (λ v, (λ x, Double.of_int (ordinal_bin d x)) <$> v)
                ((λ r, cell r col) <$> rows f))
      as [tokens Htok].
    { apply Forall_fmap. eapply Forall_impl; [apply Hcell; left|].
      intros r [x Hx]. simpl. rewrite Hx. eauto. }
    unfold kbins_transform. rewrite Htok. simpl.
    destruct IH as [rest ->]; [done| |done].
    intros c Hc. apply Hcell. by right.
  - rewrite fitted_columns_cons_None in Hcols, Hcell by done. auto.
Qed.

Lemma symbol_tokens_row_tokens self data cols s toks :
  symbol_tokens self data cols s = Some toks →
  fitted_columns self cols ≠ [] ∧
  Forall (λ col, col ∈ columns data) (fitted_columns self cols) ∧
  mapM (row_token self cols) (rows (symbol_frame data s)) = Some toks.
Proof.
  unfold symbol_tokens. intros Htoks.
  destruct (feature_tokens _ _ _) as [ft|] eqn:Hft; [|done]. simpl in Htoks.
  apply feature_tokens_inv in Hft as [Hcols Hft].
  unfold combined_tokens in Htoks.
  destruct ft as [|first ft']; [done|]. simpl in Htoks. simplify_eq.
  split; [|split; [done|]].
  { intros Hnil. rewrite Hnil in Hft. inversion Hft. }
  assert (Hlen : length first = length (rows (symbol_frame data s))).
  { inversion Hft as [|???? (d & _ & Hl)]; subst.
    symmetry. by eapply Forall2_length. }
  apply mapM_Some_2, Forall2_same_length_lookup_2.
  { rewrite length_fmap, length_seq. by rewrite Hlen. }
  intros i r t Hr Ht.
  rewrite list_lookup_fmap in Ht.
  destruct (seq 0 (length first) !! i) as [j|] eqn:Hj; [|done].
  apply lookup_seq in Hj as [-> _]. simplify_eq/=.
  destruct (combine_at_row _ _ _ _ _ _ Hft Hr) as (bins & Hbins & ->).
  unfold row_token. apply row_bins_Some in Hbins. by rewrite Hbins.
Qed.

Lemma symbol_tokens_is_Some self data cols s toks :
  fitted_columns self cols ≠ [] →
  Forall (λ col, col ∈ columns data) (fitted_columns self cols) →
  mapM (row_token self cols) (rows (symbol_frame data s)) = Some toks →
  is_Some (symbol_tokens self data cols s).
Proof.
  intros Hne Hcols Hrows. unfold symbol_tokens.
  destruct (feature_tokens_is_Some self (symbol_frame data s) cols) as [ft Hft].
  { done. }
  { assert (is_Some (mapM (row_token self cols) (rows (symbol_frame data s))))
      as Hsome%mapM_is_Some_1 by eauto.
    eapply Forall_impl; [exact Hsome|]. intros r [t Ht]. simpl in Ht.
    unfold row_token in Ht. destruct (row_bins self cols r); [eauto|done]. }
  rewrite Hft. simpl.
  apply feature_tokens_inv in Hft as [_ Hft%Forall2_length].
  destruct ft as [|first ft']; [|by eexists].
  destruct (fitted_columns self cols); [done|discriminate].
Qed.

End composite_token.

(** ** Frames of one symbol *)

Section symbol_frames.
Import Pandas TokenizeData.
Implicit Types (data : DataFrame) (s : string).

Lemma symbol_frame_columns data s : columns (symbol_frame data s) = columns data.
Proof. reflexivity. Qed.

Lemma symbol_frame_perm data s :
  rows (symbol_frame data s) ≡ₚ filter (λ r, symbol r = s) (rows data).
Proof. simpl. apply merge_sort_Permutation. Qed.

Lemma symbol_frame_sorted data s : StronglySorted ts_le (rows (symbol_frame data s)).
Proof. simpl. apply StronglySorted_merge_sort; apply _. Qed.

Lemma symbol_frame_rows data s :
  Forall (λ r, symbol r = s ∧ r ∈ rows data) (rows (symbol_frame data s)).
Proof.
  apply Forall_forall. intros r Hr.
  rewrite symbol_frame_perm in Hr. by apply list_elem_of_filter in Hr.
Qed.

(** Any consecutive part of a symbol's frame is a single-symbol run. *)
Lemma segment_single_symbol_run data s pre run post :
  rows (symbol_frame data s) = pre ++ run ++ post →
  single_symbol_run data s run.
Proof.
  intros Hseg. split; [|split; [|eauto]].
  - pose proof (symbol_frame_rows data s) as HF. rewrite Hseg in HF.
    by apply Forall_app in HF as [_ [HF _]%Forall_app].
  - pose proof (symbol_frame_sorted data s) as HS. rewrite Hseg in HS.
    by apply StronglySorted_app_1_r, StronglySorted_app_1_l in HS.
Qed.

Lemma slice_single_symbol_run data s (a b : Z) :
  single_symbol_run data s (Py.slice (rows (symbol_frame data s)) a b).
Proof.
  destruct (slice_segment (rows (symbol_frame data s)) a b) as (pre & post & Hseg).
  by eapply segment_single_symbol_run.
Qed.

Lemma mapM_slice {A B} (f : A → option B) (xs : list A) (ys : list B) (a b : Z) :
  mapM f xs = Some ys → mapM f (Py.slice xs a b) = Some (Py.slice ys a b).
Proof.
  rewrite !mapM_Some. intros HF. unfold Py.slice.
  rewrite <- (Forall2_length _ _ _ HF).
  by apply Forall2_take, Forall2_drop.
Qed.

Lemma split_sequences_slices {A} (combined : list A) (L : Z) ws w :
  split_sequences combined L = Some ws → w ∈ ws →
  ∃ i, w = Py.slice combined i (i + L).
Proof.
  unfold split_sequences. destruct (Py.range _ _ _) as [starts|]; [|done].
  intros [= <-] [_ Hw]%list_elem_of_filter.
  apply list_elem_of_fmap in Hw as (i & -> & _). eauto.
Qed.

(** Every window of [transform] encodes a single-symbol run. *)
Lemma transform_windows self data cols L seqs w :
  transform self data cols L = Some seqs → w ∈ seqs →
  ∃ s run, single_symbol_run data s run ∧ mapM (row_token self cols) run = Some w.
Proof.
  unfold transform. intros Htr Hw.
  destruct (mapM _ _) as [per_symbol|] eqn:Hmap; [|done]. simplify_eq/=.
  apply elem_of_concat in Hw as (ws & Hw & Hws).
  apply mapM_Some_1 in Hmap.
  apply list_elem_of_lookup in Hws as [k Hk].
  destruct (Forall2_lookup_r _ _ _ _ _ Hmap Hk) as (s & _ & Hs).
  unfold symbol_sequences in Hs.
  destruct (symbol_tokens self data cols s) as [combined|] eqn:Hcomb; [|done].
  simpl in Hs. destruct (split_sequences_slices _ _ _ _ Hs Hw) as [i ->].
  apply symbol_tokens_row_tokens in Hcomb as (_ & _ & Hcomb).
  exists s, (Py.slice (rows (symbol_frame data s)) i (i + L)).
  split; [apply slice_single_symbol_run|by apply mapM_slice].
Qed.

End symbol_frames.

(** ** Sliding windows for training *)

Section sliding.
Import Pandas TokenizeData.
Implicit Types (data : DataFrame) (s : string) (cols : list string).

Lemma foldl_append_window {A} (features : list A) (L P : Z) acc (starts : list Z) :
  foldl (append_window features L P) acc starts
  = (acc.1 ++ ((λ i, Py.slice features i (i + L)) <$> starts),
     acc.2 ++ ((λ i, Py.slice features (i + L) (i + L + P)) <$> starts)).
Proof.
  revert acc. induction starts as [|i starts IH]; intros [ins tgts]; simpl.
  - by rewrite !app_nil_r.
  - rewrite IH. simpl. by rewrite <- !app_assoc.
Qed.

Lemma sliding_windows_Some {A} (features : list A) (L P S : Z) acc res :
  sliding_windows features L P S acc = Some res ↔
  ∃ starts, Py.range 0 (Py.len features - L - P) S = Some starts ∧
    res = (acc.1 ++ ((λ i, Py.slice features i (i + L)) <$> starts),
           acc.2 ++ ((λ i, Py.slice features (i + L) (i + L + P)) <$> starts)).
Proof.
  unfold sliding_windows. destruct (Py.range _ _ _) as [starts|].
  - rewrite foldl_append_window. split.
    + intros [= <-]. eauto.
    + intros (? & [= <-] & ->). done.
  - split; [done|]. by intros (? & ? & _).
Qed.

Lemma values_Some data cols features :
  values data cols = Some features ↔
  Forall (λ c, c ∈ columns data) cols ∧ features = feature_rows cols (rows data).
Proof.
  unfold values, feature_rows. destruct (decide _) as [Hcols|Hcols]; split.
  - by intros [= <-].
  - by intros [_ ->].
  - done.
  - by intros [? _].
Qed.

Lemma unique_constant (l : list string) s :
  Forall (λ x, x = s) l → unique l = match l with [] => [] | _ => [s] end.
Proof.
  induction 1 as [|x l -> Hl IH]; [done|]. simpl. rewrite IH.
  destruct l; [done|]. by rewrite filter_cons_False by naive_solver.
Qed.

Lemma single_symbol_symbols data s :
  rows data ≠ [] → Forall (λ r, symbol r = s) (rows data) → symbols data = [s].
Proof.
  intros Hne Hs. unfold symbols. rewrite (unique_constant _ s).
  - destruct (rows data); done.
  - by apply Forall_fmap.
Qed.

Lemma single_symbol_frame data s :
  Forall (λ r, symbol r = s) (rows data) →
  rows (symbol_frame data s) = merge_sort ts_le (rows data).
Proof. intros Hs. simpl. by rewrite filter_all. Qed.

Lemma length_merge_sort_rows (rs : list Row) : length (merge_sort ts_le rs) = length rs.
Proof. apply Permutation_length, merge_sort_Permutation. Qed.

(** The closing [np.array] conversions. *)
Lemma np_array_Some {A} (windows : list (list A)) (n : nat) :
  Forall (λ w, length w = n) windows → np_array windows = Some windows.
Proof.
  destruct windows as [|first rest]; [done|]. intros [Hf Hr]%Forall_cons.
  cbn [np_array]. rewrite decide_True; [done|].
  eapply Forall_impl; [exact Hr|]. intros w Hw. cbn beta in Hw. congruence.
Qed.

Lemma np_array_inv {A} (windows arr : list (list A)) :
  np_array windows = Some arr → arr = windows.
Proof.
  destruct windows as [|first rest]; cbn [np_array]; [by intros [= <-]|].
  case_decide; [by intros [= <-]|done].
Qed.

Lemma create_sequences_loop data cols (L P S : Z) inputs targets :
  create_sequences_for_training data cols L P S = Some (inputs, targets) →
  symbols_loop data cols L P S (symbols data) ([], []) = Some (inputs, targets).
Proof.
  unfold create_sequences_for_training.
  destruct (symbols_loop data cols L P S (symbols data) ([], []))
    as [[input_sequences target_sequences]|]; [|done].
  cbn [mbind option_bind].
  destruct (np_array input_sequences) as [arr_i|] eqn:Hi; [|done].
  cbn [mbind option_bind].
  destruct (np_array target_sequences) as [arr_t|] eqn:Ht; [|done].
  cbn [mbind option_bind]. intros [= <- <-].
  by rewrite (np_array_inv _ _ Hi), (np_array_inv _ _ Ht).
Qed.

Lemma create_sequences_uniform data cols (L P S : Z) inputs targets (n m : nat) :
  symbols_loop data cols L P S (symbols data) ([], []) = Some (inputs, targets) →
  Forall (λ w, length w = n) inputs →
  Forall (λ w, length w = m) targets →
  create_sequences_for_training data cols L P S = Some (inputs, targets).
Proof.
  intros Hloop Hi Ht. unfold create_sequences_for_training. rewrite Hloop.
  cbn [mbind option_bind]. rewrite (np_array_Some inputs n) by done.
  cbn [mbind option_bind]. by rewrite (np_array_Some targets m).
Qed.

(** The loop on a frame of one symbol: the windows are cut at the multiples
    of the stride. *)
Lemma single_symbol_loop data cols s (L P S : Z) :
  rows data ≠ [] →
  Forall (λ r, symbol r = s) (rows data) →
  Forall (λ c, c ∈ columns data) cols →
  0 <= L → 0 <= P → 0 < S →
  symbols_loop data cols L P S (symbols data) ([], [])
  = Some ((λ k : nat, take (Z.to_nat L)
                        (drop (k * Z.to_nat S)
                           (feature_rows cols (merge_sort ts_le (rows data)))))
            <$> seq 0 (Z.to_nat (if decide (L + P < Py.len (rows data))
                                 then (Py.len (rows data) - L - P - 1) `div` S + 1
                                 else 0)),
          (λ k : nat, take (Z.to_nat P)
                        (drop (k * Z.to_nat S + Z.to_nat L)
                           (feature_rows cols (merge_sort ts_le (rows data)))))
            <$> seq 0 (Z.to_nat (if decide (L + P < Py.len (rows data))
                                 then (Py.len (rows data) - L - P - 1) `div` S + 1
                                 else 0))).
Proof.
  intros Hne Hs Hcols HL HP HS.
  rewrite (single_symbol_symbols _ s) by done.
  assert (Hval : values (symbol_frame data s) cols
                 = Some (feature_rows cols (rows (symbol_frame data s))))
    by (apply values_Some; split; [exact Hcols|done]).
  cbn [symbols_loop]. rewrite Hval.
  cbn [mbind option_bind]. rewrite (single_symbol_frame _ _ Hs).
  set (F := feature_rows cols (merge_sort ts_le (rows data))).
  assert (HlenF : Py.len F = Py.len (rows data)).
  { unfold F, Py.len, feature_rows. by rewrite length_fmap, length_merge_sort_rows. }
  unfold sliding_windows. rewrite range_up by done.
  rewrite foldl_append_window. cbn [fst snd app mbind option_bind].
  rewrite HlenF.
  assert (Hn : (if 0 <? Py.len (rows data) - L - P
                then (Py.len (rows data) - L - P - 1) `div` S + 1 else 0)
               = (if decide (L + P < Py.len (rows data))
                  then (Py.len (rows data) - L - P - 1) `div` S + 1 else 0)).
  { destruct (Z.ltb_spec 0 (Py.len (rows data) - L - P)); case_decide; lia. }
  rewrite Hn, <- !list_fmap_compose. do 2 f_equal.
  - apply list_fmap_ext. intros _ k _. simpl.
    rewrite slice_nonneg by lia. do 2 f_equal; lia.
  - apply list_fmap_ext. intros _ k _. simpl.
    rewrite slice_nonneg by lia. do 2 f_equal; lia.
Qed.

(** Those windows are full: [sequence_length] and [prediction_length] rows. *)
Lemma single_symbol_windows_full {A} (F : list A) (K L P S : Z) (k : nat) :
  Py.len F = K → 0 <= L → 0 <= P → 0 < S →
  k ∈ seq 0 (Z.to_nat (if decide (L + P < K)
                       then (K - L - P - 1) `div` S + 1 else 0)) →
  length (take (Z.to_nat L) (drop (k * Z.to_nat S) F)) = Z.to_nat L ∧
  length (take (Z.to_nat P) (drop (k * Z.to_nat S + Z.to_nat L) F)) = Z.to_nat P.
Proof.
  intros HK HL HP HS [_ Hk]%elem_of_seq. unfold Py.len in HK.
  case_decide as Hlt; [|simpl in Hk; lia].
  assert (Hdiv : S * ((K - L - P - 1) `div` S) <= K - L - P - 1)
    by (apply Z.mul_div_le; lia).
  assert (0 <= (K - L - P - 1) `div` S) by (apply Z.div_pos; lia).
  assert (Z.of_nat k * S <= K - L - P - 1) by nia.
  rewrite !length_take, !length_drop. nia.
Qed.

(** The number of pairs the loop produces for one symbol: one per multiple of
    the stride strictly below [K - L - P]. *)
Lemma single_symbol_pair_count data cols s (L P S : Z) :
  rows data ≠ [] → Forall (λ r, symbol r = s) (rows data) →
  Forall (λ c, c ∈ columns data) cols →
  0 <= L → 0 <= P → 0 < S →
  ∃ inputs targets,
    create_sequences_for_training data cols L P S = Some (inputs, targets) ∧
    length inputs = length targets ∧
    Z.of_nat (length inputs)
    = if decide (L + P < Py.len (rows data))
      then (Py.len (rows data) - L - P - 1) `div` S + 1
      else 0.
Proof.
  intros Hne Hs Hcols HL HP HS.
  pose proof (single_symbol_loop data cols s L P S Hne Hs Hcols HL HP HS) as Hloop.
  assert (HlenF : Py.len (feature_rows cols (merge_sort ts_le (rows data)))
                  = Py.len (rows data)).
  { unfold Py.len, feature_rows. by rewrite length_fmap, length_merge_sort_rows. }
  eexists _, _. split; [|split].
  - apply (create_sequences_uniform _ _ _ _ _ _ _ (Z.to_nat L) (Z.to_nat P) Hloop).
    + apply Forall_fmap, Forall_forall. intros k Hk.
      by apply (single_symbol_windows_full _ _ L P S k HlenF).
    + apply Forall_fmap, Forall_forall. intros k Hk.
      by apply (single_symbol_windows_full _ _ L P S k HlenF).
  - by rewrite !length_fmap.
  - rewrite length_fmap, length_seq. case_decide; [|done].
    assert (0 <= (Py.len (rows data) - L - P - 1) `div` S)
      by (apply Z.div_pos; lia).
    lia.
Qed.

(** The invariant of the two accumulators. *)
Lemma symbols_loop_windows data cols (L P S : Z) syms acc res :
  Forall2 (λ inp tgt, ∃ s run_i run_t,
             single_symbol_run data s run_i ∧ single_symbol_run data s run_t ∧
             inp = feature_rows cols run_i ∧ tgt = feature_rows cols run_t)
          acc.1 acc.2 →
  symbols_loop data cols L P S syms acc = Some res →
  Forall2 (λ inp tgt, ∃ s run_i run_t,
             single_symbol_run data s run_i ∧ single_symbol_run data s run_t ∧
             inp = feature_rows cols run_i ∧ tgt = feature_rows cols run_t)
          res.1 res.2.
Proof.
  revert acc. induction syms as [|s syms IH]; intros acc Hacc Hloop; simpl in Hloop.
  { by simplify_eq. }
  destruct (values _ _) as [features|] eqn:Hval; [|done]. simpl in Hloop.
  destruct (sliding_windows _ _ _ _ _) as [acc'|] eqn:Hwin; [|done]. simpl in Hloop.
  apply (IH acc'); [|done].
  apply values_Some in Hval as [_ ->].
  apply sliding_windows_Some in Hwin as (starts & _ & ->). simpl.
  apply Forall2_app; [done|].
  apply Forall2_fmap, Forall_Forall2_diag, Forall_forall. intros i _. simpl.
  exists s, (Py.slice (rows (symbol_frame data s)) i (i + L)),
    (Py.slice (rows (symbol_frame data s)) (i + L) (i + L + P)).
  unfold feature_rows. rewrite !slice_fmap.
  split_and!; [apply slice_single_symbol_run..|done|done].
Qed.

End sliding.

(** ** What [transform] reads of the tokenizer *)

Section tokenizer_state.
Import Pandas TokenizeData.
Implicit Types (self : KronosDataTokenizer) (data : DataFrame).
Implicit Types (cols : list string).

Lemma feature_tokens_agree (t1 t2 : KronosDataTokenizer) data cols :
  discretizers t1 = discretizers t2 → n_special t1 = n_special t2 →
  feature_tokens t1 data cols = feature_tokens t2 data cols.
Proof.
  intros Hd Hs. induction cols as [|col cols IH]; simpl; [done|].
  by rewrite Hd, Hs, IH.
Qed.

Lemma combined_tokens_agree (t1 t2 : KronosDataTokenizer) ft :
  n_bins t1 = n_bins t2 → n_special t1 = n_special t2 →
  combined_tokens t1 ft = combined_tokens t2 ft.
Proof.
  intros Hn Hs. unfold combined_tokens, combine_at. by rewrite Hn, Hs.
Qed.

Lemma transform_agree (t1 t2 : KronosDataTokenizer) data cols (L : Z) :
  n_bins t1 = n_bins t2 → discretizers t1 = discretizers t2 →
  n_special t1 = n_special t2 →
  transform t1 data cols L = transform t2 data cols L.
Proof.
  intros Hn Hd Hs. unfold transform. f_equal.
  apply mapM_ext. intros s. unfold symbol_sequences, symbol_tokens.
  rewrite (feature_tokens_agree t1 t2) by done.
  destruct (feature_tokens t2 _ _) as [ft|]; [|done]. simpl.
  by rewrite (combined_tokens_agree t1 t2).
Qed.

Lemma n_special_agree (t1 t2 : KronosDataTokenizer) :
  special_tokens t1 = special_tokens t2 → n_special t1 = n_special t2.
Proof. unfold n_special. by intros ->. Qed.

(** [fit] reads [n_bins] only, and writes [discretizers] only. *)
Lemma fit_agree kfit (t1 t2 : KronosDataTokenizer) data cols :
  same_up_to_vocab_size t1 t2 →
  match fit kfit t1 data cols, fit kfit t2 data cols with
  | Some t1', Some t2' =>
      same_up_to_vocab_size t1' t2' ∧
      vocab_size t1' = vocab_size t1 ∧ vocab_size t2' = vocab_size t2
  | None, None => True
  | _, _ => False
  end.
Proof.
  revert t1 t2. induction cols as [|col cols IH]; intros t1 t2 Hsame; simpl.
  { done. }
  destruct Hsame as (Hn & Hd & Hs).
  destruct (column data col) as [col_data|]; [|done]. simpl. rewrite Hn.
  destruct (kfit (n_bins t2) col_data) as [d|]; [|done]. simpl.
  specialize (IH (set_discretizer t1 col d) (set_discretizer t2 col d)).
  simpl in IH. apply IH. split_and!; simpl; [done| |done]. by rewrite Hd.
Qed.

Lemma fit_preserves kfit self data cols self' :
  fit kfit self data cols = Some self' →
  n_bins self' = n_bins self ∧ special_tokens self' = special_tokens self.
Proof.
  revert self. induction cols as [|col cols IH]; intros self Hfit; simpl in Hfit.
  { by simplify_eq. }
  destruct (column data col) as [col_data|]; [|done]. simpl in Hfit.
  destruct (kfit (n_bins self) col_data) as [d|]; [|done]. simpl in Hfit.
  by apply IH in Hfit.
Qed.

Lemma n_special_init (n v : Z) : n_special (init n v) = 5.
Proof. reflexivity. Qed.

End tokenizer_state.

(** ** Bounds on the composite token *)

Section token_bounds.
Import Pandas TokenizeData.

Lemma ordinal_bin_nonneg d x : 0 <= ordinal_bin d x.
Proof. unfold ordinal_bin, searchsorted_right, Py.len. lia. Qed.

Lemma mixed_radix_snoc radix offset bins b :
  mixed_radix radix offset (bins ++ [b])
  = mixed_radix radix offset bins * radix + (b + offset).
Proof. unfold mixed_radix. by rewrite foldl_app. Qed.

Lemma mixed_radix_nonneg radix offset bins :
  0 <= radix → 0 <= offset → Forall (λ b, 0 <= b) bins →
  0 <= mixed_radix radix offset bins.
Proof.
  intros Hr Ho. induction bins as [|b bins IH] using rev_ind; intros Hb.
  { done. }
  apply Forall_app in Hb as [Hbins [Hb _]%Forall_cons].
  rewrite mixed_radix_snoc. specialize (IH Hbins). nia.
Qed.

(** With at least one digit the token is at least the offset. *)
Lemma mixed_radix_ge_offset radix offset bins :
  0 <= radix → 0 <= offset → Forall (λ b, 0 <= b) bins → bins ≠ [] →
  offset <= mixed_radix radix offset bins.
Proof.
  intros Hr Ho Hb Hne. destruct bins as [|b bins _] using rev_ind; [done|].
  apply Forall_app in Hb as [Hbins [Hb _]%Forall_cons].
  rewrite mixed_radix_snoc.
  pose proof (mixed_radix_nonneg radix offset bins Hr Ho Hbins). nia.
Qed.

(** With [k + 1] digits the token is at least [offset * radix ^ k]. *)
Lemma mixed_radix_ge_power radix offset bins :
  1 <= radix → 0 <= offset → Forall (λ b, 0 <= b) bins → bins ≠ [] →
  offset * radix ^ (Py.len bins - 1) + offset * (Py.len bins - 1)
  <= mixed_radix radix offset bins.
Proof.
  intros Hr Ho. unfold Py.len.
  induction bins as [|b bins IH] using rev_ind; intros Hb Hne; [done|].
  apply Forall_app in Hb as [Hbins [Hb _]%Forall_cons].
  rewrite mixed_radix_snoc, length_app. simpl.
  destruct (decide (bins = [])) as [->|Hne'].
  { simpl. unfold mixed_radix. simpl. lia. }
  specialize (IH Hbins Hne').
  assert (0 < length bins)%nat by (destruct bins; [done|simpl; lia]).
  replace (Z.of_nat (length bins + 1) - 1) with (Z.succ (Z.of_nat (length bins) - 1)) by lia.
  rewrite Z.pow_succ_r by lia.
  set (k := Z.of_nat (length bins) - 1) in *.
  set (p := radix ^ k) in *.
  set (m := mixed_radix radix offset bins) in *.
  assert (0 <= p) by (apply Z.pow_nonneg; lia).
  assert (offset * k <= offset * k * radix) by nia.
  assert ((offset * p + offset * k) * radix <= m * radix) by nia.
  lia.
Qed.

(** The same bounds survive the rounding of the doubles. *)
Lemma digit_ge (b offset : Z) :
  0 <= b → 0 <= offset < 2 ^ 53 →
  Double.le (Double.Finite offset)
            (Double.add (Double.of_int b) (Double.of_int offset)).
Proof.
  intros Hb Ho. apply (add_ge 0 offset); [lia..| |].
  - apply round_ge; lia.
  - unfold Double.of_int. rewrite round_exact by lia. simpl. lia.
Qed.

Lemma combine_step_first_ge radix (c : Z) t :
  0 <= c < 2 ^ 53 → Double.le (Double.Finite c) t →
  ∃ tok, combine_step radix None t = Some tok ∧ Double.le (Double.Finite c) tok.
Proof.
  intros Hc Ht. eexists. split; [done|]. apply (add_ge 0 c); [lia..| |done].
  rewrite Z.mul_0_l. unfold Double.of_int. by rewrite round_exact by lia.
Qed.

Lemma combine_step_ge radix (m c offset : Z) tok t :
  0 < c → 0 < m → 0 <= offset → c * m + offset < 2 ^ 53 →
  Double.le (Double.Finite m) (Double.of_int radix) →
  Double.le (Double.Finite c) tok → Double.le (Double.Finite offset) t →
  ∃ tok', combine_step radix (Some tok) t = Some tok' ∧
          Double.le (Double.Finite (c * m + offset)) tok'.
Proof.
  intros Hc Hm Ho Hsmall Hradix Htok Ht. eexists. split; [done|].
  apply add_ge; [nia|lia|lia| |done]. apply mul_ge; [lia..|nia|done|done].
Qed.

Lemma fold_combine_ge radix (m offset c : Z) bins tok :
  0 < c → 0 < m → 0 <= offset → c * m + offset < 2 ^ 53 →
  Double.le (Double.Finite m) (Double.of_int radix) →
  Forall (λ b, 0 <= b) bins →
  Double.le (Double.Finite c) tok →
  Double.le (Double.Finite c)
    (token_value
       (foldl (λ token bin,
                 combine_step radix token
                   (Double.add (Double.of_int bin) (Double.of_int offset)))
              (Some tok) bins)).
Proof.
  intros Hc Hm Ho Hsmall Hradix Hbins. revert tok.
  induction Hbins as [|b bins Hb _ IH]; intros tok Htok; cbn [foldl]; [done|].
  destruct (combine_step_ge radix m c offset tok
              (Double.add (Double.of_int b) (Double.of_int offset)))
    as (tok' & -> & Htok'); [done..| |].
  { apply digit_ge; [done|nia]. }
  apply IH. eapply le_weaken; [|exact Htok']. nia.
Qed.

(** With [n_bins] positive and five special tokens every token is at least
    [5]; with [n_bins = 1000] it is at least [5030] from two digits on and
    above [10000] from three digits on. *)
Lemma double_mixed_radix_bounds (n : Z) bins :
  0 < n → Forall (λ b, 0 <= b) bins → bins ≠ [] →
  Double.le (Double.Finite 5) (double_mixed_radix (n + 5) 5 bins) ∧
  (n = 1000 → (2 ≤ length bins)%nat →
   Double.le (Double.Finite 5030) (double_mixed_radix (n + 5) 5 bins)) ∧
  (n = 1000 → (3 ≤ length bins)%nat →
   Double.lt (Double.Finite 10000) (double_mixed_radix (n + 5) 5 bins)).
Proof.
  intros Hn Hbins Hne. unfold double_mixed_radix.
  destruct Hbins as [|b1 bins Hb1 Hbins]; [done|]. cbn [foldl].
  destruct (combine_step_first_ge (n + 5) 5
              (Double.add (Double.of_int b1) (Double.of_int 5)))
    as (tok1 & -> & Htok1); [lia|by apply digit_ge|].
  split_and!.
  - apply (fold_combine_ge _ 1); [lia..| |done|done]. apply round_ge; lia.
  - intros -> Hlen. destruct Hbins as [|b2 bins Hb2 Hbins]; [simpl in Hlen; lia|].
    cbn [foldl].
    destruct (combine_step_ge (1000 + 5) 1005 5 5 tok1
                (Double.add (Double.of_int b2) (Double.of_int 5)))
      as (tok2 & -> & Htok2); [lia..| |done|by apply digit_ge|].
    { unfold Double.of_int. rewrite round_exact by lia. simpl. lia. }
    apply (fold_combine_ge _ 1005); [lia..| |done|done].
    unfold Double.of_int. rewrite round_exact by lia. simpl. lia.
  - intros -> Hlen.
    destruct Hbins as [|b2 bins Hb2 Hbins]; [simpl in Hlen; lia|].
    destruct Hbins as [|b3 bins Hb3 Hbins]; [simpl in Hlen; lia|].
    cbn [foldl].
    assert (Hradix : Double.le (Double.Finite 1005) (Double.of_int (1000 + 5))).
    { unfold Double.of_int. rewrite round_exact by lia. simpl. lia. }
    destruct (combine_step_ge (1000 + 5) 1005 5 5 tok1
                (Double.add (Double.of_int b2) (Double.of_int 5)))
      as (tok2 & -> & Htok2); [lia..|done|done|by apply digit_ge|].
    destruct (combine_step_ge (1000 + 5) 1005 (5 * 1005 + 5) 5 tok2
                (Double.add (Double.of_int b3) (Double.of_int 5)))
      as (tok3 & -> & Htok3); [lia..|done|done|by apply digit_ge|].
    apply (le_lt 10000), (fold_combine_ge _ 1005); [lia..|done|done|].
    eapply le_weaken; [|exact Htok3]. lia.
Qed.

End token_bounds.

(** ** The tokenizer: statements about [transform], [save] and [load] *)

Section tokenizer_windows.
Import Pandas TokenizeData.
Implicit Types (self : KronosDataTokenizer) (data : DataFrame).
Implicit Types (cols : list string).

Lemma transform_tokens self data cols (L : Z) seqs w t :
  transform self data cols L = Some seqs → w ∈ seqs → t ∈ w →
  ∃ r bins, r ∈ rows data ∧ row_bins self cols r = Some bins ∧ bins ≠ [] ∧
            t = double_mixed_radix (n_bins self + n_special self)
                  (n_special self) bins.
Proof.
  intros Htr Hw Ht.
  assert (Hfit : fitted_columns self cols ≠ []).
  { unfold transform in Htr.
    destruct (mapM _ _) as [per_symbol|] eqn:Hmap; [|done]. simplify_eq/=.
    apply elem_of_concat in Hw as (ws & Hw & Hws).
    apply mapM_Some_1 in Hmap. apply list_elem_of_lookup in Hws as [k Hk].
    destruct (Forall2_lookup_r _ _ _ _ _ Hmap Hk) as (s & _ & Hs).
    unfold symbol_sequences in Hs.
    destruct (symbol_tokens self data cols s) as [combined|] eqn:Hcomb; [|done].
    by apply symbol_tokens_row_tokens in Hcomb as (? & _). }
  destruct (transform_windows _ _ _ _ _ _ Htr Hw) as (s & run & (Hrun & _) & Hmap).
  apply mapM_Some_1 in Hmap. apply list_elem_of_lookup in Ht as [k Hk].
  destruct (Forall2_lookup_r _ _ _ _ _ Hmap Hk) as (r & Hr & Htok).
  unfold row_token in Htok.
  destruct (row_bins self cols r) as [bins|] eqn:Hbins; [|done]. simplify_eq/=.
  exists r, bins. split_and!; [|done| |done].
  - apply list_elem_of_lookup_2 in Hr.
    by apply (proj1 (Forall_forall _ _) Hrun) in Hr as [_ ?].
  - apply row_bins_Some, Forall2_length in Hbins.
    destruct bins; [|done]. by destruct (fitted_columns self cols).
Qed.

Lemma row_bins_nonneg self cols r bins :
  row_bins self cols r = Some bins →
  Forall (λ b, 0 <= b) bins ∧ length bins = length (fitted_columns self cols).
Proof.
  intros Hbins%row_bins_Some. split; [|symmetry; by eapply Forall2_length].
  apply Forall_forall. intros b [k Hk]%list_elem_of_lookup.
  destruct (Forall2_lookup_r _ _ _ _ _ Hbins Hk) as (col & _ & d & x & _ & _ & ->).
  apply ordinal_bin_nonneg.
Qed.

(** The per-symbol part of [transform], with the chunking made explicit. *)
Lemma transform_per_symbol self data cols (L : Z) seqs :
  0 < L → transform self data cols L = Some seqs →
  ∃ per_symbol,
    mapM (symbol_tokens self data cols) (symbols data) = Some per_symbol ∧
    seqs = concat (full_windows (Z.to_nat L) <$> per_symbol).
Proof.
  intros HL. unfold transform.
  destruct (mapM _ _) as [chunks|] eqn:Hmap; [|done]. intros [= <-].
  revert chunks Hmap. induction (symbols data) as [|s syms IH]; intros chunks Hmap.
  { apply mapM_Some_1 in Hmap. inversion Hmap. by exists []. }
  apply mapM_Some_1 in Hmap. inversion Hmap as [|? ws ? chunks' Hs Hrest]; subst.
  apply mapM_Some_2 in Hrest. destruct (IH _ Hrest) as (per_symbol & Hper & Heq).
  unfold symbol_sequences in Hs.
  destruct (symbol_tokens self data cols s) as [combined|] eqn:Hcomb; [|done].
  simpl in Hs. rewrite split_sequences_full_windows in Hs by done. simplify_eq.
  exists (combined :: per_symbol). split.
  - apply mapM_Some_2. constructor; [done|]. by apply mapM_Some_1.
  - simpl. by rewrite Heq.
Qed.

End tokenizer_windows.

(** ** Statements of the tokenizer and of the sequence builder *)

Section tokenizer_theorems.
Import Pandas TokenizeData.
Implicit Types (self : KronosDataTokenizer) (data : DataFrame).
Implicit Types (cols : list string).

(** C1, at the input where the code departs from it. A single-symbol frame of
    [K = 3] rows with [sequence_length = 2], [prediction_length = 1] and
    [stride = 1] has [K = L + P], so that [floor((K - L - P) / S) + 1 = 1] pair
    is expected; [create_sequences_for_training] returns no pair at all, since
    [range(0, K - L - P, S)] is empty. One row more ([L = 1]) gives one pair
    where two are expected. *)
Theorem create_sequences_exact_fit_yields_no_pair :
  symbols Examples.three_rows = ["X"] ∧
  Py.len (rows Examples.three_rows) = 2 + 1 ∧
  (Py.len (rows Examples.three_rows) - 2 - 1) `div` 1 + 1 = 1 ∧
  create_sequences_for_training Examples.three_rows ["open"; "close"] 2 1 1
  = Some ([], []) ∧
  (Py.len (rows Examples.three_rows) - 1 - 1) `div` 1 + 1 = 2 ∧
  create_sequences_for_training Examples.three_rows ["close"] 1 1 1
  = Some ([[[Some 11%Q]]], [[[Some 12%Q]]]).
Proof. by vm_compute. Qed.

(** C2, at an input where the code departs from it. The tokens are doubles,
    and with [n_bins = 1000] the accumulation [token = token * 1005 + (bin +
    5)] over seven columns passes [2^53] and rounds. A tokenizer fitted on
    three rows of seven columns puts the second row into bin [0] and the
    third into bin [499] of the seventh column, and both into bin [499] of
    the other six; their mixed-radix numbers differ, but [transform] returns
    the same token for both: the digit of the seventh column is rounded away,
    and no token of the three is the mixed-radix number of its row. *)
Theorem composite_token_rounds_away_last_column :
  ∃ tokenizer,
    fit quantile_fit (init default_n_bins default_vocab_size)
        Examples.seven_features Examples.seven_columns = Some tokenizer ∧
    fitted_columns tokenizer Examples.seven_columns = Examples.seven_columns ∧
    n_bins tokenizer + n_special tokenizer = 1005 ∧
    n_special tokenizer = 5 ∧
    mapM (row_bins tokenizer Examples.seven_columns) (rows Examples.seven_features)
    = Some [[0; 0; 0; 0; 0; 0; 0];
            [499; 499; 499; 499; 499; 499; 0];
            [499; 499; 499; 499; 499; 499; 499]] ∧
    mixed_radix 1005 5
      <$> [[0; 0; 0; 0; 0; 0; 0];
           [499; 499; 499; 499; 499; 499; 0];
           [499; 499; 499; 499; 499; 499; 499]]
    = [5157018909067402655; 519827506033994187125; 519827506033994187624] ∧
    transform tokenizer Examples.seven_features Examples.seven_columns 1
    = Some [[Double.Finite 5157018909067402240];
            [Double.Finite 519827506033994235904];
            [Double.Finite 519827506033994235904]].
Proof.
  eexists. split; [vm_compute; reflexivity|].
  split; [vm_compute; reflexivity|].
  split; [vm_compute; reflexivity|].
  split; [vm_compute; reflexivity|].
  split; [vm_compute; reflexivity|].
  split; [vm_compute; reflexivity|].
  vm_compute. reflexivity.
Qed.

(** C3. Every window of [transform] is the encoding of a run of consecutive
    rows of one symbol in timestamp order, and every input/target pair of
    [create_sequences_for_training] consists of the feature rows of two such
    runs of the same symbol. *)
Theorem windows_single_symbol self data cols (L P S : Z) :
  (∀ seqs w,
     transform self data cols L = Some seqs → w ∈ seqs →
     ∃ s run, single_symbol_run data s run ∧
              mapM (row_token self cols) run = Some w) ∧
  (∀ inputs targets,
     create_sequences_for_training data cols L P S = Some (inputs, targets) →
     Forall2 (λ inp tgt, ∃ s run_i run_t,
                single_symbol_run data s run_i ∧ single_symbol_run data s run_t ∧
                inp = feature_rows cols run_i ∧ tgt = feature_rows cols run_t)
             inputs targets).
Proof.
  split.
  - intros seqs w. apply transform_windows.
  - intros inputs targets Hcs%create_sequences_loop.
    by apply (symbols_loop_windows data cols L P S (symbols data) ([], [])
                (inputs, targets)).
Qed.

Lemma windows_single_symbol_witness :
  (∃ s run, single_symbol_run Examples.two_symbols s run ∧
            mapM (row_token Examples.coarse_tokenizer ["open"; "close"]) run
            = Some [Double.Finite 51; Double.Finite 79]) ∧
  Forall2 (λ inp tgt, ∃ s run_i run_t,
             single_symbol_run Examples.two_symbols s run_i ∧
             single_symbol_run Examples.two_symbols s run_t ∧
             inp = feature_rows ["open"] run_i ∧ tgt = feature_rows ["open"] run_t)
          [[[Some 0%Q]]] [[[Some 9%Q]]].
Proof.
  split.
  - apply (proj1 (windows_single_symbol Examples.coarse_tokenizer Examples.two_symbols
                    ["open"; "close"] 2 1 1) [[Double.Finite 51; Double.Finite 79]; [Double.Finite 71; Double.Finite 71]]).
    + vm_compute. reflexivity.
    + left.
  - apply (proj2 (windows_single_symbol Examples.coarse_tokenizer Examples.two_symbols
                    ["open"] 1 1 1)).
    vm_compute. reflexivity.
Defined.

(** C4. A frame of 600 rows of one symbol, with [sequence_length = 512],
    [prediction_length = 10] and [stride = 256], gives exactly one pair: the
    input window is rows [0, 512) and the target window rows [512, 522) of
    the rows in timestamp order. *)
Theorem six_hundred_rows_one_pair data cols s :
  length (rows data) = 600%nat →
  Forall (λ r, symbol r = s) (rows data) →
  Forall (λ c, c ∈ columns data) cols →
  create_sequences_for_training data cols 512 10 256
  = Some ([take 512 (feature_rows cols (merge_sort ts_le (rows data)))],
          [take 10 (drop 512 (feature_rows cols (merge_sort ts_le (rows data))))]).
Proof.
  intros Hlen Hs Hcols.
  apply (create_sequences_uniform _ _ _ _ _ _ _ 512 10).
  2:{ constructor; [|constructor]. rewrite length_take. unfold feature_rows.
      rewrite length_fmap, length_merge_sort_rows, Hlen. reflexivity. }
  2:{ constructor; [|constructor]. rewrite length_take, length_drop.
      unfold feature_rows.
      rewrite length_fmap, length_merge_sort_rows, Hlen. reflexivity. }
  rewrite (single_symbol_symbols _ s); [|by destruct (rows data)|done].
  assert (Hval : values (symbol_frame data s) cols
                 = Some (feature_rows cols (rows (symbol_frame data s))))
    by (apply values_Some; split; [exact Hcols|done]).
  cbn [symbols_loop]. rewrite Hval.
  cbn [mbind option_bind]. rewrite (single_symbol_frame _ _ Hs).
  unfold sliding_windows.
  assert (Hrange : Py.len (feature_rows cols (merge_sort ts_le (rows data)))
                   - 512 - 10 = 78).
  { unfold Py.len, feature_rows.
    rewrite length_fmap, length_merge_sort_rows, Hlen. reflexivity. }
  rewrite Hrange, range_up_single by lia.
  rewrite foldl_append_window. cbn [fst snd fmap list_fmap app].
  rewrite !slice_nonneg by lia. do 3 f_equal.
Qed.

Lemma six_hundred_rows_one_pair_witness :
  create_sequences_for_training Examples.six_hundred_rows ["close"] 512 10 256
  = Some ([take 512 (feature_rows ["close"]
                       (merge_sort ts_le (rows Examples.six_hundred_rows)))],
          [take 10 (drop 512 (feature_rows ["close"]
                       (merge_sort ts_le (rows Examples.six_hundred_rows))))]).
Proof.
  apply (six_hundred_rows_one_pair Examples.six_hundred_rows ["close"] "X").
  - vm_compute. reflexivity.
  - apply (bool_decide_unpack _). vm_compute. exact I.
  - apply (bool_decide_unpack _). vm_compute. exact I.
Defined.

(** C5. With a positive [sequence_length] [L], [transform] returns, symbol
    after symbol, the windows [tokens[k*L : k*L + L]] for [k = 0, 1, ...,
    len(tokens) // L - 1] of the symbol's composite tokens: [len(tokens) // L]
    windows of exactly [L] tokens each, and nothing of a shorter rest. *)
Theorem transform_full_windows self data cols (L : Z) seqs :
  0 < L →
  transform self data cols L = Some seqs →
  ∃ per_symbol,
    mapM (symbol_tokens self data cols) (symbols data) = Some per_symbol ∧
    seqs = concat (full_windows (Z.to_nat L) <$> per_symbol) ∧
    Forall (λ tokens,
              split_sequences tokens L = Some (full_windows (Z.to_nat L) tokens) ∧
              Py.len (full_windows (Z.to_nat L) tokens) = Py.len tokens `div` L ∧
              (∀ k : nat, Z.of_nat k < Py.len tokens `div` L →
                 full_windows (Z.to_nat L) tokens !! k
                 = Some (take (Z.to_nat L) (drop (k * Z.to_nat L) tokens))) ∧
              Forall (λ w, Py.len w = L) (full_windows (Z.to_nat L) tokens))
           per_symbol.
Proof.
  intros HL Htr.
  destruct (transform_per_symbol _ _ _ _ _ HL Htr) as (per_symbol & Hper & ->).
  exists per_symbol. split_and!; [done..|].
  apply Forall_forall. intros tokens _.
  assert (Hdiv : Py.len tokens `div` L
                 = Z.of_nat (length tokens `div` Z.to_nat L)).
  { unfold Py.len. rewrite Nat2Z.inj_div. f_equal. lia. }
  split_and!.
  - by apply split_sequences_full_windows.
  - unfold Py.len at 1. by rewrite length_full_windows.
  - intros k Hk. apply full_windows_lookup. lia.
  - eapply Forall_impl; [apply full_windows_window_length; lia|].
    intros w Hw. simpl in Hw. unfold Py.len. lia.
Qed.

Lemma transform_full_windows_witness :
  ∃ per_symbol,
    mapM (symbol_tokens Examples.coarse_tokenizer Examples.two_symbols
            ["open"; "close"]) (symbols Examples.two_symbols) = Some per_symbol ∧
    [[Double.Finite 51; Double.Finite 79]; [Double.Finite 71; Double.Finite 71]] = concat (full_windows (Z.to_nat 2) <$> per_symbol) ∧
    Forall (λ tokens,
              split_sequences tokens 2 = Some (full_windows (Z.to_nat 2) tokens) ∧
              Py.len (full_windows (Z.to_nat 2) tokens) = Py.len tokens `div` 2 ∧
              (∀ k : nat, Z.of_nat k < Py.len tokens `div` 2 →
                 full_windows (Z.to_nat 2) tokens !! k
                 = Some (take (Z.to_nat 2) (drop (k * Z.to_nat 2) tokens))) ∧
              Forall (λ w, Py.len w = 2) (full_windows (Z.to_nat 2) tokens))
           per_symbol.
Proof.
  apply (transform_full_windows Examples.coarse_tokenizer Examples.two_symbols
           ["open"; "close"] 2 [[Double.Finite 51; Double.Finite 79]; [Double.Finite 71; Double.Finite 71]]).
  - lia.
  - vm_compute. reflexivity.
Defined.

(** C6. [transform] is a function of the data, the column list, the sequence
    length and of three parts of the tokenizer only: [n_bins], the fitted
    discretizers and the number of special tokens. Two tokenizers that agree
    on these return the same token sequences (or fail alike). *)
Theorem transform_deterministic (t1 t2 : KronosDataTokenizer) data cols (L : Z) :
  n_bins t1 = n_bins t2 →
  discretizers t1 = discretizers t2 →
  n_special t1 = n_special t2 →
  transform t1 data cols L = transform t2 data cols L.
Proof. apply transform_agree. Qed.

Lemma transform_deterministic_witness :
  transform Examples.coarse_tokenizer Examples.two_symbols ["open"; "close"] 2
  = transform
      {| n_bins := 4; vocab_size := 7;
         discretizers := discretizers Examples.coarse_tokenizer;
         special_tokens := <["a" := 9]> (<["b" := 9]> (<["c" := 9]>
                             (<["d" := 9]> (<["e" := 9]> ∅)))) |}
      Examples.two_symbols ["open"; "close"] 2.
Proof.
  apply (transform_deterministic Examples.coarse_tokenizer).
  - reflexivity.
  - reflexivity.
  - vm_compute. reflexivity.
Defined.

(** C9. [load] after [save] gives back the tokenizer that was saved: the same
    [n_bins], [vocab_size], discretizers and special tokens, with no fitting
    involved, and therefore the same [transform]. *)
Theorem save_load_roundtrip self (filepath : string)
    (fs : gmap string (gmap string PyObject)) :
  load filepath (save self filepath fs) = Some self ∧
  ∀ loaded, load filepath (save self filepath fs) = Some loaded →
    n_bins loaded = n_bins self ∧
    vocab_size loaded = vocab_size self ∧
    discretizers loaded = discretizers self ∧
    special_tokens loaded = special_tokens self ∧
    ∀ data cols (L : Z), transform loaded data cols L = transform self data cols L.
Proof.
  assert (Hload : load filepath (save self filepath fs) = Some self).
  { unfold load, save. rewrite lookup_insert_eq. simpl.
    repeat (rewrite ?lookup_insert_eq; rewrite ?lookup_insert_ne by done; simpl).
    by destruct self. }
  split; [done|]. intros loaded Hl. rewrite Hload in Hl. by simplify_eq.
Qed.

Lemma save_load_roundtrip_witness :
  load "kronos_tokenizer.pkl" (save Examples.coarse_tokenizer "kronos_tokenizer.pkl" ∅)
  = Some Examples.coarse_tokenizer ∧
  ∀ loaded,
    load "kronos_tokenizer.pkl"
         (save Examples.coarse_tokenizer "kronos_tokenizer.pkl" ∅) = Some loaded →
    transform loaded Examples.two_symbols ["open"; "close"] 2
    = Some [[Double.Finite 51; Double.Finite 79]; [Double.Finite 71; Double.Finite 71]].
Proof.
  destruct (save_load_roundtrip Examples.coarse_tokenizer "kronos_tokenizer.pkl" ∅)
    as [Hload Hsame].
  split; [exact Hload|].
  intros loaded Hloaded.
  destruct (Hsame loaded Hloaded) as (_ & _ & _ & _ & Htr).
  rewrite (Htr Examples.two_symbols ["open"; "close"] 2).
  vm_compute. reflexivity.
Defined.

End tokenizer_theorems.

(** ** [vocab_size] *)

Section vocab_size.
Import Pandas TokenizeData.
Implicit Types (data : DataFrame) (cols : list string).

(** C10, as the code has it. Two tokenizers built with the same [n_bins] and
    fitted on the same data and columns differ in [vocab_size] only, and
    [transform] returns the same for both on every input. With a positive
    [n_bins] every composite token is at least [5], the number of special
    tokens. With [n_bins = 1000] every composite token of two or more fitted
    columns is at least [5030], and every composite token of three or more
    fitted columns is above [10000]. *)
Theorem vocab_size_unused (kfit : KBinsFit) (n v1 v2 : Z) data cols
    (t1 : KronosDataTokenizer) :
  0 < n →
  fit kfit (init n v1) data cols = Some t1 →
  ∃ t2,
    fit kfit (init n v2) data cols = Some t2 ∧
    same_up_to_vocab_size t1 t2 ∧ vocab_size t1 = v1 ∧ vocab_size t2 = v2 ∧
    (∀ data' cols' (L : Z), transform t1 data' cols' L = transform t2 data' cols' L) ∧
    (∀ data' cols' (L : Z) seqs w t,
       transform t1 data' cols' L = Some seqs → w ∈ seqs → t ∈ w →
       Double.le (Double.Finite 5) t ∧
       (n = 1000 → (2 ≤ length (fitted_columns t1 cols'))%nat →
        Double.le (Double.Finite 5030) t) ∧
       (n = 1000 → (3 ≤ length (fitted_columns t1 cols'))%nat →
        Double.lt (Double.Finite 10000) t)).
Proof.
  intros Hn Hfit.
  pose proof (fit_agree kfit (init n v1) (init n v2) data cols) as Hagree.
  rewrite Hfit in Hagree.
  destruct (fit kfit (init n v2) data cols) as [t2|]; [|by destruct Hagree].
  destruct Hagree as (Hsame & Hv1 & Hv2); [done|].
  exists t2. split_and!; [done..| |].
  { intros data' cols' L. destruct Hsame as (? & ? & ?).
    apply transform_agree; [done..|]. by apply n_special_agree. }
  intros data' cols' L seqs w t Htr Hw Ht.
  destruct (fit_preserves _ _ _ _ _ Hfit) as [Hbins Hspecial].
  assert (Hsp : n_special t1 = 5) by by (unfold n_special; rewrite Hspecial).
  simpl in Hbins.
  destruct (transform_tokens _ _ _ _ _ _ _ Htr Hw Ht) as (r & bins & _ & Hb & Hne & ->).
  apply row_bins_nonneg in Hb as [Hnonneg Hlen].
  rewrite Hsp, Hbins, <- Hlen.
  by apply double_mixed_radix_bounds.
Qed.

Lemma vocab_size_unused_witness :
  ∃ t1 t2,
    fit quantile_fit (init 1000 10000) Examples.two_rows ["open"; "close"] = Some t1 ∧
    fit quantile_fit (init 1000 77) Examples.two_rows ["open"; "close"] = Some t2 ∧
    same_up_to_vocab_size t1 t2 ∧ vocab_size t1 = 10000 ∧ vocab_size t2 = 77 ∧
    (∀ data' cols' (L : Z), transform t1 data' cols' L = transform t2 data' cols' L) ∧
    (∀ data' cols' (L : Z) seqs w t,
       transform t1 data' cols' L = Some seqs → w ∈ seqs → t ∈ w →
       Double.le (Double.Finite 5) t ∧
       (1000 = 1000 → (2 ≤ length (fitted_columns t1 cols'))%nat →
        Double.le (Double.Finite 5030) t) ∧
       (1000 = 1000 → (3 ≤ length (fitted_columns t1 cols'))%nat →
        Double.lt (Double.Finite 10000) t)).
Proof.
  destruct (fit quantile_fit (init 1000 10000) Examples.two_rows ["open"; "close"])
    as [t1|] eqn:Hfit; [|by vm_compute in Hfit].
  destruct (vocab_size_unused quantile_fit 1000 10000 77 Examples.two_rows
              ["open"; "close"] t1) as (t2 & H2); [lia|exact Hfit|].
  exists t1, t2. split; [reflexivity|exact H2].
Defined.

(** With two feature columns and [n_bins = 1000] a composite token can stay
    below the default [vocab_size] of [10000]: the row that holds the least
    value of both columns gets the token [5 * 1005 + 5]. *)
Lemma two_columns_token_below_vocab_size :
  ∃ tokenizer,
    fit quantile_fit (init default_n_bins default_vocab_size) Examples.two_rows
        ["open"; "close"] = Some tokenizer ∧
    fitted_columns tokenizer ["open"; "close"] = ["open"; "close"] ∧
    transform tokenizer Examples.two_rows ["open"; "close"] 1
    = Some [[Double.Finite 5030]; [Double.Finite 1010024]] ∧
    ¬ (default_vocab_size < 5030).
Proof.
  eexists. split; [vm_compute; reflexivity|].
  split; [vm_compute; reflexivity|].
  split; [vm_compute; reflexivity|].
  unfold default_vocab_size. lia.
Qed.

End vocab_size.

(** ** Outlier removal *)

Section outliers.
Import Pandas CleanNormalizeData.
Implicit Types (data stage : DataFrame) (cols : list string) (r : Row).


Lemma remove_price_outliers_Some data col data' :
  remove_price_outliers data col = Some data' →
  ∃ series, column data col = Some series ∧
    rows data'
    = filter (within col (iqr_bounds (3 # 2) series).1 (iqr_bounds (3 # 2) series).2)
             (rows data).
Proof.
  unfold remove_price_outliers, price_bounds.
  destruct (column data col) as [series|]; [|done]. simpl.
  destruct (iqr_bounds (3 # 2) series) as [lo hi]. simpl.
  intros [= <-]. eauto.
Qed.



Lemma remove_volume_outliers_Some data data' :
  remove_volume_outliers data = Some data' →
  ∃ series, column data "volume" = Some series ∧
    rows data'
    = filter (within "volume" (Float.max0 (iqr_bounds 3 series).1)
                     (iqr_bounds 3 series).2)
             (rows data).
Proof.
  unfold remove_volume_outliers, volume_bounds.
  destruct (column data "volume") as [series|]; [|done]. simpl.
  destruct (iqr_bounds 3 series) as [lo hi]. simpl.
  intros [= <-]. eauto.
Qed.




End outliers.

Section outliers_example.
Import Pandas CleanNormalizeData Examples.


End outliers_example.

(** ** Preparing the prediction window *)

Section prediction_window.
Import Pandas KronosPredict.
Implicit Types (f data : DataFrame) (col c : string) (series : list (option Q)).

Lemma set_column_keys f col series :
  row_key <$> rows (set_column f col series) = row_key <$> rows f.
Proof.
  simpl. rewrite fmap_imap. rewrite <- imap_const. by apply imap_ext.
Qed.

Lemma set_column_length f col series :
  length (rows (set_column f col series)) = length (rows f).
Proof. simpl. apply length_imap. Qed.

Lemma set_column_columns f col series :
  col ∈ columns f → columns (set_column f col series) = columns f.
Proof. intros Hcol. simpl. by rewrite decide_True. Qed.

Lemma set_column_columns_mono f col series c :
  c ∈ columns f → c ∈ columns (set_column f col series).
Proof.
  intros Hc. simpl. case_decide; [done|]. apply elem_of_app. by left.
Qed.

Lemma set_column_columns_new f col series : col ∈ columns (set_column f col series).
Proof.
  simpl. case_decide; [done|]. apply elem_of_app. right. left.
Qed.

Lemma set_column_cell_None f col series c :
  c ≠ col →
  Forall (λ r, cell r c = None) (rows f) →
  Forall (λ r, cell r c = None) (rows (set_column f col series)).
Proof.
  intros Hne HF. apply Forall_forall. intros r' Hr'. simpl in Hr'.
  apply elem_of_lookup_imap in Hr' as (i & r & -> & Hr).
  apply list_elem_of_lookup_2 in Hr.
  apply (proj1 (Forall_forall _ _) HF) in Hr.
  unfold cell, set_cell in *. simpl.
  destruct (mjoin (series !! i)); [by rewrite lookup_insert_ne|by rewrite lookup_delete_ne].
Qed.

(** Fewer than [w] values leave the rolling mean NaN everywhere. *)
Lemma rolling_mean_warm_up (w : nat) (xs : list (option Q)) (i : nat) :
  (length xs < w)%nat → mjoin (rolling_mean w xs !! i) = None.
Proof.
  intros Hlen. unfold rolling_mean. rewrite list_lookup_imap.
  destruct (xs !! i) as [x|] eqn:Hx; [|done]. simpl.
  apply lookup_lt_Some in Hx. by rewrite decide_True by lia.
Qed.

Lemma set_column_warm_up f col (w : nat) (xs : list (option Q)) :
  (length xs < w)%nat →
  Forall (λ r, cell r col = None) (rows (set_column f col (rolling_mean w xs))).
Proof.
  intros Hlen. apply Forall_forall. intros r' Hr'. simpl in Hr'.
  apply elem_of_lookup_imap in Hr' as (i & r & -> & _).
  unfold cell, set_cell. simpl. rewrite rolling_mean_warm_up by done.
  apply lookup_delete_eq.
Qed.

Lemma set_column_keeps_NaN f col series c :
  c ≠ col →
  c ∈ columns f ∧ Forall (λ r, cell r c = None) (rows f) →
  c ∈ columns (set_column f col series) ∧
  Forall (λ r, cell r c = None) (rows (set_column f col series)).
Proof.
  intros Hne [Hc HF].
  split; [by apply set_column_columns_mono|by apply set_column_cell_None].
Qed.

Lemma dropna_NaN_column f c :
  c ∈ columns f ∧ Forall (λ r, cell r c = None) (rows f) →
  rows (dropna f) = [].
Proof.
  intros [Hc HF]. unfold dropna. cbn [rows with_rows]. apply filter_none.
  eapply Forall_impl; [exact HF|]. intros r Hr Hall. simpl in *.
  apply (proj1 (Forall_forall _ _) Hall) in Hc. rewrite Hr in Hc.
  by destruct Hc.
Qed.

(** With fewer than five rows, the indicator computation leaves no row: the
    five-row moving average is NaN in every row, and [dropna] removes them. *)
Lemma calculate_technical_indicators_warm_up ops data :
  "close" ∈ columns data → (length (rows data) < 5)%nat →
  ∃ data', calculate_technical_indicators ops data = Some data' ∧ rows data' = [].
Proof.
  intros Hclose Hlen. unfold calculate_technical_indicators, column.
  rewrite decide_True by done. cbn [mbind option_bind].
  eexists. split; [reflexivity|].
  apply (dropna_NaN_column _ "sma_5").
  repeat (apply set_column_keeps_NaN; [done|]).
  split; [apply set_column_columns_new|].
  apply set_column_warm_up. by rewrite length_fmap.
Qed.

End prediction_window.

Section prediction_window_results.
Import Pandas KronosPredict.
Implicit Types (f data : DataFrame) (col c : string) (series : list (option Q)).

Lemma apply_scalers_shape symbol_scalers available f :
  Forall (λ c, c ∈ columns f) available →
  columns (apply_scalers symbol_scalers available f) = columns f ∧
  row_key <$> rows (apply_scalers symbol_scalers available f) = row_key <$> rows f.
Proof.
  unfold apply_scalers. revert f.
  induction available as [|col available IH]; intros f Hav; simpl; [done|].
  apply Forall_cons in Hav as [Hcol Hav].
  destruct (symbol_scalers !! col) as [sc|]; [|by apply IH].
  set (f' := set_column f col _).
  assert (Hcols : columns f' = columns f) by by apply set_column_columns.
  destruct (IH f') as [IH1 IH2]; [by rewrite Hcols|].
  rewrite IH1, IH2. split; [done|]. apply set_column_keys.
Qed.

Lemma normalize_shape self available f :
  Forall (λ c, c ∈ columns f) available →
  rows f ≠ [] →
  ∃ f', normalize self available f = Some f' ∧
        columns f' = columns f ∧
        row_key <$> rows f' = row_key <$> rows f ∧
        (scalers self = None → f' = f).
Proof.
  intros Hav Hne. unfold normalize.
  destruct (scalers self) as [all_scalers|]; [|by eauto].
  case_decide; [by eauto|].
  destruct (rows f) as [|first rest] eqn:Hrows; [done|]. simpl.
  destruct (all_scalers !! symbol first) as [symbol_scalers|].
  - destruct (apply_scalers_shape symbol_scalers available f Hav) as [H1 H2].
    eexists. split; [done|]. rewrite H1, H2, Hrows. done.
  - eexists. split; [done|]. by rewrite Hrows.
Qed.

Lemma values_available f f' (cs : list string) :
  columns f' = columns f →
  values f' (filter (λ c, c ∈ columns f) cs)
  = Some (TokenizeData.feature_rows (filter (λ c, c ∈ columns f) cs) (rows f')).
Proof.
  intros Hcols. unfold values. rewrite decide_True; [done|].
  apply Forall_forall. intros c [Hc _]%list_elem_of_filter. by rewrite Hcols.
Qed.

Lemma select_recent_short data (L : Z) :
  Py.len (rows data) < L →
  select_recent data L
  = ([WarningNotEnoughData (Py.len (rows data)) L], sort_values data).
Proof.
  intros Hlen. unfold select_recent.
  assert (Hsorted : Py.len (rows (sort_values data)) = Py.len (rows data)).
  { unfold Py.len. simpl. by rewrite length_merge_sort_rows. }
  rewrite Hsorted, decide_True by done. f_equal.
  unfold tail, Py.len. destruct (Z.ltb_spec (Z.of_nat (length (rows data))) 0); [lia|].
  unfold sort_values, with_rows. simpl. f_equal.
  rewrite Nat2Z.id, length_merge_sort_rows, Nat.sub_diag. apply drop_0.
Qed.

(** The fallback to a shorter window, where it works. When the frame has
    fewer rows than the requested [sequence_length], has at least one row and
    already carries the indicator columns, [prepare_data_for_prediction] does
    not raise: it logs one warning, takes the number of rows as the sequence
    length and returns a window with one entry per row, built from all rows
    in timestamp order. Without scalers the frame it returns is the sorted
    input. *)
Theorem prepare_short_history ops self data (L : Z) :
  "sma_5" ∈ columns data →
  rows data ≠ [] →
  Py.len (rows data) < L →
  ∃ window recent_data,
    prepare_data_for_prediction ops self data L
    = ([WarningNotEnoughData (Py.len (rows data)) L],
       Some ([window], recent_data)) ∧
    length window = length (rows data) ∧
    window = TokenizeData.feature_rows
               (filter (λ c, c ∈ columns data) feature_columns) (rows recent_data) ∧
    row_key <$> rows recent_data = row_key <$> merge_sort ts_le (rows data) ∧
    (scalers self = None → recent_data = sort_values data).
Proof.
  intros Hsma Hne Hlen. unfold prepare_data_for_prediction.
  rewrite select_recent_short by done.
  change (columns (sort_values data)) with (columns data).
  rewrite decide_True by done. cbn [mbind option_bind].
  change (columns (sort_values data)) with (columns data).
  set (available := filter (λ c, c ∈ columns data) feature_columns).
  destruct (normalize_shape self available (sort_values data))
    as (recent & Hnorm & Hcols & Hkeys & Hsame).
  { apply Forall_forall. by intros c [Hc _]%list_elem_of_filter. }
  { simpl. intros Hnil. apply (f_equal length) in Hnil.
    rewrite length_merge_sort_rows in Hnil. by destruct (rows data). }
  rewrite Hnorm. cbn [mbind option_bind].
  unfold available. rewrite (values_available data recent) by done.
  cbn [mbind option_bind]. eexists _, recent. split_and!; [done| |done|done|done].
  unfold TokenizeData.feature_rows. rewrite length_fmap.
  apply (f_equal length) in Hkeys. rewrite !length_fmap in Hkeys.
  rewrite Hkeys. simpl. apply length_merge_sort_rows.
Qed.

Lemma prepare_short_history_witness :
  ∃ window recent_data,
    prepare_data_for_prediction (mkSeriesOps (λ _ xs, xs) (λ _ xs, xs)) (mkCLI None)
      Examples.three_candles_with_sma 10
    = ([WarningNotEnoughData (Py.len (rows Examples.three_candles_with_sma)) 10],
       Some ([window], recent_data)) ∧
    length window = length (rows Examples.three_candles_with_sma) ∧
    window = TokenizeData.feature_rows
               (filter (λ c, c ∈ columns Examples.three_candles_with_sma)
                       feature_columns) (rows recent_data) ∧
    row_key <$> rows recent_data
    = row_key <$> merge_sort ts_le (rows Examples.three_candles_with_sma) ∧
    (scalers (mkCLI None) = None →
     recent_data = sort_values Examples.three_candles_with_sma).
Proof.
  apply (prepare_short_history (mkSeriesOps (λ _ xs, xs) (λ _ xs, xs)) (mkCLI None)
           Examples.three_candles_with_sma 10).
  - apply (bool_decide_unpack _). vm_compute. exact I.
  - discriminate.
  - vm_compute. reflexivity.
Defined.

(** C8, at the input where the code departs from it. Three raw rows and a
    requested length of ten: the function logs that it uses three records
    instead of ten, computes the indicators itself, every row falls to
    [dropna], and the window that is returned has no row, not three. With
    scalers loaded the call raises instead, on the first row of the emptied
    frame. *)
Theorem short_history_window_loses_rows :
  Py.len (rows Examples.three_candles) < 10 ∧
  (∀ ops, ∃ recent_data,
     prepare_data_for_prediction ops (mkCLI None) Examples.three_candles 10
     = ([WarningNotEnoughData 3 10], Some ([[]], recent_data)) ∧
     rows recent_data = []) ∧
  (∀ ops,
     prepare_data_for_prediction ops (mkCLI (Some {["X" := ∅]}))
       Examples.three_candles 10
     = ([WarningNotEnoughData 3 10], None)).
Proof.
  split; [by vm_compute|].
  assert (Hcalc : ∀ ops, ∃ recent,
            calculate_technical_indicators ops (sort_values Examples.three_candles)
            = Some recent ∧ rows recent = []).
  { intros ops. apply calculate_technical_indicators_warm_up.
    - apply (bool_decide_unpack _). by vm_compute.
    - vm_compute. lia. }
  split; intros ops; destruct (Hcalc ops) as (recent & Hrecent & Hrows);
    unfold prepare_data_for_prediction;
    rewrite select_recent_short by (by vm_compute);
    change (columns (sort_values Examples.three_candles)) with Examples.ohlcv;
    rewrite decide_False by (apply (bool_decide_unpack _); by vm_compute);
    rewrite Hrecent; cbn [mbind option_bind].
  - exists recent. unfold normalize. cbn [scalers mbind option_bind].
    rewrite (values_available recent recent) by done.
    cbn [mbind option_bind]. rewrite Hrows. by split.
  - unfold normalize. cbn [scalers].
    rewrite decide_False by (apply (bool_decide_unpack _); by vm_compute).
    by rewrite Hrows.
Qed.

End prediction_window_results.

(** ** More on [fit] and [transform] *)

Section fit_facts.
Import Pandas TokenizeData.
Implicit Types (self : KronosDataTokenizer) (data : DataFrame).
Implicit Types (cols : list string) (kfit : KBinsFit).

Lemma fit_cons kfit self data col cols :
  fit kfit self data (col :: cols)
  = series ← column data col;
    d ← kfit (n_bins self) series;
    fit kfit (set_discretizer self col d) data cols.
Proof. reflexivity. Qed.

(** X1. What a successful [fit] leaves behind: [n_bins], [vocab_size] and the
    special tokens are unchanged; every listed column holds the discretizer
    the library fitted with [n_bins] on the whole column; discretizers of
    other columns are untouched; and all listed columns count as fitted. *)
Theorem fit_postcondition kfit self data cols fitted :
  fit kfit self data cols = Some fitted →
  n_bins fitted = n_bins self ∧
  vocab_size fitted = vocab_size self ∧
  special_tokens fitted = special_tokens self ∧
  (∀ col, col ∈ cols →
     ∃ series d, column data col = Some series ∧
                 kfit (n_bins self) series = Some d ∧
                 discretizers fitted !! col = Some d) ∧
  (∀ col, col ∉ cols → discretizers fitted !! col = discretizers self !! col) ∧
  fitted_columns fitted cols = cols.
Proof.
  intros Hfit.
  assert (Hmain :
    n_bins fitted = n_bins self ∧ vocab_size fitted = vocab_size self ∧
    special_tokens fitted = special_tokens self ∧
    (∀ col, col ∈ cols →
       ∃ series d, column data col = Some series ∧
                   kfit (n_bins self) series = Some d ∧
                   discretizers fitted !! col = Some d) ∧
    (∀ col, col ∉ cols → discretizers fitted !! col = discretizers self !! col)).
  { revert self Hfit. induction cols as [|c cols IH]; intros self Hfit.
    { simpl in Hfit. simplify_eq. split_and!; try done. by intros col ?%elem_of_nil. }
    rewrite fit_cons in Hfit.
    destruct (column data c) as [series|] eqn:Hseries; [|done]. simpl in Hfit.
    destruct (kfit (n_bins self) series) as [d|] eqn:Hd; [|done]. simpl in Hfit.
    destruct (IH _ Hfit) as (Hn & Hv & Hs & Hin & Hout). simpl in *.
    split_and!; [done..| |].
    - intros col Hcol. destruct (decide (col ∈ cols)) as [Hc|Hc].
      + by apply Hin.
      + apply elem_of_cons in Hcol as [->|?]; [|done].
        exists series, d. split_and!; [done..|].
        rewrite Hout by done. simpl. apply lookup_insert_eq.
    - intros col Hcol. apply not_elem_of_cons in Hcol as [Hne Hcol].
      rewrite Hout by done. simpl. by apply lookup_insert_ne. }
  destruct Hmain as (Hn & Hv & Hs & Hin & Hout). split_and!; [done..|].
  unfold fitted_columns. apply filter_all, Forall_forall.
  intros col Hcol. destruct (Hin col Hcol) as (? & d & _ & _ & ->). eauto.
Qed.

Lemma fit_postcondition_witness :
  ∃ fitted,
    fit quantile_fit (init 4 100) Examples.two_symbols ["open"; "close"] = Some fitted ∧
    n_bins fitted = 4 ∧ vocab_size fitted = 100 ∧
    fitted_columns fitted ["open"; "close"] = ["open"; "close"] ∧
    discretizers fitted !! "volume" = None.
Proof.
  destruct (fit quantile_fit (init 4 100) Examples.two_symbols ["open"; "close"])
    as [fitted|] eqn:Hfit; [|by vm_compute in Hfit].
  destruct (fit_postcondition quantile_fit (init 4 100) Examples.two_symbols
              ["open"; "close"] fitted Hfit) as (Hn & Hv & _ & _ & Hout & Hcols).
  exists fitted. split_and!; [done..|].
  rewrite Hout; [done|]. apply (bool_decide_unpack _). by vm_compute.
Defined.

(** X2. [fit] raises exactly when some listed column is missing from the frame or
    the library refuses to fit it. *)
Theorem fit_raises_iff kfit self data cols :
  fit kfit self data cols = None ↔
  Exists (λ col, ∀ series, column data col = Some series →
                           kfit (n_bins self) series = None) cols.
Proof.
  revert self. induction cols as [|c cols IH]; intros self.
  { simpl. split; [done|]. by intros ?%Exists_nil. }
  rewrite fit_cons, Exists_cons.
  destruct (column data c) as [series|] eqn:Hseries; simpl.
  - destruct (kfit (n_bins self) series) as [d|] eqn:Hd; simpl.
    + rewrite IH. simpl. split; [by right|].
      intros [Hc|?]; [|done]. specialize (Hc series eq_refl). congruence.
    + split; [|done]. intros _. left. intros ? [= <-]. done.
  - split; [|done]. intros _. by left.
Qed.

End fit_facts.

Section transform_facts.
Import Pandas TokenizeData.
Implicit Types (self : KronosDataTokenizer) (data : DataFrame).
Implicit Types (cols : list string) (s : string).

Lemma elem_of_unique (l : list string) x : x ∈ unique l ↔ x ∈ l.
Proof.
  induction l as [|y l IH]; simpl; [done|].
  rewrite !elem_of_cons, list_elem_of_filter, IH.
  destruct (decide (x = y)) as [->|Hne]; [tauto|]. tauto.
Qed.

Lemma NoDup_unique (l : list string) : NoDup (unique l).
Proof.
  induction l as [|y l IH]; simpl; [constructor|].
  apply NoDup_cons. split; [|by apply NoDup_filter].
  rewrite list_elem_of_filter. by intros [Hne _].
Qed.

Lemma elem_of_symbols data s : s ∈ symbols data ↔ ∃ r, r ∈ rows data ∧ symbol r = s.
Proof.
  unfold symbols. rewrite elem_of_unique, list_elem_of_fmap.
  split; intros (r & H1 & H2); exists r; by split.
Qed.

Lemma symbols_nil data : symbols data = [] ↔ rows data = [].
Proof.
  unfold symbols. destruct (rows data) as [|r rs]; simpl; [done|]. split; discriminate.
Qed.

Lemma elem_of_symbol_frame data s r :
  r ∈ rows (symbol_frame data s) ↔ r ∈ rows data ∧ symbol r = s.
Proof. rewrite symbol_frame_perm, list_elem_of_filter. tauto. Qed.

Lemma split_sequences_is_Some {A} (combined : list A) (L : Z) :
  is_Some (split_sequences combined L) ↔ L ≠ 0.
Proof.
  unfold split_sequences, Py.range.
  destruct (Z.eqb_spec L 0) as [->|HL].
  - split; [by intros [? ?]|done].
  - split; [done|]. intros _. eauto.
Qed.

Lemma row_token_is_Some self cols r :
  is_Some (row_token self cols r) ↔
  Forall (λ col, is_Some (cell r col)) (fitted_columns self cols).
Proof.
  unfold row_token, row_bins. rewrite fmap_is_Some, mapM_is_Some, !Forall_forall.
  split; intros H col Hcol; specialize (H col Hcol); simpl in *;
    destruct (fitted_columns_lookup _ _ _ Hcol) as [d Hd]; rewrite Hd in *;
    simpl in *; destruct (cell r col); simpl in *; eauto; by destruct H.
Qed.

End transform_facts.

Section transform_theorems.
Import Pandas TokenizeData.
Implicit Types (self : KronosDataTokenizer) (data : DataFrame).
Implicit Types (cols : list string) (s : string).

Lemma symbol_tokens_is_Some_iff self data cols s :
  s ∈ symbols data →
  is_Some (symbol_tokens self data cols s) ↔
  fitted_columns self cols ≠ [] ∧
  Forall (λ col, col ∈ columns data) (fitted_columns self cols) ∧
  Forall (λ r, symbol r = s → Forall (λ col, is_Some (cell r col))
                                     (fitted_columns self cols)) (rows data).
Proof.
  intros Hs. split.
  - intros [toks (Hne & Hcols & Hrows)%symbol_tokens_row_tokens].
    split_and!; [done..|]. apply Forall_forall. intros r Hr Hsym.
    apply row_token_is_Some.
    assert (is_Some (mapM (row_token self cols) (rows (symbol_frame data s))))
      as Hall%mapM_is_Some_1 by eauto.
    apply (proj1 (Forall_forall _ _) Hall r). by apply elem_of_symbol_frame.
  - intros (Hne & Hcols & Hrows).
    destruct (mapM_is_Some_2 (row_token self cols) (rows (symbol_frame data s)))
      as [toks Htoks].
    { apply Forall_forall. intros r [Hr Hsym]%elem_of_symbol_frame. simpl.
      apply row_token_is_Some. by apply (proj1 (Forall_forall _ _) Hrows r). }
    by eapply symbol_tokens_is_Some.
Qed.

(** X3. [transform] returns (does not raise) exactly in two cases: the frame has
    no rows, or the sequence length is not zero, at least one feature column
    is fitted, every fitted column is a column of the frame, and no row has a
    NaN in a fitted column. *)
Theorem transform_returns_iff self data cols (L : Z) :
  is_Some (transform self data cols L) ↔
  rows data = [] ∨
  (L ≠ 0 ∧
   fitted_columns self cols ≠ [] ∧
   Forall (λ col, col ∈ columns data) (fitted_columns self cols) ∧
   Forall (λ r, Forall (λ col, is_Some (cell r col)) (fitted_columns self cols))
          (rows data)).
Proof.
  unfold transform.
  assert (Hbind : ∀ o : option (list (list (list Double.t))),
            is_Some (o ≫= λ token_sequences, Some (concat token_sequences))
            ↔ is_Some o).
  { intros [x|]; simpl; split; eauto; by intros [? ?]. }
  rewrite Hbind, mapM_is_Some, Forall_forall. split.
  - intros Hall. destruct (rows data) as [|r0 rs] eqn:Hrows; [by left|right].
    assert (Hsome : ∀ r, r ∈ rows data →
              L ≠ 0 ∧ is_Some (symbol_tokens self data cols (symbol r))).
    { intros r Hr.
      assert (Hs : symbol r ∈ symbols data) by (apply elem_of_symbols; eauto).
      specialize (Hall _ Hs). simpl in Hall. unfold symbol_sequences in Hall.
      destruct (symbol_tokens self data cols (symbol r)) as [toks|]; simpl in Hall;
        [|by destruct Hall].
      split; [by eapply split_sequences_is_Some|eauto]. }
    assert (Hr0 : r0 ∈ rows data) by (rewrite Hrows; left).
    destruct (Hsome r0 Hr0) as [HL Htok0].
    apply symbol_tokens_is_Some_iff in Htok0 as (Hne & Hcols & _);
      [|apply elem_of_symbols; eauto].
    split_and!; [done..|]. rewrite <- Hrows. apply Forall_forall. intros r Hr.
    destruct (Hsome r Hr) as [_ Htok].
    apply symbol_tokens_is_Some_iff in Htok as (_ & _ & Hcells);
      [|apply elem_of_symbols; eauto].
    by apply (proj1 (Forall_forall _ _) Hcells r).
  - intros [Hnil|(HL & Hne & Hcols & Hcells)] s Hs.
    { apply symbols_nil in Hnil. rewrite Hnil in Hs. by apply elem_of_nil in Hs. }
    simpl. unfold symbol_sequences.
    destruct (proj2 (symbol_tokens_is_Some_iff self data cols s Hs)) as [toks ->].
    { split_and!; [done..|]. eapply Forall_impl; [exact Hcells|]. by intros r Hr _. }
    simpl. by apply split_sequences_is_Some.
Qed.

End transform_theorems.

Section window_count.
Import Pandas TokenizeData.
Implicit Types (self : KronosDataTokenizer) (data : DataFrame).
Implicit Types (cols : list string) (s : string).

(** The rows of a frame split by symbol. *)
Lemma symbol_counts_total (ks : list string) (l : list Row) :
  NoDup ks → Forall (λ r, symbol r ∈ ks) l →
  sum_list ((λ s, length (filter (λ r, symbol r = s) l)) <$> ks) = length l.
Proof.
  revert l. induction ks as [|k ks IH]; intros l Hnd Hl.
  { destruct l as [|r l]; [done|]. apply Forall_cons in Hl as [Hr _].
    by apply elem_of_nil in Hr. }
  apply NoDup_cons in Hnd as [Hk Hnd]. simpl.
  pose proof (filter_app_complement (λ r, symbol r = k) l) as Hperm.
  apply Permutation_length in Hperm. rewrite length_app in Hperm.
  rewrite <- Hperm. f_equal.
  rewrite <- (IH (filter (λ r, ¬ symbol r = k) l)); [|done|].
  - f_equal. apply list_fmap_ext. intros _ s Hs%list_elem_of_lookup_2. simpl.
    rewrite list_filter_filter. f_equal. apply list_filter_iff.
    intros r. split; [|tauto]. intros ->. split; [done|]. by intros ->.
  - apply Forall_forall. intros r [Hne Hr]%list_elem_of_filter.
    apply (proj1 (Forall_forall _ _) Hl) in Hr.
    apply elem_of_cons in Hr as [?|?]; done.
Qed.

Lemma symbol_rows_total data :
  sum_list ((λ s, length (filter (λ r, symbol r = s) (rows data))) <$> symbols data)
  = length (rows data).
Proof.
  apply symbol_counts_total; [apply NoDup_unique|].
  apply Forall_forall. intros r Hr. apply elem_of_symbols. eauto.
Qed.

Lemma length_symbol_frame data s :
  length (rows (symbol_frame data s))
  = length (filter (λ r, symbol r = s) (rows data)).
Proof. apply Permutation_length, symbol_frame_perm. Qed.

Lemma length_concat_full_windows {A} (l : nat) (per_symbol : list (list A)) :
  length (concat (full_windows l <$> per_symbol))
  = sum_list ((λ toks, length toks `div` l)%nat <$> per_symbol).
Proof.
  induction per_symbol as [|toks per IH]; [done|].
  rewrite !fmap_cons. cbn [concat sum_list_with].
  by rewrite length_app, length_full_windows, IH.
Qed.

Lemma length_concat_uniform {A} (l : nat) (ws : list (list A)) :
  Forall (λ w, length w = l) ws → length (concat ws) = (length ws * l)%nat.
Proof.
  induction 1 as [|w ws Hw _ IH]; simpl; [done|]. rewrite length_app, IH, Hw. lia.
Qed.

Lemma sum_list_div_mul_le {A} (f : A → nat) (l : nat) (ks : list A) :
  (sum_list ((λ k, f k `div` l) <$> ks) * l ≤ sum_list (f <$> ks))%nat.
Proof.
  induction ks as [|k ks IH]; [done|].
  rewrite !fmap_cons. cbn [sum_list_with]. unfold id at 1 3.
  pose proof (Nat.Div0.mul_div_le (f k) l). lia.
Qed.

(** X4. For a positive [sequence_length] [L], [transform] emits
    [len(rows of s) // L] windows for every symbol [s]; the windows hold [L]
    tokens each, so never more tokens than the frame has rows, and a symbol
    with fewer than [L] rows contributes nothing. *)
Theorem transform_window_count self data cols (L : Z) seqs :
  0 < L →
  transform self data cols L = Some seqs →
  length seqs
  = sum_list ((λ s, length (filter (λ r, symbol r = s) (rows data))
                      `div` Z.to_nat L)%nat <$> symbols data) ∧
  length (concat seqs) = (length seqs * Z.to_nat L)%nat ∧
  (length (concat seqs) ≤ length (rows data))%nat.
Proof.
  intros HL Htr.
  destruct (transform_per_symbol _ _ _ _ _ HL Htr) as (per_symbol & Hper & ->).
  clear Htr. set (l := Z.to_nat L). assert (Hl : (0 < l)%nat) by lia.
  assert (Hcount :
    sum_list ((λ toks, length toks `div` l)%nat <$> per_symbol)
    = sum_list ((λ s, length (filter (λ r, symbol r = s) (rows data)) `div` l)%nat
                  <$> symbols data)).
  { apply mapM_Some_1 in Hper. induction Hper as [|s toks syms per Hs _ IH]; [done|].
    rewrite !fmap_cons. cbn [sum_list_with]. rewrite IH. f_equal. unfold id.
    apply symbol_tokens_row_tokens in Hs as (_ & _ & Hs).
    apply mapM_Some_1, Forall2_length in Hs.
    by rewrite <- Hs, length_symbol_frame. }
  assert (Huniform : Forall (λ w : list Double.t, length w = l)
                            (concat (full_windows l <$> per_symbol))).
  { apply Forall_forall. intros w (ws & Hw & Hws)%elem_of_concat.
    apply list_elem_of_fmap in Hws as (toks & -> & _).
    by apply (proj1 (Forall_forall _ _) (full_windows_window_length l toks Hl)). }
  split_and!.
  - by rewrite length_concat_full_windows.
  - by apply length_concat_uniform.
  - rewrite (length_concat_uniform l) by done.
    rewrite length_concat_full_windows, Hcount, <- symbol_rows_total.
    apply (sum_list_div_mul_le
             (λ s, length (filter (λ r, symbol r = s) (rows data)))).
Qed.

Lemma transform_window_count_witness :
  length [[Double.Finite 51; Double.Finite 79];
          [Double.Finite 71; Double.Finite 71]]
  = sum_list ((λ s, length (filter (λ r, symbol r = s) (rows Examples.two_symbols))
                      `div` Z.to_nat 2)%nat <$> symbols Examples.two_symbols) ∧
  length (concat [[Double.Finite 51; Double.Finite 79];
                  [Double.Finite 71; Double.Finite 71]])
  = (length [[Double.Finite 51; Double.Finite 79];
             [Double.Finite 71; Double.Finite 71]] * Z.to_nat 2)%nat ∧
  (length (concat [[Double.Finite 51; Double.Finite 79];
                   [Double.Finite 71; Double.Finite 71]])
   ≤ length (rows Examples.two_symbols))%nat.
Proof.
  apply (transform_window_count Examples.coarse_tokenizer Examples.two_symbols
           ["open"; "close"] 2 [[Double.Finite 51; Double.Finite 79]; [Double.Finite 71; Double.Finite 71]]).
  - lia.
  - vm_compute. reflexivity.
Defined.

End window_count.

Section token_injective.
Import Pandas TokenizeData.
Implicit Types (self : KronosDataTokenizer) (cols : list string) (r : Row).

Lemma mixed_radix_inj radix offset (bins1 bins2 : list Z) :
  length bins1 = length bins2 →
  Forall (λ b, 0 <= b + offset < radix) bins1 →
  Forall (λ b, 0 <= b + offset < radix) bins2 →
  mixed_radix radix offset bins1 = mixed_radix radix offset bins2 →
  bins1 = bins2.
Proof.
  revert bins2. induction bins1 as [|b1 bins1 IH] using rev_ind; intros bins2.
  { destruct bins2; [done|discriminate]. }
  destruct bins2 as [|b2 bins2 _] using rev_ind.
  { rewrite length_app. simpl. lia. }
  rewrite !length_app, !Forall_app, !Forall_singleton, !mixed_radix_snoc. simpl.
  intros Hlen [H1 Hb1] [H2 Hb2] Heq.
  assert (Hm : mixed_radix radix offset bins1 = mixed_radix radix offset bins2) by nia.
  rewrite (IH bins2); [|lia|done..]. f_equal. f_equal. nia.
Qed.

Lemma ordinal_bin_upper (d : KBinsDiscretizer) x (n : Z) :
  0 < n → Py.len (bin_edges d) <= n + 1 → ordinal_bin d x <= n - 1.
Proof.
  intros Hn Hlen. unfold ordinal_bin, searchsorted_right, Py.len in *.
  pose proof (length_filter (λ e, (e <= x)%Q) (Py.slice (bin_edges d) 1 (-1))) as Hf.
  assert (length (Py.slice (bin_edges d) 1 (-1)) ≤ length (bin_edges d) - 2)%nat;
    [|lia].
  unfold Py.slice, Py.clamp_index. simpl.
  rewrite length_take, length_drop. lia.
Qed.

Lemma mixed_radix_lt_power radix offset (bins : list Z) :
  0 < radix →
  Forall (λ b, 0 <= b + offset < radix) bins →
  0 <= mixed_radix radix offset bins < radix ^ Py.len bins.
Proof.
  intros Hr. unfold Py.len.
  induction bins as [|b bins IH] using rev_ind; intros Hb; [by vm_compute|].
  apply Forall_app in Hb as [Hbins [Hb _]%Forall_cons].
  rewrite mixed_radix_snoc, length_app. simpl.
  replace (Z.of_nat (length bins + 1)) with (Z.succ (Z.of_nat (length bins))) by lia.
  rewrite Z.pow_succ_r by lia. specialize (IH Hbins). nia.
Qed.

Lemma digit_exact (b offset : Z) :
  0 <= b → 0 <= offset → b + offset < 2 ^ 53 →
  Double.add (Double.of_int b) (Double.of_int offset) = Double.Finite (b + offset).
Proof.
  intros Hb Ho Hsum. unfold Double.of_int. rewrite !round_exact by lia.
  simpl. by rewrite round_exact by lia.
Qed.

(** As long as [radix ^ len(bins)] stays below [2^53] no operation rounds,
    and the doubles hold the mixed-radix number itself. *)
Lemma double_mixed_radix_exact radix offset (bins : list Z) :
  0 < radix → 0 <= offset →
  Forall (λ b, 0 <= b ∧ b + offset < radix) bins →
  radix ^ Py.len bins < 2 ^ 53 →
  double_mixed_radix radix offset bins
  = Double.Finite (mixed_radix radix offset bins).
Proof.
  intros Hr Ho Hbins Hsmall. unfold double_mixed_radix.
  destruct (decide (bins = [])) as [->|Hne]; [by vm_compute|].
  assert (Hfold :
    foldl (λ token bin,
             combine_step radix token
               (Double.add (Double.of_int bin) (Double.of_int offset)))
          None bins
    = Some (Double.Finite (mixed_radix radix offset bins))); [|by rewrite Hfold].
  revert Hbins Hsmall Hne. unfold Py.len.
  induction bins as [|b bins IH] using rev_ind; intros Hbins Hsmall Hne0; [done|].
  clear Hne0.
  apply Forall_app in Hbins as [Hbins [[Hb0 Hb] _]%Forall_cons].
  rewrite length_app in Hsmall. simpl in Hsmall.
  replace (Z.of_nat (length bins + 1)) with (Z.succ (Z.of_nat (length bins)))
    in Hsmall by lia.
  rewrite Z.pow_succ_r in Hsmall by lia.
  assert (Hpow : 1 <= radix ^ Z.of_nat (length bins))
    by (apply (Z.pow_le_mono_r radix 0); lia).
  rewrite foldl_app, mixed_radix_snoc. cbn [foldl].
  rewrite digit_exact by nia.
  destruct (decide (bins = [])) as [->|Hne].
  { cbn [foldl]. unfold combine_step. rewrite Z.mul_0_l. unfold Double.of_int.
    rewrite round_exact by lia. cbn [Double.add]. rewrite round_exact by nia.
    unfold mixed_radix. cbn [foldl]. do 2 f_equal. }
  rewrite IH; [|done|nia|done]. unfold combine_step.
  pose proof (mixed_radix_lt_power radix offset bins Hr) as HM.
  unfold Py.len in HM. destruct HM as [HM0 HM].
  { eapply Forall_impl; [exact Hbins|]. intros b' [? ?]. cbn beta. lia. }
  unfold Double.of_int. rewrite round_exact by nia.
  cbn [Double.mul]. rewrite round_exact by nia.
  cbn [Double.add]. by rewrite round_exact by nia.
Qed.

(** X5. With a positive [n_bins], discretizers of at most [n_bins] bins each
    (at most [n_bins + 1] edges, as the fit produces them) and a number [m]
    of fitted columns small enough for [(n_bins + len(special_tokens)) ^ m]
    to stay below [2^53] (up to five columns with [n_bins = 1000]), the
    doubles hold the composite token exactly and the token determines the
    bin of every fitted column: two rows get the same token only if they
    fall into the same bins. *)
Theorem composite_token_identifies_bins self cols r1 r2 (t : Double.t) :
  0 < n_bins self →
  (n_bins self + n_special self) ^ Py.len (fitted_columns self cols) < 2 ^ 53 →
  (∀ col d, discretizers self !! col = Some d →
            Py.len (bin_edges d) <= n_bins self + 1) →
  row_token self cols r1 = Some t →
  row_token self cols r2 = Some t →
  row_bins self cols r1 = row_bins self cols r2.
Proof.
  intros Hn Hsmall Hedges H1 H2. unfold row_token in *.
  destruct (row_bins self cols r1) as [bins1|] eqn:Hb1; [|done].
  destruct (row_bins self cols r2) as [bins2|] eqn:Hb2; [|done].
  f_equal.
  assert (Hdigits : ∀ r bins, row_bins self cols r = Some bins →
            Forall (λ b, 0 <= b ∧ b + n_special self < n_bins self + n_special self)
                   bins).
  { intros r bins Hb%row_bins_Some. apply Forall_forall.
    intros b [k Hk]%list_elem_of_lookup.
    destruct (Forall2_lookup_r _ _ _ _ _ Hb Hk) as (col & _ & d & x & Hd & _ & ->).
    pose proof (ordinal_bin_nonneg d x).
    pose proof (ordinal_bin_upper d x (n_bins self) Hn (Hedges _ _ Hd)).
    lia. }
  assert (Hsp : 0 <= n_special self) by (unfold n_special; lia).
  pose proof (row_bins_nonneg _ _ _ _ Hb1) as [_ Hlen1].
  pose proof (row_bins_nonneg _ _ _ _ Hb2) as [_ Hlen2].
  cbn [fmap option_fmap option_map] in H1, H2.
  rewrite double_mixed_radix_exact in H1, H2
    by (try (by eapply Hdigits); unfold Py.len in *; rewrite ?Hlen1, ?Hlen2; lia).
  eapply (mixed_radix_inj (n_bins self + n_special self) (n_special self));
    [congruence| | |congruence].
  - eapply Forall_impl; [by eapply Hdigits|]. intros b [? ?]. cbn beta. lia.
  - eapply Forall_impl; [by eapply Hdigits|]. intros b [? ?]. cbn beta. lia.
Qed.

Lemma composite_token_identifies_bins_witness :
  row_bins Examples.coarse_tokenizer ["open"; "close"] (Examples.bar "X" 2 9 2)
  = row_bins Examples.coarse_tokenizer ["open"; "close"] (Examples.bar "Y" 7 4 (5 # 2)).
Proof.
  apply (composite_token_identifies_bins Examples.coarse_tokenizer ["open"; "close"]
           (Examples.bar "X" 2 9 2) (Examples.bar "Y" 7 4 (5 # 2))
           (Double.Finite 79)).
  - reflexivity.
  - vm_compute. reflexivity.
  - intros col d Hd. unfold Examples.coarse_tokenizer in Hd. simpl in Hd.
    apply lookup_insert_Some in Hd as [[_ <-]|[_ Hd]]; [by vm_compute|].
    apply lookup_insert_Some in Hd as [[_ <-]|[_ Hd]]; [by vm_compute|].
    by rewrite lookup_empty in Hd.
  - vm_compute. reflexivity.
  - vm_compute. reflexivity.
Defined.

End token_injective.

(** ** More on the training windows *)

Section training_windows.
Import Pandas TokenizeData.
Implicit Types (data : DataFrame) (s : string) (cols : list string).

Lemma range_up_elem (stop step : Z) starts i :
  0 < step → Py.range 0 stop step = Some starts → i ∈ starts →
  0 <= i < stop ∧ ∃ k : nat, i = Z.of_nat k * step.
Proof.
  intros Hstep Hrange Hi. rewrite range_up in Hrange by done. simplify_eq.
  apply list_elem_of_fmap in Hi as (k & -> & Hk). apply elem_of_seq in Hk as [_ Hk].
  split; [|eauto]. destruct (Z.ltb_spec 0 stop); [|simpl in Hk; lia].
  assert (Z.of_nat k <= (stop - 1) `div` step) by lia.
  assert (step * ((stop - 1) `div` step) <= stop - 1)
    by (apply Z.mul_div_le; lia).
  nia.
Qed.

(** A relation that holds for every pair of windows the loop cuts holds
    between the two lists it returns. *)
Lemma symbols_loop_Forall2
    (R : list (list (option Q)) → list (list (option Q)) → Prop)
    data cols (L P S : Z) syms acc res :
  (∀ s starts i,
     s ∈ syms →
     Py.range 0 (Py.len (feature_rows cols (rows (symbol_frame data s))) - L - P) S
     = Some starts →
     i ∈ starts →
     R (Py.slice (feature_rows cols (rows (symbol_frame data s))) i (i + L))
       (Py.slice (feature_rows cols (rows (symbol_frame data s))) (i + L) (i + L + P))) →
  Forall2 R acc.1 acc.2 →
  symbols_loop data cols L P S syms acc = Some res →
  Forall2 R res.1 res.2.
Proof.
  revert acc. induction syms as [|s syms IH]; intros acc HR Hacc Hloop; simpl in Hloop.
  { by simplify_eq. }
  destruct (values _ _) as [features|] eqn:Hval; [|done]. simpl in Hloop.
  destruct (sliding_windows _ _ _ _ _) as [acc'|] eqn:Hwin; [|done]. simpl in Hloop.
  apply (IH acc'); [|  |done].
  { intros s' starts i Hs'. apply HR. by right. }
  apply values_Some in Hval as [_ ->].
  apply sliding_windows_Some in Hwin as (starts & Hstarts & ->). simpl.
  apply Forall2_app; [done|].
  apply Forall2_fmap, Forall_Forall2_diag, Forall_forall. intros i Hi. simpl.
  apply (HR s starts i); [left|done..].
Qed.

(** X6. With a positive window length and stride, every input window has exactly
    [sequence_length] rows and every target window exactly
    [prediction_length] rows of [len(feature_columns)] values each, and the
    target rows are the rows that follow the input rows directly: together
    they are one run of consecutive rows of one symbol. *)
Theorem create_sequences_shapes data cols (L P S : Z) inputs targets :
  0 < L → 0 <= P → 0 < S →
  create_sequences_for_training data cols L P S = Some (inputs, targets) →
  Forall2 (λ inp tgt,
             Py.len inp = L ∧ Py.len tgt = P ∧
             Forall (λ row, length row = length cols) (inp ++ tgt) ∧
             ∃ s run, single_symbol_run data s run ∧
                      inp ++ tgt = feature_rows cols run)
          inputs targets.
Proof.
  intros HL HP HS Hcs%create_sequences_loop.
  apply (symbols_loop_Forall2 _ data cols L P S (symbols data) ([], [])
           (inputs, targets)); [|constructor|done].
  intros s starts i _ Hstarts Hi.
  destruct (range_up_elem _ _ _ _ HS Hstarts Hi) as [[Hi0 Hi1] _].
  set (F := feature_rows cols (rows (symbol_frame data s))) in *.
  unfold Py.len in *.
  rewrite !slice_nonneg by lia.
  replace (Z.to_nat (i + L) - Z.to_nat i)%nat with (Z.to_nat L) by lia.
  replace (Z.to_nat (i + L + P) - Z.to_nat (i + L))%nat with (Z.to_nat P) by lia.
  replace (Z.to_nat (i + L)) with (Z.to_nat i + Z.to_nat L)%nat by lia.
  split_and!.
  - rewrite length_take, length_drop. lia.
  - rewrite length_take, length_drop. lia.
  - rewrite <- drop_drop, take_take_drop. apply Forall_take, Forall_drop.
    unfold F, feature_rows. apply Forall_fmap, Forall_forall.
    intros r _. simpl. by rewrite length_fmap.
  - rewrite <- drop_drop, take_take_drop. unfold F, feature_rows.
    rewrite <- fmap_drop, <- fmap_take.
    exists s, (take (Z.to_nat L + Z.to_nat P) (drop (Z.to_nat i) (rows (symbol_frame data s)))).
    split; [|done].
    apply (segment_single_symbol_run data s
             (take (Z.to_nat i) (rows (symbol_frame data s))) _
             (drop (Z.to_nat L + Z.to_nat P) (drop (Z.to_nat i) (rows (symbol_frame data s))))).
    by rewrite !take_drop.
Qed.

End training_windows.

Section training_windows_more.
Import Pandas TokenizeData.
Implicit Types (data : DataFrame) (s : string) (cols : list string).

Lemma create_sequences_shapes_witness :
  Forall2 (λ inp tgt,
             Py.len inp = 1 ∧ Py.len tgt = 1 ∧
             Forall (λ row, length row = length ["open"]) (inp ++ tgt) ∧
             ∃ s run, single_symbol_run Examples.two_symbols s run ∧
                      inp ++ tgt = feature_rows ["open"] run)
          [[[Some 0%Q]]] [[[Some 9%Q]]].
Proof.
  apply (create_sequences_shapes Examples.two_symbols ["open"] 1 1 1).
  - lia.
  - lia.
  - lia.
  - vm_compute. reflexivity.
Defined.

(** X7. On a frame of one symbol the windows are cut at the multiples of the
    stride: the [k]-th input window is rows [k*S, k*S + L) and the [k]-th
    target window rows [k*S + L, k*S + L + P) of the rows in timestamp order,
    for every [k] with [k*S < K - L - P]. *)
Theorem single_symbol_windows data cols s (L P S : Z) :
  rows data ≠ [] →
  Forall (λ r, symbol r = s) (rows data) →
  Forall (λ c, c ∈ columns data) cols →
  0 <= L → 0 <= P → 0 < S →
  create_sequences_for_training data cols L P S
  = Some ((λ k : nat, take (Z.to_nat L)
                        (drop (k * Z.to_nat S)
                           (feature_rows cols (merge_sort ts_le (rows data)))))
            <$> seq 0 (Z.to_nat (if decide (L + P < Py.len (rows data))
                                 then (Py.len (rows data) - L - P - 1) `div` S + 1
                                 else 0)),
          (λ k : nat, take (Z.to_nat P)
                        (drop (k * Z.to_nat S + Z.to_nat L)
                           (feature_rows cols (merge_sort ts_le (rows data)))))
            <$> seq 0 (Z.to_nat (if decide (L + P < Py.len (rows data))
                                 then (Py.len (rows data) - L - P - 1) `div` S + 1
                                 else 0))).
Proof.
  intros Hne Hs Hcols HL HP HS.
  assert (HlenF : Py.len (feature_rows cols (merge_sort ts_le (rows data)))
                  = Py.len (rows data)).
  { unfold Py.len, feature_rows. by rewrite length_fmap, length_merge_sort_rows. }
  apply (create_sequences_uniform _ _ _ _ _ _ _ (Z.to_nat L) (Z.to_nat P)).
  - by apply (single_symbol_loop data cols s).
  - apply Forall_fmap, Forall_forall. intros k Hk.
    by apply (single_symbol_windows_full _ _ L P S k HlenF).
  - apply Forall_fmap, Forall_forall. intros k Hk.
    by apply (single_symbol_windows_full _ _ L P S k HlenF).
Qed.

Lemma single_symbol_windows_witness :
  create_sequences_for_training Examples.three_rows ["close"] 1 1 1
  = Some ((λ k : nat, take (Z.to_nat 1)
                        (drop (k * Z.to_nat 1)
                           (feature_rows ["close"]
                              (merge_sort ts_le (rows Examples.three_rows)))))
            <$> seq 0 (Z.to_nat (if decide (1 + 1 < Py.len (rows Examples.three_rows))
                                 then (Py.len (rows Examples.three_rows) - 1 - 1 - 1)
                                        `div` 1 + 1
                                 else 0)),
          (λ k : nat, take (Z.to_nat 1)
                        (drop (k * Z.to_nat 1 + Z.to_nat 1)
                           (feature_rows ["close"]
                              (merge_sort ts_le (rows Examples.three_rows)))))
            <$> seq 0 (Z.to_nat (if decide (1 + 1 < Py.len (rows Examples.three_rows))
                                 then (Py.len (rows Examples.three_rows) - 1 - 1 - 1)
                                        `div` 1 + 1
                                 else 0))).
Proof.
  apply (single_symbol_windows Examples.three_rows ["close"] "X" 1 1 1).
  - discriminate.
  - apply (bool_decide_unpack _). vm_compute. exact I.
  - apply (bool_decide_unpack _). vm_compute. exact I.
  - lia.
  - lia.
  - lia.
Defined.




End training_windows_more.

(** ** More on [clean_data] *)

Section clean_data_facts.
Import Pandas CleanNormalizeData.
Implicit Types (data stage : DataFrame) (cols : list string) (r : Row) (s : string).

Lemma column_is_Some data col : is_Some (column data col) ↔ col ∈ columns data.
Proof.
  unfold column. case_decide; split; eauto; [by intros [? ?]|done].
Qed.

Lemma remove_price_outliers_columns data col data' :
  remove_price_outliers data col = Some data' → columns data' = columns data.
Proof.
  unfold remove_price_outliers, price_bounds.
  destruct (column data col) as [series|]; [|done]. simpl.
  destruct (iqr_bounds (3 # 2) series). simpl. by intros [= <-].
Qed.

Lemma remove_price_outliers_is_Some data col :
  is_Some (remove_price_outliers data col) ↔ col ∈ columns data.
Proof.
  rewrite <- column_is_Some. unfold remove_price_outliers, price_bounds.
  destruct (column data col) as [series|]; simpl.
  - destruct (iqr_bounds (3 # 2) series). simpl. split; eauto.
  - split; by intros [? ?].
Qed.

Lemma price_filter_columns cols data data' :
  price_filter cols data = Some data' → columns data' = columns data.
Proof.
  revert data. induction cols as [|col cols IH]; intros data Hf; simpl in Hf.
  { by simplify_eq. }
  destruct (remove_price_outliers data col) as [data1|] eqn:H1; [|done].
  simpl in Hf. rewrite (IH _ Hf). by eapply remove_price_outliers_columns.
Qed.

Lemma price_filter_is_Some cols data :
  is_Some (price_filter cols data) ↔ Forall (λ c, c ∈ columns data) cols.
Proof.
  revert data. induction cols as [|col cols IH]; intros data; simpl.
  { split; [constructor|eauto]. }
  rewrite Forall_cons, <- remove_price_outliers_is_Some.
  destruct (remove_price_outliers data col) as [data1|] eqn:H1; simpl.
  - rewrite IH, (remove_price_outliers_columns _ _ _ H1). split; [|tauto].
    intros ?. split; [eauto|done].
  - split; [by intros [? ?]|by intros [[? ?] _]].
Qed.

Lemma remove_volume_outliers_is_Some data :
  is_Some (remove_volume_outliers data) ↔ "volume" ∈ columns data.
Proof.
  rewrite <- column_is_Some. unfold remove_volume_outliers, volume_bounds.
  destruct (column data "volume") as [series|]; simpl.
  - destruct (iqr_bounds 3 series). simpl. split; eauto.
  - split; by intros [? ?].
Qed.

Lemma remove_volume_outliers_columns data data' :
  remove_volume_outliers data = Some data' → columns data' = columns data.
Proof.
  unfold remove_volume_outliers, volume_bounds.
  destruct (column data "volume") as [series|]; [|done]. simpl.
  destruct (iqr_bounds 3 series). simpl. by intros [= <-].
Qed.

Lemma clean_symbol_is_Some data s :
  is_Some (clean_symbol data s) ↔
  Forall (λ c, c ∈ columns data) ["open"; "high"; "low"; "close"; "volume"].
Proof.
  unfold clean_symbol.
  change ["open"; "high"; "low"; "close"; "volume"] with (price_columns ++ ["volume"]).
  rewrite Forall_app, Forall_singleton.
  change (columns data) with (columns (of_symbol data s)).
  rewrite <- price_filter_is_Some.
  destruct (price_filter price_columns (of_symbol data s)) as [priced|] eqn:Hp; simpl.
  - rewrite remove_volume_outliers_is_Some, (price_filter_columns _ _ _ Hp).
    split; [|tauto]. intros ?. split; [eauto|done].
  - split; [by intros [? ?]|by intros [[? ?] _]].
Qed.

(** X9. The three outcomes of [clean_data]. It returns [None] exactly when no row
    is free of NaN; otherwise it raises exactly when one of the columns
    [open], [high], [low], [close], [volume] is missing, and else returns a
    frame. *)
Theorem clean_data_outcomes data :
  (clean_data data = Some None ↔ rows (dropna data) = []) ∧
  (clean_data data = None ↔
   rows (dropna data) ≠ [] ∧
   ¬ Forall (λ c, c ∈ columns data) ["open"; "high"; "low"; "close"; "volume"]) ∧
  ((∃ cleaned, clean_data data = Some (Some cleaned)) ↔
   rows (dropna data) ≠ [] ∧
   Forall (λ c, c ∈ columns data) ["open"; "high"; "low"; "close"; "volume"]).
Proof.
  unfold clean_data.
  destruct (rows (dropna data)) as [|r0 rs] eqn:Hrows.
  { apply symbols_nil in Hrows. rewrite Hrows. simpl. split_and!.
    - done.
    - split; [done|]. by intros [? _].
    - split; [by intros [? ?]|]. by intros [? _]. }
  assert (Hsyms : symbols (dropna data) ≠ []).
  { intros Hnil%symbols_nil. congruence. }
  destruct (decide (Forall (λ c, c ∈ columns data)
                           ["open"; "high"; "low"; "close"; "volume"])) as [Hc|Hc].
  - destruct (mapM_is_Some_2 (clean_symbol (dropna data)) (symbols (dropna data)))
      as [frames Hframes].
    { apply Forall_forall. intros s _. simpl. by apply clean_symbol_is_Some. }
    rewrite Hframes. simpl.
    assert (frames ≠ []).
    { apply mapM_Some_1, Forall2_length in Hframes.
      destruct frames; [|done]. by destruct (symbols (dropna data)). }
    destruct frames as [|f frames]; [done|]. split_and!.
    + split; discriminate.
    + split; [discriminate|]. by intros [_ ?].
    + split; [done|]. eauto.
  - assert (Hnone : mapM (clean_symbol (dropna data)) (symbols (dropna data)) = None).
    { apply mapM_None_2.
      destruct (symbols (dropna data)) as [|s syms]; [done|]. left.
      apply eq_None_not_Some. by rewrite clean_symbol_is_Some. }
    rewrite Hnone. simpl. split_and!.
    + split; discriminate.
    + split; done.
    + split; [by intros [? ?]|]. by intros [_ ?].
Qed.

End clean_data_facts.

Section clean_data_rows_facts.
Import Pandas CleanNormalizeData.
Implicit Types (data stage : DataFrame) (cols : list string) (r : Row) (s : string).

Lemma remove_price_outliers_sublist data col data' :
  remove_price_outliers data col = Some data' → rows data' `sublist_of` rows data.
Proof.
  intros (series & _ & ->)%remove_price_outliers_Some. apply sublist_filter.
Qed.

Lemma price_filter_sublist cols data data' :
  price_filter cols data = Some data' → rows data' `sublist_of` rows data.
Proof.
  revert data. induction cols as [|col cols IH]; intros data Hf; simpl in Hf.
  { by simplify_eq. }
  destruct (remove_price_outliers data col) as [data1|] eqn:H1; [|done].
  simpl in Hf. etrans; [by apply IH|]. by eapply remove_price_outliers_sublist.
Qed.

Lemma clean_symbol_sublist data s kept :
  clean_symbol data s = Some kept →
  columns kept = columns data ∧
  rows kept `sublist_of` filter (λ r, symbol r = s) (rows data).
Proof.
  unfold clean_symbol. intros Hc.
  destruct (price_filter price_columns (of_symbol data s)) as [priced|] eqn:Hp;
    [|done].
  simpl in Hc. split.
  - rewrite (remove_volume_outliers_columns _ _ Hc).
    by rewrite (price_filter_columns _ _ _ Hp).
  - apply remove_volume_outliers_Some in Hc as (series & _ & ->).
    etrans; [apply sublist_filter|]. by apply price_filter_sublist in Hp.
Qed.

(** X10. The frame [clean_data] returns has the columns of the input and only rows
    of the input, unchanged and free of NaN. The rows are regrouped: symbol
    after symbol in the order of first appearance, and within a symbol in the
    order of the input. *)
Theorem clean_data_output data cleaned :
  clean_data data = Some (Some cleaned) →
  columns cleaned = columns data ∧
  Forall (λ r, r ∈ rows data ∧ Forall (λ c, is_Some (cell r c)) (columns data))
         (rows cleaned) ∧
  ∃ groups,
    rows cleaned = concat groups ∧
    Forall2 (λ s group,
               Forall (λ r, symbol r = s) group ∧ group `sublist_of` rows data)
            (symbols (dropna data)) groups.
Proof.
  unfold clean_data. intros Hc.
  destruct (mapM _ _) as [frames|] eqn:Hmap; [|done]. simpl in Hc.
  destruct frames as [|f frames]; [done|]. simplify_eq/=.
  change (rows f ++ concat (rows <$> frames)) with (concat (rows <$> f :: frames)).
  apply mapM_Some_1 in Hmap.
  assert (Hgroups :
    Forall2 (λ s group, group `sublist_of` filter (λ r, symbol r = s)
                          (rows (dropna data)))
            (symbols (dropna data)) (rows <$> f :: frames)).
  { apply Forall2_fmap_r. eapply Forall2_impl; [exact Hmap|].
    intros s kept Hkept. simpl. by apply clean_symbol_sublist in Hkept as [_ ?]. }
  assert (Hdrop : ∀ r, r ∈ rows (dropna data) →
            r ∈ rows data ∧ Forall (λ c, is_Some (cell r c)) (columns data)).
  { intros r Hr. simpl in Hr. apply list_elem_of_filter in Hr. tauto. }
  split_and!; [done| |].
  - apply Forall_forall. intros r (g & Hr & Hg)%elem_of_concat.
    apply list_elem_of_lookup in Hg as [k Hk].
    destruct (Forall2_lookup_r _ _ _ _ _ Hgroups Hk) as (s & _ & Hsub).
    apply Hdrop. apply (proj1 (list_elem_of_filter (λ r, symbol r = s) _ r)).
    by eapply elem_of_sublist.
  - exists (rows <$> f :: frames). split; [done|].
    eapply Forall2_impl; [exact Hgroups|]. intros s group Hsub. simpl in *. split.
    + apply Forall_forall. intros r Hr.
      apply (elem_of_sublist _ _ _ Hr) in Hsub.
      by apply list_elem_of_filter in Hsub as [? _].
    + etrans; [exact Hsub|]. etrans; apply sublist_filter.
Qed.

End clean_data_rows_facts.

Section clean_data_output_example.
Import Pandas CleanNormalizeData Examples.

Lemma clean_data_output_witness :
  columns (mkFrame ohlcv (take 4 (rows raw_with_outliers))) = columns raw_with_outliers ∧
  Forall (λ r, r ∈ rows raw_with_outliers ∧
               Forall (λ c, is_Some (cell r c)) (columns raw_with_outliers))
         (rows (mkFrame ohlcv (take 4 (rows raw_with_outliers)))) ∧
  ∃ groups,
    rows (mkFrame ohlcv (take 4 (rows raw_with_outliers))) = concat groups ∧
    Forall2 (λ s group,
               Forall (λ r, symbol r = s) group ∧
               group `sublist_of` rows raw_with_outliers)
            (symbols (dropna raw_with_outliers)) groups.
Proof.
  apply (clean_data_output raw_with_outliers
           (mkFrame ohlcv (take 4 (rows raw_with_outliers)))).
  vm_compute. reflexivity.
Defined.

End clean_data_output_example.

(** ** More on the indicators and on the prediction window *)

Section indicator_facts.
Import Pandas KronosPredict KronosCLIMethods.
Implicit Types (f data : DataFrame) (col c : string) (series : list (option Q)).

Lemma set_column_lookup f col series (i : nat) r' :
  rows (set_column f col series) !! i = Some r' →
  ∃ r, rows f !! i = Some r ∧ r' = set_cell r col (mjoin (series !! i)).
Proof.
  simpl. rewrite list_lookup_imap. destruct (rows f !! i) as [r|]; [|done].
  intros [= <-]. eauto.
Qed.

Lemma cell_set_cell_ne r col v c : c ≠ col → cell (set_cell r col v) c = cell r c.
Proof.
  intros Hne. unfold cell, set_cell. simpl.
  destruct v; [by rewrite lookup_insert_ne|by rewrite lookup_delete_ne].
Qed.

(** A column assignment keeps the rows in place and changes one cell only. *)
Lemma set_column_rows f col series :
  Forall2 (λ r r', row_key r' = row_key r ∧ ∀ c, c ≠ col → cell r' c = cell r c)
          (rows f) (rows (set_column f col series)).
Proof.
  apply Forall2_same_length_lookup_2; [by rewrite set_column_length|].
  intros i r r' Hr (r0 & Hr0 & ->)%set_column_lookup.
  rewrite Hr in Hr0. injection Hr0 as <-.
  split; [done|]. intros c Hc. by apply cell_set_cell_ne.
Qed.

Lemma set_column_rows_trans f0 f col series (cs : list string) :
  Forall2 (λ r r', row_key r' = row_key r ∧ ∀ c, c ∉ cs → cell r' c = cell r c)
          (rows f0) (rows f) →
  Forall2 (λ r r', row_key r' = row_key r ∧ ∀ c, c ∉ col :: cs → cell r' c = cell r c)
          (rows f0) (rows (set_column f col series)).
Proof.
  intros H0. pose proof (set_column_rows f col series) as H1.
  apply Forall2_same_length_lookup_2.
  { rewrite set_column_length. by eapply Forall2_length. }
  intros i r r' Hr Hr'.
  destruct (Forall2_lookup_l _ _ _ _ _ H0 Hr) as (r1 & Hr1 & Hk1 & Hc1).
  destruct (Forall2_lookup_l _ _ _ _ _ H1 Hr1) as (r2 & Hr2 & Hk2 & Hc2).
  rewrite Hr' in Hr2. injection Hr2 as <-. split; [by rewrite Hk2|].
  intros c [Hne Hc]%not_elem_of_cons. rewrite Hc2 by done. by apply Hc1.
Qed.

(** The first [w - 1] rows of a rolling mean of window [w] are NaN. *)
Lemma rolling_mean_head (w : nat) (xs : list (option Q)) (i : nat) :
  (i + 1 < w)%nat → mjoin (rolling_mean w xs !! i) = None.
Proof.
  intros Hi. unfold rolling_mean. rewrite list_lookup_imap.
  destruct (xs !! i) as [x|]; [|done]. simpl. by rewrite decide_True.
Qed.

Lemma set_column_head_NaN f col (w : nat) xs (i : nat) r :
  rows (set_column f col (rolling_mean w xs)) !! i = Some r →
  (i + 1 < w)%nat → cell r col = None.
Proof.
  intros (r0 & _ & ->)%set_column_lookup Hi.
  rewrite rolling_mean_head by done. unfold cell, set_cell. simpl.
  apply lookup_delete_eq.
Qed.

Lemma set_column_keeps_head_NaN f col series c (n : nat) :
  c ≠ col →
  (∀ (i : nat) r, rows f !! i = Some r → (i < n)%nat → cell r c = None) →
  ∀ (i : nat) r, rows (set_column f col series) !! i = Some r → (i < n)%nat →
                 cell r c = None.
Proof.
  intros Hne Hf i r (r0 & Hr0 & ->)%set_column_lookup Hi.
  rewrite cell_set_cell_ne by done. eauto.
Qed.

Lemma Forall2_filter_r {A B} (R : A → B → Prop) (P : B → Prop)
    `{!∀ y, Decision (P y)} (l : list A) (k : list B) :
  Forall2 R l k →
  ∃ l', l' `sublist_of` l ∧ Forall2 R l' (filter P k).
Proof.
  induction 1 as [|x y l k Hxy _ (l' & Hsub & IH)].
  { exists []. by split. }
  rewrite filter_cons. destruct (decide (P y)).
  - exists (x :: l'). split; [by apply sublist_skip|by constructor].
  - exists l'. split; [by apply sublist_cons|done].
Qed.

End indicator_facts.

Section indicator_output.
Import Pandas KronosPredict KronosCLIMethods.
Implicit Types (f data : DataFrame) (col c : string).

Lemma calculate_technical_indicators_rows ops data data' :
  calculate_technical_indicators ops data = Some data' →
  Forall (λ c, c ∈ columns data') (columns data ++ indicator_columns) ∧
  Forall (λ r, Forall (λ c, is_Some (cell r c)) (columns data')) (rows data') ∧
  (length (rows data') ≤ length (rows data) - 19)%nat ∧
  ∃ kept,
    kept `sublist_of` drop 19 (rows data) ∧
    Forall2 (λ r r', row_key r' = row_key r ∧
                     ∀ c, c ∉ indicator_columns → cell r' c = cell r c)
            kept (rows data').
Proof.
  unfold calculate_technical_indicators.
  destruct (column data "close") as [close|]; [|done]. cbn [mbind option_bind].
  intros [= <-].
  match goal with |- context [dropna ?d] => set (D := d) end.
  assert (Hrel :
    Forall2 (λ r r', row_key r' = row_key r ∧
               ∀ c, c ∉ ["bb_lower"; "bb_upper"; "bb_middle"; "macd_histogram";
                         "macd_signal"; "macd"; "rsi"; "ema_26"; "ema_12";
                         "sma_20"; "sma_5"] → cell r' c = cell r c)
            (rows data) (rows D)).
  { unfold D. do 11 apply set_column_rows_trans.
    apply Forall_Forall2_diag, Forall_forall. by intros r _. }
  assert (Hhead : ∀ (i : nat) r, rows D !! i = Some r → (i < 19)%nat →
                                 cell r "sma_20" = None).
  { unfold D. do 9 (apply set_column_keeps_head_NaN; [done|]).
    intros i r Hr Hi. eapply set_column_head_NaN; [exact Hr|lia]. }
  assert (Hcols : Forall (λ c, c ∈ columns D) (columns data ++ indicator_columns)).
  { apply Forall_app. split.
    - apply Forall_forall. intros c Hc. unfold D.
      by do 11 apply set_column_columns_mono.
    - unfold D, indicator_columns.
      repeat (apply Forall_cons; split;
              [repeat first [apply set_column_columns_new
                            |apply set_column_columns_mono]|]).
      constructor. }
  clearbody D.
  assert (Hfilter :
    rows (dropna D)
    = filter (λ r, Forall (λ c, is_Some (cell r c)) (columns D)) (drop 19 (rows D))).
  { unfold dropna. cbn [rows with_rows].
    rewrite <- (take_drop 19 (rows D)) at 1. rewrite filter_app.
    rewrite filter_none; [done|]. apply Forall_forall.
    intros r [i [Hr Hi]]%elem_of_take Hall.
    assert (Hsma : "sma_20" ∈ columns D).
    { apply (proj1 (Forall_forall _ _) Hcols). apply elem_of_app. right.
      apply (bool_decide_unpack _). by vm_compute. }
    apply (proj1 (Forall_forall _ _) Hall) in Hsma.
    rewrite (Hhead i r Hr Hi) in Hsma. by destruct Hsma. }
  destruct (Forall2_filter_r _
              (λ r, Forall (λ c, is_Some (cell r c)) (columns D))
              _ _ (Forall2_drop _ _ _ 19 Hrel)) as (kept & Hsub & Hkept).
  rewrite <- Hfilter in Hkept.
  split_and!.
  - done.
  - rewrite Hfilter. apply Forall_forall. by intros r [? _]%list_elem_of_filter.
  - rewrite <- (Forall2_length _ _ _ Hkept).
    etrans; [by apply sublist_length|]. by rewrite length_drop.
  - exists kept. split; [done|]. eapply Forall2_impl; [exact Hkept|].
    intros r r' [Hk Hc]. split; [done|]. intros c Hnot. apply Hc.
    intros Hin. apply Hnot. unfold indicator_columns.
    repeat (apply elem_of_cons in Hin as [->|Hin];
            [apply (bool_decide_unpack _); by vm_compute|]).
    by apply elem_of_nil in Hin.
Qed.

(** X11. What [calculate_technical_indicators] returns: a frame with the input's
    columns and the eleven indicator columns, without any NaN, whose rows are
    rows of the input from the twentieth on, in order, with their symbol,
    timestamp and original cells unchanged. The first nineteen rows never
    survive: their twenty-row moving average is NaN. *)
Theorem calculate_technical_indicators_output ops data data' :
  calculate_technical_indicators ops data = Some data' →
  Forall (λ c, c ∈ columns data') (columns data ++ indicator_columns) ∧
  Forall (λ r, Forall (λ c, is_Some (cell r c)) (columns data')) (rows data') ∧
  (length (rows data') ≤ length (rows data) - 19)%nat ∧
  ∃ kept,
    kept `sublist_of` drop 19 (rows data) ∧
    Forall2 (λ r r', row_key r' = row_key r ∧
                     ∀ c, c ∉ indicator_columns → cell r' c = cell r c)
            kept (rows data').
Proof. apply calculate_technical_indicators_rows. Qed.

Lemma calculate_technical_indicators_output_witness :
  ∃ data',
    calculate_technical_indicators (mkSeriesOps (λ _ xs, xs) (λ _ xs, xs))
      MoreExamples.rising_candles = Some data' ∧
    Forall (λ c, c ∈ columns data')
           (columns MoreExamples.rising_candles ++ indicator_columns) ∧
    Forall (λ r, Forall (λ c, is_Some (cell r c)) (columns data')) (rows data') ∧
    (length (rows data') ≤ length (rows MoreExamples.rising_candles) - 19)%nat ∧
    ∃ kept,
      kept `sublist_of` drop 19 (rows MoreExamples.rising_candles) ∧
      Forall2 (λ r r', row_key r' = row_key r ∧
                       ∀ c, c ∉ indicator_columns → cell r' c = cell r c)
              kept (rows data').
Proof.
  destruct (calculate_technical_indicators (mkSeriesOps (λ _ xs, xs) (λ _ xs, xs))
              MoreExamples.rising_candles) as [data'|] eqn:Hcalc;
    [|by vm_compute in Hcalc].
  exists data'. split; [reflexivity|].
  by apply (calculate_technical_indicators_output
              (mkSeriesOps (λ _ xs, xs) (λ _ xs, xs)) MoreExamples.rising_candles).
Defined.

End indicator_output.

Section prepare_facts.
Import Pandas KronosPredict KronosCLIMethods.
Implicit Types (f data : DataFrame) (col c : string).

Lemma select_recent_spec data (L : Z) :
  0 <= L →
  select_recent data L
  = (if decide (Py.len (rows data) < L)
     then [WarningNotEnoughData (Py.len (rows data)) L] else [],
     with_rows data (drop (length (rows data) - Z.to_nat L)
                          (merge_sort ts_le (rows data)))).
Proof.
  intros HL. unfold select_recent.
  assert (Hsorted : Py.len (rows (sort_values data)) = Py.len (rows data)).
  { unfold Py.len. simpl. by rewrite length_merge_sort_rows. }
  rewrite Hsorted. unfold tail, Py.len in *.
  destruct (decide (Z.of_nat (length (rows data)) < L)) as [Hlt|Hge]; f_equal.
  - destruct (Z.ltb_spec (Z.of_nat (length (rows data))) 0); [lia|].
    unfold sort_values, with_rows. simpl. f_equal.
    rewrite Nat2Z.id, length_merge_sort_rows. f_equal. lia.
  - destruct (Z.ltb_spec L 0); [lia|].
    unfold sort_values, with_rows. simpl. f_equal.
    by rewrite length_merge_sort_rows.
Qed.

Lemma normalize_Some_shape self available f f' :
  Forall (λ c, c ∈ columns f) available →
  normalize self available f = Some f' →
  columns f' = columns f ∧ row_key <$> rows f' = row_key <$> rows f.
Proof.
  intros Hav. unfold normalize.
  destruct (scalers self) as [all_scalers|]; [|by intros [= <-]].
  case_decide; [by intros [= <-]|].
  destruct (head (rows f)) as [first|]; [|done]. simpl.
  destruct (all_scalers !! symbol first) as [symbol_scalers|]; intros [= <-]; [|done].
  by apply apply_scalers_shape.
Qed.

Lemma calculate_technical_indicators_columns ops data data' :
  calculate_technical_indicators ops data = Some data' → "close" ∈ columns data.
Proof.
  unfold calculate_technical_indicators. intros Hcalc.
  apply column_is_Some. by destruct (column data "close"); [eauto|].
Qed.

(** The general shape of a returned window. *)
Lemma prepare_Some_inv ops self data (L : Z) log window recent_data :
  0 <= L →
  prepare_data_for_prediction ops self data L = (log, Some ([window], recent_data)) →
  ∃ recent0,
    (if decide ("sma_5" ∈ columns data)
     then recent0 = with_rows data (drop (length (rows data) - Z.to_nat L)
                                         (merge_sort ts_le (rows data)))
     else calculate_technical_indicators ops
            (with_rows data (drop (length (rows data) - Z.to_nat L)
                                  (merge_sort ts_le (rows data)))) = Some recent0) ∧
    normalize self (filter (λ c, c ∈ columns recent0) feature_columns) recent0
    = Some recent_data ∧
    window = TokenizeData.feature_rows
               (filter (λ c, c ∈ columns recent0) feature_columns) (rows recent_data) ∧
    log = (if decide (Py.len (rows data) < L)
           then [WarningNotEnoughData (Py.len (rows data)) L] else []).
Proof.
  intros HL. unfold prepare_data_for_prediction.
  rewrite select_recent_spec by done.
  set (recent := with_rows data _).
  change (columns recent) with (columns data).
  intros [= Hlog Hres]. 
  destruct (decide ("sma_5" ∈ columns data)) as [Hsma|Hsma]; cbn [mbind option_bind] in Hres.
  - exists recent. split; [done|].
    destruct (normalize self _ recent) as [normalized|] eqn:Hnorm; [|done].
    cbn [mbind option_bind] in Hres.
    assert (Hav : Forall (λ c, c ∈ columns recent)
                         (filter (λ c, c ∈ columns data) feature_columns))
      by (apply Forall_forall; by intros c [? _]%list_elem_of_filter).
    destruct (normalize_Some_shape _ _ _ _ Hav Hnorm) as [Hcols _].
    change (columns recent) with (columns data) in Hres.
    rewrite (values_available recent normalized) in Hres by done.
    cbn [mbind option_bind] in Hres. by simplify_eq.
  - destruct (calculate_technical_indicators ops recent) as [recent0|] eqn:Hcalc;
      [|done].
    cbn [mbind option_bind] in Hres. exists recent0. split; [done|].
    destruct (normalize self _ recent0) as [normalized|] eqn:Hnorm; [|done].
    cbn [mbind option_bind] in Hres.
    assert (Hav : Forall (λ c, c ∈ columns recent0)
                         (filter (λ c, c ∈ columns recent0) feature_columns))
      by (apply Forall_forall; by intros c [? _]%list_elem_of_filter).
    destruct (normalize_Some_shape _ _ _ _ Hav Hnorm) as [Hcols _].
    rewrite (values_available recent0 normalized) in Hres by done.
    cbn [mbind option_bind] in Hres. by simplify_eq.
Qed.

End prepare_facts.

Section prepare_theorems.
Import Pandas KronosPredict KronosCLIMethods.
Implicit Types (f data : DataFrame) (col c : string).

(** X12. On a frame that already has the indicator columns and at least one row,
    for a positive [sequence_length], [prepare_data_for_prediction] returns a
    window of [min(len(data), sequence_length)] rows: the latest rows in
    timestamp order. It logs the warning exactly when the frame has fewer
    rows than requested. *)
Theorem prepare_window_with_indicators ops self data (L : Z) :
  "sma_5" ∈ columns data →
  rows data ≠ [] →
  0 < L →
  ∃ window recent_data,
    prepare_data_for_prediction ops self data L
    = (if decide (Py.len (rows data) < L)
       then [WarningNotEnoughData (Py.len (rows data)) L] else [],
       Some ([window], recent_data)) ∧
    length window = (length (rows data) `min` Z.to_nat L)%nat ∧
    window = TokenizeData.feature_rows
               (filter (λ c, c ∈ columns data) feature_columns) (rows recent_data) ∧
    row_key <$> rows recent_data
    = row_key <$> drop (length (rows data) - Z.to_nat L)
                       (merge_sort ts_le (rows data)).
Proof.
  intros Hsma Hne HL. unfold prepare_data_for_prediction.
  rewrite select_recent_spec by lia.
  set (recent := with_rows data _).
  change (columns recent) with (columns data).
  rewrite (decide_True (P := "sma_5" ∈ columns data)) by done.
  cbn [mbind option_bind].
  change (columns recent) with (columns data).
  set (available := filter (λ c, c ∈ columns data) feature_columns).
  assert (Hlen : length (rows recent)
                 = (length (rows data) `min` Z.to_nat L)%nat).
  { unfold recent. simpl. rewrite length_drop, length_merge_sort_rows. lia. }
  destruct (normalize_shape self available recent)
    as (normalized & Hnorm & Hcols & Hkeys & _).
  { apply Forall_forall. by intros c [Hc _]%list_elem_of_filter. }
  { intros Hnil. rewrite Hnil in Hlen. cbn [length] in Hlen.
    assert (length (rows data) ≠ 0%nat) by (by destruct (rows data)). lia. }
  rewrite Hnorm. cbn [mbind option_bind].
  unfold available. rewrite (values_available data normalized) by done.
  cbn [mbind option_bind]. eexists _, normalized. split_and!; [done| |done|done].
  unfold TokenizeData.feature_rows. rewrite length_fmap, <- Hlen.
  apply (f_equal length) in Hkeys. by rewrite !length_fmap in Hkeys.
Qed.

Lemma prepare_window_with_indicators_witness :
  ∃ window recent_data,
    prepare_data_for_prediction (mkSeriesOps (λ _ xs, xs) (λ _ xs, xs)) (mkCLI None)
      Examples.three_candles_with_sma 2
    = (if decide (Py.len (rows Examples.three_candles_with_sma) < 2)
       then [WarningNotEnoughData (Py.len (rows Examples.three_candles_with_sma)) 2]
       else [],
       Some ([window], recent_data)) ∧
    length window = (length (rows Examples.three_candles_with_sma) `min` Z.to_nat 2)%nat ∧
    window = TokenizeData.feature_rows
               (filter (λ c, c ∈ columns Examples.three_candles_with_sma)
                       feature_columns) (rows recent_data) ∧
    row_key <$> rows recent_data
    = row_key <$> drop (length (rows Examples.three_candles_with_sma) - Z.to_nat 2)
                       (merge_sort ts_le (rows Examples.three_candles_with_sma)).
Proof.
  apply (prepare_window_with_indicators (mkSeriesOps (λ _ xs, xs) (λ _ xs, xs))
           (mkCLI None) Examples.three_candles_with_sma 2).
  - apply (bool_decide_unpack _). vm_compute. exact I.
  - discriminate.
  - lia.
Defined.

(** X13. On a frame without the indicator columns the function computes them
    itself, and the window it returns is at least nineteen rows shorter than
    the rows it selected: it never has [sequence_length] rows. *)
Theorem prepare_raw_window_bound ops self data (L : Z) log window recent_data :
  "sma_5" ∉ columns data →
  0 < L →
  prepare_data_for_prediction ops self data L = (log, Some ([window], recent_data)) →
  (length window ≤ (length (rows data) `min` Z.to_nat L) - 19)%nat ∧
  Z.of_nat (length window) < L.
Proof.
  intros Hsma HL Hprep. assert (HL0 : 0 <= L) by lia.
  destruct (prepare_Some_inv _ _ _ _ _ _ _ HL0 Hprep)
    as (recent0 & Hrecent0 & Hnorm & -> & _).
  rewrite decide_False in Hrecent0 by done.
  apply calculate_technical_indicators_rows in Hrecent0 as (_ & _ & Hlen & _).
  assert (Hav : Forall (λ c, c ∈ columns recent0)
                       (filter (λ c, c ∈ columns recent0) feature_columns))
    by (apply Forall_forall; by intros c [? _]%list_elem_of_filter).
  destruct (normalize_Some_shape _ _ _ _ Hav Hnorm) as [_ Hkeys].
  apply (f_equal length) in Hkeys. rewrite !length_fmap in Hkeys.
  unfold TokenizeData.feature_rows. rewrite length_fmap, Hkeys.
  cbn [rows with_rows] in Hlen.
  rewrite length_drop, length_merge_sort_rows in Hlen. lia.
Qed.

Lemma prepare_raw_window_bound_witness :
  ∃ window recent_data,
    prepare_data_for_prediction (mkSeriesOps (λ _ xs, xs) (λ _ xs, xs)) (mkCLI None)
      MoreExamples.rising_candles 21
    = ([], Some ([window], recent_data)) ∧
    (length window ≤ (length (rows MoreExamples.rising_candles) `min` Z.to_nat 21) - 19)%nat ∧
    Z.of_nat (length window) < 21.
Proof.
  destruct (prepare_data_for_prediction (mkSeriesOps (λ _ xs, xs) (λ _ xs, xs))
              (mkCLI None) MoreExamples.rising_candles 21)
    as [log [[[|window [|]] recent_data]|]] eqn:Hprep;
    try (by vm_compute in Hprep).
  assert (log = []) as -> by (vm_compute in Hprep; congruence).
  exists window, recent_data. split; [reflexivity|].
  apply (prepare_raw_window_bound (mkSeriesOps (λ _ xs, xs) (λ _ xs, xs)) (mkCLI None)
           MoreExamples.rising_candles 21 [] window recent_data).
  - apply (bool_decide_unpack _). vm_compute. exact I.
  - lia.
  - exact Hprep.
Defined.

End prepare_theorems.

Section scaling.
Import Pandas KronosPredict KronosCLIMethods.
Implicit Types (f data : DataFrame) (col c : string).

Lemma cell_set_cell_eq r col v : cell (set_cell r col v) col = v.
Proof.
  unfold cell, set_cell. simpl.
  destruct v; [apply lookup_insert_eq|apply lookup_delete_eq].
Qed.

(** Assigning to a column a series computed row by row from that column. *)
Lemma set_column_map f col (g : option Q → option Q) :
  Forall2 (λ r r', row_key r' = row_key r ∧
                   cell r' col = g (cell r col) ∧
                   ∀ c, c ≠ col → cell r' c = cell r c)
          (rows f) (rows (set_column f col ((λ r, g (cell r col)) <$> rows f))).
Proof.
  apply Forall2_same_length_lookup_2; [by rewrite set_column_length|].
  intros i r r' Hr (r0 & Hr0 & ->)%set_column_lookup.
  rewrite Hr in Hr0. injection Hr0 as <-.
  rewrite list_lookup_fmap, Hr. simpl. split_and!; [done|apply cell_set_cell_eq|].
  intros c Hc. by apply cell_set_cell_ne.
Qed.

Lemma apply_scalers_cells (symbol_scalers : gmap string Scaler)
    (available : list string) f :
  NoDup available →
  Forall2 (λ r r', row_key r' = row_key r ∧
             ∀ c, cell r' c
                  = match symbol_scalers !! c with
                    | Some sc => if decide (c ∈ available)
                                 then scaler_transform sc <$> cell r c
                                 else cell r c
                    | None => cell r c
                    end)
          (rows f) (rows (apply_scalers symbol_scalers available f)).
Proof.
  unfold apply_scalers. revert f.
  induction available as [|col available IH]; intros f Hnd; cbn [foldl].
  { apply Forall_Forall2_diag, Forall_forall. intros r _. split; [done|].
    intros c. destruct (symbol_scalers !! c); [|done].
    by rewrite decide_False by apply not_elem_of_nil. }
  apply NoDup_cons in Hnd as [Hcol Hnd].
  destruct (symbol_scalers !! col) as [sc|] eqn:Hsc.
  - pose proof (set_column_map f col (fmap (scaler_transform sc))) as Hstep.
    specialize (IH (set_column f col ((λ r, scaler_transform sc <$> cell r col)
                                        <$> rows f)) Hnd).
    apply Forall2_same_length_lookup_2.
    { rewrite <- (Forall2_length _ _ _ IH). by eapply Forall2_length. }
    intros i r r' Hr Hr'.
    destruct (Forall2_lookup_l _ _ _ _ _ Hstep Hr) as (r1 & Hr1 & Hk1 & Hc1 & Hne1).
    destruct (Forall2_lookup_l _ _ _ _ _ IH Hr1) as (r2 & Hr2 & Hk2 & Hc2).
    rewrite Hr' in Hr2. injection Hr2 as <-. split; [by rewrite Hk2|].
    intros c. rewrite Hc2. destruct (decide (c = col)) as [->|Hne].
    + rewrite Hsc, decide_False, decide_True by (done || left). done.
    + rewrite Hne1 by done. destruct (symbol_scalers !! c); [|done].
      destruct (decide (c ∈ available)).
      * rewrite decide_True by by right. done.
      * rewrite decide_False; [done|]. by intros [?|?]%elem_of_cons.
  - specialize (IH f Hnd). eapply Forall2_impl; [exact IH|].
    intros r r' [Hk Hc]. split; [done|]. intros c. rewrite Hc.
    destruct (decide (c = col)) as [->|Hne]; [by rewrite Hsc|].
    destruct (symbol_scalers !! c); [|done].
    destruct (decide (c ∈ available)).
    + rewrite decide_True by by right. done.
    + rewrite decide_False; [done|]. by intros [?|?]%elem_of_cons.
Qed.

(** X14. Lines 184-188 with scalers loaded for the symbol of the first row: every
    available column that has a scaler is replaced, in every row, by the
    scaler's transform of its value; every other cell, the symbols and the
    timestamps stay as they are. In particular the indicator columns, which
    have no scaler, are not rescaled. *)
Theorem normalize_scales_columns self (available : list string) f
    (all_scalers : gmap string (gmap string Scaler))
    (symbol_scalers : gmap string Scaler) first :
  NoDup available →
  scalers self = Some all_scalers →
  head (rows f) = Some first →
  all_scalers !! symbol first = Some symbol_scalers →
  ∃ f',
    normalize self available f = Some f' ∧
    Forall2 (λ r r', row_key r' = row_key r ∧
               ∀ c, cell r' c
                    = match symbol_scalers !! c with
                      | Some sc => if decide (c ∈ available)
                                   then scaler_transform sc <$> cell r c
                                   else cell r c
                      | None => cell r c
                      end)
            (rows f) (rows f').
Proof.
  intros Hnd Hsc Hfirst Hsym. unfold normalize. rewrite Hsc.
  rewrite decide_False; [|intros ->; by rewrite lookup_empty in Hsym].
  rewrite Hfirst. simpl. rewrite Hsym. eexists. split; [done|].
  by apply apply_scalers_cells.
Qed.

End scaling.

(** ** Prediction dates *)

Section prediction_dates.
Import KronosCLIMethods.

Lemma weekday_range (d : Z) : 0 <= weekday d < 7.
Proof. unfold weekday. apply Z.mod_pos_bound. lia. Qed.

Lemma weekday_succ (d : Z) :
  weekday (d + 1) = if decide (weekday d = 6) then 0 else weekday d + 1.
Proof. unfold weekday. case_decide; Z.to_euclidean_division_equations; lia. Qed.

(** The loop that skips the weekend tests its condition at most three times. *)
Lemma skip_weekend_spec (fuel : nat) (c : Z) :
  (3 ≤ fuel)%nat →
  ∃ d, skip_weekend fuel c = Some d ∧
       c <= d <= c + 2 ∧ weekday d < 5 ∧
       ∀ x, c <= x < d → 5 <= weekday x.
Proof.
  intros Hfuel. destruct fuel as [|[|[|fuel]]]; [lia..|]. simpl.
  pose proof (weekday_range c). pose proof (weekday_succ c) as H1.
  pose proof (weekday_succ (c + 1)) as H2.
  destruct (Z.leb_spec 5 (weekday c)); [|exists c; split_and!; [done|lia..]].
  destruct (Z.leb_spec 5 (weekday (c + 1))).
  - replace (c + 1 + 1) with (c + 2) in * by lia.
    destruct (Z.leb_spec 5 (weekday (c + 2))).
    + repeat case_decide; lia.
    + exists (c + 2). split_and!; [done|lia..|].
      intros x Hx. assert (x = c ∨ x = c + 1) as [->| ->] by lia; done.
  - exists (c + 1). split_and!; [done|lia..|].
    intros x Hx. assert (x = c) as -> by lia. done.
Qed.

Lemma prediction_dates_loop_spec (fuel n : nat) (last : Z) :
  (3 ≤ fuel)%nat →
  ∃ dates,
    prediction_dates_loop fuel n last = Some dates ∧
    length dates = n ∧
    ∀ (k : nat) p d, (last :: dates) !! k = Some p → dates !! k = Some d →
      p < d <= p + 3 ∧ weekday d < 5 ∧ ∀ x, p < x < d → 5 <= weekday x.
Proof.
  intros Hfuel. revert last. induction n as [|n IH]; intros last; simpl.
  { exists []. split_and!; [done..|]. intros k p d _ Hd. by destruct k. }
  destruct (skip_weekend_spec fuel (last + 1) Hfuel) as (d0 & -> & Hd0 & Hwd & Hskip).
  simpl. destruct (IH d0) as (rest & -> & Hlen & Hrest). simpl.
  exists (d0 :: rest). split_and!; [done|by rewrite <- Hlen|].
  intros [|k] p d Hp Hd; simpl in *.
  - simplify_eq. split_and!; [lia..|done|]. intros x Hx. apply Hskip. lia.
  - by apply (Hrest k).
Qed.

(** X15. For every bound of at least three tests, [generate_prediction_dates]
    returns [steps] dates. Each one is a weekday and is the first weekday
    after the date before it (after [last_date] for the first): the dates
    are the next [steps] business days, none skipped and none repeated. *)
Theorem generate_prediction_dates_spec (fuel : nat) (last_date steps : Z) :
  (3 ≤ fuel)%nat →
  ∃ dates,
    generate_prediction_dates fuel last_date steps = Some dates ∧
    length dates = Z.to_nat steps ∧
    ∀ (k : nat) p d, (last_date :: dates) !! k = Some p → dates !! k = Some d →
      p < d <= p + 3 ∧ weekday d < 5 ∧ ∀ x, p < x < d → 5 <= weekday x.
Proof. intros Hfuel. by apply prediction_dates_loop_spec. Qed.

Lemma generate_prediction_dates_spec_witness :
  ∃ dates,
    generate_prediction_dates 3 738890 4 = Some dates ∧
    length dates = Z.to_nat 4 ∧
    ∀ (k : nat) p d, (738890 :: dates) !! k = Some p → dates !! k = Some d →
      p < d <= p + 3 ∧ weekday d < 5 ∧ ∀ x, p < x < d → 5 <= weekday x.
Proof. apply (generate_prediction_dates_spec 3 738890 4). lia. Defined.

End prediction_dates.

Section scaling_example.
Import Pandas KronosPredict KronosCLIMethods.

Lemma normalize_scales_columns_witness :
  ∃ f',
    normalize MoreExamples.cli_with_scalers ["close"; "sma_5"]
      Examples.three_candles_with_sma = Some f' ∧
    Forall2 (λ r r', row_key r' = row_key r ∧
               ∀ c, cell r' c
                    = match (<["close" := StandardScaler 10 2]>
                               {["volume" := MinMaxScaler (1 # 100) 0]}
                             : gmap string Scaler) !! c with
                      | Some sc => if decide (c ∈ ["close"; "sma_5"])
                                   then scaler_transform sc <$> cell r c
                                   else cell r c
                      | None => cell r c
                      end)
            (rows Examples.three_candles_with_sma) (rows f').
Proof.
  apply (normalize_scales_columns MoreExamples.cli_with_scalers ["close"; "sma_5"]
           Examples.three_candles_with_sma
           {["X" := <["close" := StandardScaler 10 2]>
                      {["volume" := MinMaxScaler (1 # 100) 0]}]}
           _ (Examples.candle "X" 3 10 10 10 10 100)).
  - apply (bool_decide_unpack _). vm_compute. exact I.
  - reflexivity.
  - reflexivity.
  - vm_compute. reflexivity.
Defined.

End scaling_example.

(** ** Back to the price scale *)

Section inverse_transform.
Import Pandas KronosPredict KronosCLIMethods.

Lemma scaler_inverse_transform_transform (sc : Scaler) (x : Q) :
  ¬ (scale_of sc == 0)%Q →
  (scaler_inverse_transform sc (scaler_transform sc x) == x)%Q.
Proof. destruct sc as [mean scale|scale min]; simpl; intros Hscale; by field. Qed.

Lemma scaler_inverse_transform_column_Some (sc : Scaler) (col : list Q) :
  col ≠ [] →
  scaler_inverse_transform_column sc col = Some (scaler_inverse_transform sc <$> col).
Proof. by destruct col. Qed.

Lemma array_column_is_Some (a : Array2) (j : nat) :
  Forall (λ row, length row = width a) (entries a) →
  is_Some (array_column a j) ↔ (j < width a)%nat.
Proof.
  intros Hwf. unfold array_column. case_decide as Hj; [|by rewrite <- not_eq_None_Some].
  split; [done|]. intros _. apply mapM_is_Some, Forall_forall. intros row Hrow.
  rewrite Forall_forall in Hwf. apply lookup_lt_is_Some. rewrite (Hwf row Hrow). done.
Qed.

Lemma array_column_length (a : Array2) (j : nat) (col : list Q) :
  array_column a j = Some col → length col = length (entries a).
Proof.
  unfold array_column. case_decide; [|done]. intros Hcol.
  apply mapM_Some in Hcol. by rewrite <- (Forall2_length _ _ _ Hcol).
Qed.

(** X16. With scalers loaded for the symbol, [inverse_transform_predictions]
    undoes on the fourth column what the close-price scaler did: on a matrix
    with at least one row whose fourth column holds the scaled values of
    [prices], for a scaler with a non-zero scale, it returns [prices], one
    value for every row of the matrix, and logs nothing. Values are compared
    as rationals. *)
Theorem inverse_transform_undoes_scaling self (raw : Array2) (sym : string)
    (all_scalers : gmap string (gmap string Scaler))
    (symbol_scalers : gmap string Scaler) (close_scaler : Scaler) (prices : list Q) :
  scalers self = Some all_scalers →
  all_scalers !! sym = Some symbol_scalers →
  symbol_scalers !! "close" = Some close_scaler →
  ¬ (scale_of close_scaler == 0)%Q →
  prices ≠ [] →
  array_column raw 3 = Some (scaler_transform close_scaler <$> prices) →
  ∃ close_predictions,
    inverse_transform_predictions self raw sym
    = ([], Some (ClosePredictions close_predictions)) ∧
    length close_predictions = length (entries raw) ∧
    Forall2 Qeq close_predictions prices.
Proof.
  intros Hsc Hsym Hclose Hscale Hprices Hcol. unfold inverse_transform_predictions.
  rewrite Hsc. rewrite decide_False; [|intros ->; by rewrite lookup_empty in Hsym].
  rewrite Hsym, Hclose. cbn [mbind option_bind]. rewrite Hcol. cbn [mbind option_bind].
  rewrite scaler_inverse_transform_column_Some by (by destruct prices).
  cbn [fmap option_fmap option_map].
  eexists. split; [done|]. split.
  - rewrite length_fmap. by apply array_column_length in Hcol.
  - rewrite <- list_fmap_compose. clear Hcol Hprices.
    induction prices as [|x prices IH]; constructor; [|done].
    by apply scaler_inverse_transform_transform.
Qed.

Lemma inverse_transform_undoes_scaling_witness :
  ∃ close_predictions,
    inverse_transform_predictions MoreExamples.cli_with_scalers
      MoreExamples.two_predictions "X"
    = ([], Some (ClosePredictions close_predictions)) ∧
    length close_predictions = length (entries MoreExamples.two_predictions) ∧
    Forall2 Qeq close_predictions [12%Q; 14%Q].
Proof.
  apply (inverse_transform_undoes_scaling MoreExamples.cli_with_scalers
           MoreExamples.two_predictions "X"
           {["X" := <["close" := StandardScaler 10 2]>
                      {["volume" := MinMaxScaler (1 # 100) 0]}]}
           (<["close" := StandardScaler 10 2]> {["volume" := MinMaxScaler (1 # 100) 0]})
           (StandardScaler 10 2) [12%Q; 14%Q]).
  - reflexivity.
  - vm_compute. reflexivity.
  - vm_compute. reflexivity.
  - vm_compute. discriminate.
  - discriminate.
  - vm_compute. reflexivity.
Defined.

(** X17. When [inverse_transform_predictions] gives the matrix back and when it
    raises. Without scalers, with an empty dictionary of scalers or with a
    symbol that has none, it logs a warning and returns the matrix as it is,
    whatever its width. With scalers for the symbol and a matrix of at least
    one row it raises exactly when the symbol has no scaler for [close] or
    the matrix has fewer than four columns. *)
Theorem inverse_transform_predictions_outcomes self (raw : Array2) (sym : string) :
  Forall (λ row, length row = width raw) (entries raw) →
  entries raw ≠ [] →
  match scalers self ≫= (.!! sym) with
  | None =>
      inverse_transform_predictions self raw sym
      = ([WarningNoScalers], Some (RawPredictions raw))
  | Some symbol_scalers =>
      fst (inverse_transform_predictions self raw sym) = [] ∧
      (snd (inverse_transform_predictions self raw sym) = None
       ↔ symbol_scalers !! "close" = None ∨ (width raw ≤ 3)%nat) ∧
      snd (inverse_transform_predictions self raw sym) ≠ Some (RawPredictions raw)
  end.
Proof.
  intros Hwf Hrows. unfold inverse_transform_predictions.
  destruct (scalers self) as [all_scalers|]; cbn [mbind option_bind]; [|done].
  destruct (all_scalers !! sym) as [symbol_scalers|] eqn:Hsym.
  - rewrite decide_False; [|intros ->; by rewrite lookup_empty in Hsym].
    cbn [fst snd]. split; [done|].
    pose proof (array_column_is_Some raw 3 Hwf) as Hcol.
    destruct (symbol_scalers !! "close") as [close_scaler|]; cbn [mbind option_bind].
    + destruct (array_column raw 3) as [col|] eqn:Hcol3; cbn [mbind option_bind].
      * apply array_column_length in Hcol3.
        destruct col as [|y col]; [by destruct (entries raw)|].
        cbn [scaler_inverse_transform_column fmap option_fmap option_map].
        split; [|done]. split; [done|]. intros [?|Hw]; [done|].
        assert (3 < width raw)%nat by (apply Hcol; eauto). lia.
      * split; [|done]. split; [|done]. intros _. right.
        destruct (decide (3 < width raw)%nat) as [Hlt|]; [|lia].
        apply Hcol in Hlt. by destruct Hlt.
    + split; [|done]. split; [by left|done].
  - by case_decide.
Qed.

Lemma inverse_transform_predictions_outcomes_witness :
  fst (inverse_transform_predictions MoreExamples.cli_with_scalers
         MoreExamples.narrow_prediction "X") = [] ∧
  (snd (inverse_transform_predictions MoreExamples.cli_with_scalers
          MoreExamples.narrow_prediction "X") = None
   ↔ (<["close" := StandardScaler 10 2]> {["volume" := MinMaxScaler (1 # 100) 0]}
      : gmap string Scaler) !! "close" = None ∨ (2 ≤ 3)%nat) ∧
  snd (inverse_transform_predictions MoreExamples.cli_with_scalers
         MoreExamples.narrow_prediction "X") ≠ Some (RawPredictions MoreExamples.narrow_prediction).
Proof.
  apply (inverse_transform_predictions_outcomes MoreExamples.cli_with_scalers
           MoreExamples.narrow_prediction "X").
  - repeat constructor.
  - discriminate.
Defined.

End inverse_transform.

(** ** One prediction, end to end *)

Section predict_facts.
Import Pandas KronosPredict KronosCLIMethods.
Implicit Types (f data : DataFrame) (col c : string).

Lemma download_stock_data_Some history (sym period : string) data' :
  download_stock_data history sym period = Some data' →
  ∃ data, history sym period = Some data ∧ rows data ≠ [] ∧
          data' = with_rows data (set_symbol sym <$> rows data).
Proof.
  unfold download_stock_data. destruct (history sym period) as [data|]; [|done].
  cbn [mbind option_bind]. case_decide as Hempty; [done|]. intros [= <-].
  exists data. split_and!; [done| |done]. intros Hrows. apply Hempty. by left.
Qed.

Lemma NoDup_feature_columns : NoDup feature_columns.
Proof. apply (bool_decide_unpack _). vm_compute. exact I. Qed.

(** Where the rows of the frame [prepare_data_for_prediction] returns come
    from, for data of one symbol: every row is a row of the data, with the
    cells outside the indicator columns scaled by the symbol's scalers. *)
Lemma prepare_rows_origin ops self data (L : Z) log window recent_data (s : string) :
  0 <= L →
  Forall (λ r, symbol r = s) (rows data) →
  prepare_data_for_prediction ops self data L = (log, Some ([window], recent_data)) →
  ("sma_5" ∉ columns data →
   (length (rows recent_data) ≤ (length (rows data) `min` Z.to_nat L) - 19)%nat) ∧
  Forall (λ r', ∃ r, r ∈ rows data ∧ row_key r' = row_key r ∧
            ∀ c, c ∉ indicator_columns →
              cell r' c
              = match scaler_of self s c with
                | Some sc => if decide (c ∈ feature_columns ∧ c ∈ columns recent_data)
                             then scaler_transform sc <$> cell r c
                             else cell r c
                | None => cell r c
                end)
         (rows recent_data).
Proof.
  intros HL Hsym Hprep.
  destruct (prepare_Some_inv _ _ _ _ _ _ _ HL Hprep)
    as (recent0 & Hrecent0 & Hnorm & _ & _).
  set (recent := with_rows data _) in Hrecent0.
  assert (Hrecent : ∀ r, r ∈ rows recent → r ∈ rows data).
  { intros r Hr. cbn [rows with_rows recent] in Hr.
    pose proof (elem_of_sublist _ _ _ Hr (sublist_drop _ _)) as Hr'.
    by rewrite merge_sort_Permutation in Hr'. }
  assert (Horigin :
    Forall (λ r0, ∃ r, r ∈ rows data ∧ row_key r0 = row_key r ∧
              ∀ c, c ∉ indicator_columns → cell r0 c = cell r c) (rows recent0)).
  { destruct (decide ("sma_5" ∈ columns data)) as [Hsma|Hsma].
    - subst recent0. apply Forall_forall. intros r Hr. exists r. eauto.
    - apply calculate_technical_indicators_rows in Hrecent0
        as (_ & _ & _ & kept & Hkept & Hrel).
      apply Forall_forall. intros r' Hr'.
      apply list_elem_of_lookup in Hr' as [i Hi].
      destruct (Forall2_lookup_r _ _ _ _ _ Hrel Hi) as (r & Hr & Hk & Hc).
      exists r. split; [|done]. apply Hrecent.
      apply list_elem_of_lookup_2 in Hr.
      pose proof (elem_of_sublist _ _ _ Hr Hkept) as Hr19.
      apply (elem_of_sublist _ _ _ Hr19), sublist_drop. }
  assert (Hav : Forall (λ c, c ∈ columns recent0)
                       (filter (λ c, c ∈ columns recent0) feature_columns))
    by (apply Forall_forall; by intros c [? _]%list_elem_of_filter).
  destruct (normalize_Some_shape _ _ _ _ Hav Hnorm) as [Hcols Hkeys].
  split.
  { intros Hsma. rewrite decide_False in Hrecent0 by done.
    apply calculate_technical_indicators_rows in Hrecent0 as (_ & _ & Hlen & _).
    apply (f_equal length) in Hkeys. rewrite !length_fmap in Hkeys. rewrite Hkeys.
    cbn [rows with_rows recent] in Hlen.
    rewrite length_drop, length_merge_sort_rows in Hlen. lia. }
  assert (Hscaled :
    Forall2 (λ r0 r', row_key r' = row_key r0 ∧
               ∀ c, cell r' c
                    = match scaler_of self s c with
                      | Some sc =>
                          if decide (c ∈ feature_columns ∧ c ∈ columns recent_data)
                          then scaler_transform sc <$> cell r0 c
                          else cell r0 c
                      | None => cell r0 c
                      end)
            (rows recent0) (rows recent_data)).
  { assert (Hsame : recent_data = recent0 → (∀ c, scaler_of self s c = None) →
              Forall2 (λ r0 r', row_key r' = row_key r0 ∧
                 ∀ c, cell r' c
                      = match scaler_of self s c with
                        | Some sc =>
                            if decide (c ∈ feature_columns ∧ c ∈ columns recent_data)
                            then scaler_transform sc <$> cell r0 c
                            else cell r0 c
                        | None => cell r0 c
                        end)
                (rows recent0) (rows recent_data)).
    { intros -> Hnone. apply Forall_Forall2_diag, Forall_forall. intros r _.
      split; [done|]. intros c. by rewrite Hnone. }
    revert Hnorm. unfold normalize.
    destruct (scalers self) as [all_scalers|] eqn:Hsc;
      [|intros [= <-]; apply Hsame; [done|]; intros c; unfold scaler_of; by rewrite Hsc].
    destruct (decide (all_scalers = ∅)) as [->|Hempty].
    { intros [= <-]. apply Hsame; [done|]. intros c. unfold scaler_of.
      by rewrite Hsc, lookup_empty. }
    destruct (head (rows recent0)) as [first|] eqn:Hhead; [|done].
    cbn [mbind option_bind].
    assert (symbol first = s) as ->.
    { apply head_Some_elem_of in Hhead.
      destruct (proj1 (Forall_forall _ _) Horigin first Hhead) as (r & Hr & Hk & _).
      rewrite Forall_forall in Hsym. rewrite <- (Hsym r Hr).
      unfold row_key in Hk. congruence. }
    destruct (all_scalers !! s) as [symbol_scalers|] eqn:Hss.
    - intros [= <-].
      eapply Forall2_impl;
        [apply apply_scalers_cells, NoDup_filter, NoDup_feature_columns|].
      intros r0 r' [Hk Hc]. split; [done|]. intros c. rewrite Hc.
      unfold scaler_of. rewrite Hsc, Hss.
      destruct (symbol_scalers !! c); [|done].
      destruct (decide (c ∈ filter (λ c, c ∈ columns recent0) feature_columns))
        as [Hin|Hin]; rewrite list_elem_of_filter in Hin.
      + rewrite decide_True; [done|]. rewrite Hcols. tauto.
      + rewrite decide_False; [done|]. rewrite Hcols. tauto.
    - intros [= <-]. apply Hsame; [done|]. intros c.
      unfold scaler_of. by rewrite Hsc, Hss. }
  apply Forall_forall. intros r' Hr'. apply list_elem_of_lookup in Hr' as [i Hi].
  destruct (Forall2_lookup_r _ _ _ _ _ Hscaled Hi) as (r0 & Hr0 & Hk & Hc).
  rewrite Forall_forall in Horigin.
  destruct (Horigin r0 (list_elem_of_lookup_2 _ _ _ Hr0)) as (r & Hr & Hk0 & Hc0).
  exists r. split; [done|]. split; [congruence|]. intros c Hind. rewrite Hc.
  rewrite (Hc0 c Hind). done.
Qed.

End predict_facts.

Section predict_symbol_results.
Import Pandas KronosPredict KronosCLIMethods.

Lemma prepare_tensor_shape ops self data (L : Z) log tensor recent_data :
  prepare_data_for_prediction ops self data L = (log, Some (tensor, recent_data)) →
  ∃ window, tensor = [window].
Proof.
  unfold prepare_data_for_prediction.
  destruct (select_recent data L) as [log0 recent]. intros [= _ Hres].
  destruct (if decide ("sma_5" ∈ columns recent) then Some recent
            else calculate_technical_indicators ops recent) as [recent0|];
    cbn [mbind option_bind] in Hres; [|done].
  destruct (normalize self _ recent0) as [normalized|];
    cbn [mbind option_bind] in Hres; [|done].
  destruct (values normalized _) as [window|];
    cbn [mbind option_bind] in Hres; [|done].
  injection Hres as <- _. eauto.
Qed.

Lemma downloaded_symbol (sym : string) (rs : list Row) :
  Forall (λ r, symbol r = sym) (set_symbol sym <$> rs).
Proof. apply Forall_fmap, Forall_forall. by intros r _. Qed.



(** X19. What a result of [predict_symbol] holds. The dates are the [steps]
    business days that follow the date of one of the downloaded bars, and
    [last_known_price] is the close of that bar as the network saw it:
    scaled by the symbol's scaler for [close] when there is one, whereas
    [predictions] has been through [inverse_transform_predictions].
    [sequence_length] is the requested length, also when fewer rows were
    used. *)
Theorem predict_symbol_result fuel ops ext self (sym : string)
    (steps L : Z) (period : string) log res :
  0 <= L →
  (3 ≤ fuel)%nat →
  predict_symbol fuel ops ext self sym steps L period = (log, Some res) →
  ∃ data bar tensor raw,
    history ext sym period = Some data ∧
    bar ∈ rows data ∧
    model ext tensor steps = Some raw ∧
    result_symbol res = sym ∧
    prediction_steps res = steps ∧
    sequence_length res = L ∧
    last_known_price res
    = match scaler_of self sym "close" with
      | Some sc => scaler_transform sc <$> cell bar "close"
      | None => cell bar "close"
      end ∧
    snd (inverse_transform_predictions self raw sym) = Some (predictions res) ∧
    length (prediction_dates res) = Z.to_nat steps ∧
    ∀ (k : nat) p d,
      (timestamp bar :: prediction_dates res) !! k = Some p →
      prediction_dates res !! k = Some d →
      p < d <= p + 3 ∧ weekday d < 5 ∧ ∀ x, p < x < d → 5 <= weekday x.
Proof.
  intros HL Hfuel. unfold predict_symbol.
  destruct (download_stock_data (history ext) sym period) as [data'|] eqn:Hdown;
    [|done].
  apply download_stock_data_Some in Hdown as (data & Hhist & _ & ->).
  destruct (prepare_data_for_prediction ops self _ L) as [log0 [[tensor rd]|]] eqn:Hprep;
    [|done].
  destruct (prepare_tensor_shape _ _ _ _ _ _ _ Hprep) as [window ->].
  apply (prepare_rows_origin _ _ _ _ _ _ _ sym HL) in Hprep as [_ Horigin];
    [|apply downloaded_symbol].
  destruct (model ext [window] steps) as [raw|] eqn:Hmodel; [|done].
  destruct (inverse_transform_predictions self raw sym)
    as [log' [close_predictions|]] eqn:Hinv; [|done].
  destruct (column rd "close" ≫= last) as [last_close|] eqn:Hclose; [|done].
  destruct (last (timestamp <$> rows rd)) as [last_date|] eqn:Hdate; [|done].
  destruct (prediction_dates_loop_spec fuel (Z.to_nat steps) last_date Hfuel)
    as (dates & Hdates & Hlen & Hnext).
  unfold generate_prediction_dates. rewrite Hdates. intros [= _ <-].
  cbn [result_symbol prediction_steps sequence_length last_known_price predictions
       prediction_dates].
  unfold column in Hclose. case_decide as Hcol; [|done].
  cbn [mbind option_bind] in Hclose. rewrite fmap_last in Hclose. rewrite fmap_last in Hdate.
  destruct (last (rows rd)) as [r'|] eqn:Hlast; [|done].
  injection Hclose as <-. injection Hdate as <-.
  apply last_Some_elem_of in Hlast.
  destruct (proj1 (Forall_forall _ _) Horigin r' Hlast) as (r0 & Hr0 & Hk & Hc).
  cbn [rows with_rows] in Hr0. apply list_elem_of_fmap in Hr0 as (bar & -> & Hbar).
  exists data, bar, [window], raw. split_and!; try done.
  - rewrite Hc by (apply (bool_decide_unpack _); vm_compute; exact I).
    destruct (scaler_of self sym "close"); [|done].
    rewrite decide_True; [done|]. split; [|done].
    apply (bool_decide_unpack _). vm_compute. exact I.
  - by rewrite Hinv.
  - replace (timestamp bar) with (timestamp r'); [exact Hnext|].
    unfold row_key in Hk. by injection Hk.
Qed.

Lemma predict_symbol_result_witness :
  ∃ log res,
    predict_symbol 3 MoreExamples.plain_ops
      (MoreExamples.replay MoreExamples.rising_candles) MoreExamples.cli_with_scalers
      "X" 2 512 "1y" = (log, Some res) ∧
    ∃ data bar tensor raw,
      history (MoreExamples.replay MoreExamples.rising_candles) "X" "1y" = Some data ∧
      bar ∈ rows data ∧
      model (MoreExamples.replay MoreExamples.rising_candles) tensor 2 = Some raw ∧
      result_symbol res = "X" ∧
      prediction_steps res = 2 ∧
      sequence_length res = 512 ∧
      last_known_price res
      = match scaler_of MoreExamples.cli_with_scalers "X" "close" with
        | Some sc => scaler_transform sc <$> cell bar "close"
        | None => cell bar "close"
        end ∧
      snd (inverse_transform_predictions MoreExamples.cli_with_scalers raw "X")
      = Some (predictions res) ∧
      length (prediction_dates res) = Z.to_nat 2 ∧
      ∀ (k : nat) p d,
        (timestamp bar :: prediction_dates res) !! k = Some p →
        prediction_dates res !! k = Some d →
        p < d <= p + 3 ∧ weekday d < 5 ∧ ∀ x, p < x < d → 5 <= weekday x.
Proof.
  destruct (predict_symbol 3 MoreExamples.plain_ops
              (MoreExamples.replay MoreExamples.rising_candles)
              MoreExamples.cli_with_scalers "X" 2 512 "1y")
    as [log [res|]] eqn:Hpred; [|by vm_compute in Hpred].
  exists log, res. split; [reflexivity|].
  apply (predict_symbol_result 3 MoreExamples.plain_ops
           (MoreExamples.replay MoreExamples.rising_candles)
           MoreExamples.cli_with_scalers "X" 2 512 "1y" log res).
  - lia.
  - lia.
  - exact Hpred.
Defined.

End predict_symbol_results.

(** ** Normalization of the training data *)

Section normalize_data_facts.
Import Pandas KronosPredict NormalizeData.
Implicit Types (f data nd : DataFrame) (s col c : string) (r : Row).

Lemma row_eq r r' : row_key r = row_key r' → (∀ c, cell r c = cell r' c) → r = r'.
Proof.
  destruct r as [s t m], r' as [s' t' m']. unfold row_key, cell. simpl.
  intros [= -> ->] Hc. f_equal. by apply map_eq.
Qed.

Lemma frame_eq f g : columns f = columns g → rows f = rows g → f = g.
Proof. destruct f, g. simpl. by intros -> ->. Qed.

Lemma loc_assign_zip s col (g : option Q → option Q) (rs0 rs : list Row) :
  Forall2 (λ r0 r, symbol r = symbol r0) rs0 rs →
  loc_assign s col rs (g <$> ((λ r, cell r col) <$> filter (λ r, symbol r = s) rs0))
  = zip_with (λ r0 r, if decide (symbol r0 = s)
                      then set_cell r col (g (cell r0 col)) else r) rs0 rs.
Proof.
  induction 1 as [|r0 r rs0 rs Hs _ IH]; [done|].
  cbn [loc_assign zip_with]. rewrite filter_cons, Hs.
  destruct (decide (symbol r0 = s)).
  - rewrite !fmap_cons. by rewrite IH.
  - by rewrite IH.
Qed.

Lemma Forall2_zip_with_r {A B} (R R' : A → B → Prop) (g : A → B → B)
    (l : list A) (k : list B) :
  (∀ x y, R x y → R' x (g x y)) →
  Forall2 R l k → Forall2 R' l (zip_with g l k).
Proof. intros Hg. induction 1; simpl; constructor; auto. Qed.

Lemma Forall2_filter_both {A B} (R : A → B → Prop) (P : A → Prop) (P' : B → Prop)
    `{!∀ x, Decision (P x)} `{!∀ y, Decision (P' y)} (l : list A) (k : list B) :
  Forall2 (λ x y, R x y ∧ (P x ↔ P' y)) l k →
  Forall2 R (filter P l) (filter P' k).
Proof.
  induction 1 as [|x y l k [Hxy HP] _ IH]; [constructor|].
  rewrite !filter_cons. destruct (decide (P x)), (decide (P' y)); try tauto.
  by constructor.
Qed.

Lemma Forall2_functional {A B} (R R' : A → B → Prop) (l : list A) (k k' : list B) :
  (∀ x y z, x ∈ l → R x y → R' x z → y = z) →
  Forall2 R l k → Forall2 R' l k' → k = k'.
Proof.
  intros Hfun Hk. revert k'. induction Hk as [|x y l k Hxy _ IH]; intros k' Hk'.
  { by apply Forall2_nil_inv_l in Hk'. }
  apply Forall2_cons_inv_l in Hk' as (z & k'' & Hxz & Hk'' & ->). f_equal.
  - eapply Hfun; [by left|done..].
  - apply IH; [|done]. intros ? ? ? ?. apply Hfun. by right.
Qed.

(** One pass of the loop over the columns. *)
Lemma normalize_column_inv fit method data s
    (M : gmap string (gmap string Scaler)) nd (ssc : gmap string Scaler) col nd' ssc' :
  columns nd = columns data →
  Forall2 (scaled_by (<[s := ssc]> M)) (rows data) (rows nd) →
  normalize_column fit method (of_symbol data s) s (nd, ssc) col = Some (nd', ssc') →
  columns nd' = columns data ∧
  Forall2 (scaled_by (<[s := ssc']> M)) (rows data) (rows nd') ∧
  ∃ sc, column (of_symbol data s) col ≫= fit_with fit method = Some sc ∧
        ssc' = <[col := sc]> ssc.
Proof.
  intros Hcols Hrel. unfold normalize_column.
  destruct (column (of_symbol data s) col) as [series|] eqn:Hseries; [|done].
  cbn [mbind option_bind].
  destruct (fit_with fit method series) as [sc|] eqn:Hfit; [|done].
  cbn [mbind option_bind fst snd]. intros [= <- <-].
  split; [done|]. split; [|by exists sc].
  unfold column in Hseries. case_decide; [|done]. injection Hseries as <-.
  cbn [rows with_rows of_symbol].
  rewrite (loc_assign_zip s col (fmap (scaler_transform sc)) (rows data) (rows nd)).
  2:{ eapply Forall2_impl; [exact Hrel|]. intros r r' [Hk _].
      unfold row_key in Hk. congruence. }
  eapply Forall2_zip_with_r; [|exact Hrel].
  intros r r' [Hk Hc]. cbn beta.
  destruct (decide (symbol r = s)) as [Hs|Hs].
  - split; [done|]. intros c. rewrite Hs, lookup_insert_eq.
    specialize (Hc c). rewrite Hs, lookup_insert_eq in Hc.
    destruct (decide (c = col)) as [->|Hne].
    + by rewrite cell_set_cell_eq, lookup_insert_eq.
    + by rewrite cell_set_cell_ne, lookup_insert_ne.
  - split; [done|]. intros c. specialize (Hc c).
    rewrite lookup_insert_ne in Hc by done. by rewrite lookup_insert_ne.
Qed.

(** The loop over the columns. *)
Lemma normalize_columns_inv fit method data s
    (M : gmap string (gmap string Scaler)) (cols : list string)
    nd (ssc : gmap string Scaler) nd' ssc' :
  columns nd = columns data →
  Forall2 (scaled_by (<[s := ssc]> M)) (rows data) (rows nd) →
  normalize_columns fit method (of_symbol data s) s cols (nd, ssc) = Some (nd', ssc') →
  columns nd' = columns data ∧
  Forall2 (scaled_by (<[s := ssc']> M)) (rows data) (rows nd') ∧
  ∀ c, ssc' !! c = if decide (c ∈ cols)
                   then column (of_symbol data s) c ≫= fit_with fit method
                   else ssc !! c.
Proof.
  revert nd ssc. induction cols as [|col cols IH]; intros nd ssc Hcols Hrel;
    cbn [normalize_columns].
  { intros [= <- <-]. split_and!; [done..|]. intros c.
    by rewrite decide_False by apply not_elem_of_nil. }
  destruct (normalize_column fit method (of_symbol data s) s (nd, ssc) col)
    as [[nd1 ssc1]|] eqn:Hstep; [|done].
  destruct (normalize_column_inv _ _ _ _ _ _ _ _ _ _ Hcols Hrel Hstep)
    as (Hcols1 & Hrel1 & sc & Hsc & ->).
  intros Hloop. destruct (IH _ _ Hcols1 Hrel1 Hloop) as (Hcols' & Hrel' & Hssc').
  split_and!; [done..|]. intros c. rewrite Hssc'.
  destruct (decide (c ∈ cols)) as [Hin|Hin].
  - rewrite decide_True by by right. done.
  - destruct (decide (c = col)) as [->|Hne].
    + rewrite decide_True by by left. by rewrite lookup_insert_eq.
    + rewrite decide_False by (by intros [?|?]%elem_of_cons).
      by rewrite lookup_insert_ne.
Qed.

(** The loop over the symbols. *)
Lemma normalize_symbols_inv fit method data (ss : list string)
    (M : gmap string (gmap string Scaler)) nd nd' M' :
  NoDup ss →
  Forall (λ s, M !! s = None) ss →
  columns nd = columns data →
  Forall2 (scaled_by M) (rows data) (rows nd) →
  normalize_symbols fit method data ss (nd, M) = Some (nd', M') →
  columns nd' = columns data ∧
  Forall2 (scaled_by M') (rows data) (rows nd') ∧
  (∀ s, s ∉ ss → M' !! s = M !! s) ∧
  ∀ s, s ∈ ss →
    ∃ symbol_scalers,
      M' !! s = Some symbol_scalers ∧
      ∀ c, symbol_scalers !! c
           = if decide (c ∈ NormalizeData.feature_columns)
             then column (of_symbol data s) c ≫= fit_with fit method
             else None.
Proof.
  revert nd M. induction ss as [|s ss IH]; intros nd M Hnd Hfresh Hcols Hrel;
    cbn [normalize_symbols fst snd].
  { intros [= <- <-]. split_and!; [done..|]. by intros s ?%not_elem_of_nil. }
  apply NoDup_cons in Hnd as [Hs Hnd]. apply Forall_cons in Hfresh as [HMs Hfresh].
  destruct (normalize_columns fit method (of_symbol data s) s
              NormalizeData.feature_columns (nd, ∅)) as [[nd1 ssc]|] eqn:Hloop; [|done].
  assert (Hrel0 : Forall2 (scaled_by (<[s := ∅]> M)) (rows data) (rows nd)).
  { eapply Forall2_impl; [exact Hrel|]. intros r r' [Hk Hc]. split; [done|].
    intros c. rewrite Hc. destruct (decide (symbol r = s)) as [->|Hne].
    - by rewrite HMs, lookup_insert_eq, lookup_empty.
    - by rewrite lookup_insert_ne. }
  destruct (normalize_columns_inv _ _ _ _ _ _ _ _ _ _ Hcols Hrel0 Hloop)
    as (Hcols1 & Hrel1 & Hssc).
  intros Hrest.
  apply IH in Hrest as (Hcols' & Hrel' & Hout & Hin); [|done| |done..].
  2:{ rewrite Forall_forall in Hfresh. apply Forall_forall. intros s' Hs'.
      rewrite lookup_insert_ne; [by apply Hfresh|]. by intros <-. }
  split_and!; [done..| |].
  - intros s' Hs'. rewrite Hout by (intros ?; apply Hs'; by right).
    rewrite lookup_insert_ne; [done|]. intros <-. apply Hs'. by left.
  - intros s' [->|Hs']%elem_of_cons; [|by apply Hin].
    exists ssc. rewrite Hout by done. rewrite lookup_insert_eq. split; [done|].
    intros c. rewrite Hssc. by rewrite lookup_empty.
Qed.

End normalize_data_facts.

Section normalize_data_results.
Import Pandas KronosPredict NormalizeData.
Implicit Types (f data nd : DataFrame) (s col c : string) (r : Row).

Lemma normalize_columns_is_Some fit method (symbol_data : DataFrame) s
    (cols : list string) (state : DataFrame * gmap string Scaler) :
  is_Some (normalize_columns fit method symbol_data s cols state)
  ↔ Forall (λ c, is_Some (column symbol_data c ≫= fit_with fit method)) cols.
Proof.
  revert state. induction cols as [|col cols IH]; intros state;
    cbn [normalize_columns].
  { split; [constructor|eauto]. }
  rewrite Forall_cons. unfold normalize_column at 1.
  destruct (column symbol_data col) as [series|]; cbn [mbind option_bind].
  - destruct (fit_with fit method series) as [sc|]; cbn [mbind option_bind].
    + rewrite IH. split; [by split; eauto|tauto].
    + split; [by intros []|by intros [[] _]].
  - split; [by intros []|by intros [[] _]].
Qed.

Lemma normalize_symbols_is_Some fit method data (ss : list string)
    (state : DataFrame * gmap string (gmap string Scaler)) :
  is_Some (normalize_symbols fit method data ss state)
  ↔ Forall (λ s, Forall (λ c, is_Some (column (of_symbol data s) c
                                         ≫= fit_with fit method))
                        NormalizeData.feature_columns) ss.
Proof.
  revert state. induction ss as [|s ss IH]; intros state; cbn [normalize_symbols].
  { split; [constructor|eauto]. }
  rewrite Forall_cons.
  rewrite <- (normalize_columns_is_Some fit method (of_symbol data s) s
                NormalizeData.feature_columns (state.1, ∅)).
  destruct (normalize_columns fit method (of_symbol data s) s
              NormalizeData.feature_columns (state.1, ∅)) as [[nd ssc]|].
  - rewrite IH. split; [by split; eauto|tauto].
  - split; [by intros []|by intros [[] _]].
Qed.

(** What a result of [normalize_data] is made of. *)
Lemma normalize_data_inv fit data method normalized
    (all_scalers : gmap string (gmap string Scaler)) :
  normalize_data fit data method = Some (normalized, all_scalers) →
  columns normalized = columns data ∧
  Forall2 (scaled_by all_scalers) (rows data) (rows normalized) ∧
  (∀ s, s ∉ symbols data → all_scalers !! s = None) ∧
  ∀ s, s ∈ symbols data →
    ∃ symbol_scalers,
      all_scalers !! s = Some symbol_scalers ∧
      (∀ c, c ∉ NormalizeData.feature_columns → symbol_scalers !! c = None) ∧
      ∀ c, c ∈ NormalizeData.feature_columns →
        ∃ series sc,
          column (of_symbol data s) c = Some series ∧
          fit_with fit method series = Some sc ∧
          symbol_scalers !! c = Some sc.
Proof.
  unfold normalize_data. intros Hnorm.
  assert (Hok : is_Some (normalize_symbols fit method data (symbols data) (data, ∅)))
    by (rewrite Hnorm; eauto).
  apply normalize_symbols_is_Some in Hok. rewrite Forall_forall in Hok.
  apply normalize_symbols_inv in Hnorm as (Hcols & Hrel & Hout & Hin).
  - split_and!; [done..| |].
    + intros s Hs. by rewrite Hout.
    + intros s Hs. destruct (Hin s Hs) as (symbol_scalers & Hss & Hc).
      exists symbol_scalers. split_and!; [done| |].
      * intros c Hnc. by rewrite Hc, decide_False.
      * intros c Hfc. specialize (Hok s Hs). rewrite Forall_forall in Hok.
        specialize (Hok c Hfc). rewrite Hc, decide_True by done.
        destruct (column (of_symbol data s) c) as [series|]; [|by destruct Hok].
        cbn [mbind option_bind] in *. destruct Hok as [sc Hsc]. eauto.
  - apply NoDup_unique.
  - apply Forall_forall. intros s _. apply lookup_empty.
  - done.
  - apply Forall_Forall2_diag, Forall_forall. intros r _. split; [done|].
    intros c. by rewrite lookup_empty.
Qed.

(** X20. [normalize_data] keeps the columns, the rows and their order, and
    changes the five OHLCV cells of every row only: each becomes the
    transform, by the scaler stored for the row's symbol and the column, of
    the value it had. The dictionary has exactly the symbols of the data,
    each with exactly the five OHLCV columns, and the scaler of a symbol and
    a column is the one fitted on that column of the symbol's rows of the
    data as given. *)
Theorem normalize_data_output fit data method normalized
    (all_scalers : gmap string (gmap string Scaler)) :
  normalize_data fit data method = Some (normalized, all_scalers) →
  columns normalized = columns data ∧
  Forall2 (scaled_by all_scalers) (rows data) (rows normalized) ∧
  (∀ s, s ∉ symbols data → all_scalers !! s = None) ∧
  ∀ s, s ∈ symbols data →
    ∃ symbol_scalers,
      all_scalers !! s = Some symbol_scalers ∧
      (∀ c, c ∉ NormalizeData.feature_columns → symbol_scalers !! c = None) ∧
      ∀ c, c ∈ NormalizeData.feature_columns →
        ∃ series sc,
          column (of_symbol data s) c = Some series ∧
          fit_with fit method series = Some sc ∧
          symbol_scalers !! c = Some sc.
Proof. apply normalize_data_inv. Qed.

Lemma normalize_data_output_witness :
  ∃ normalized all_scalers,
    normalize_data MoreExamples.centring_fit MoreExamples.two_symbol_candles "standard"
    = Some (normalized, all_scalers) ∧
    columns normalized = columns MoreExamples.two_symbol_candles ∧
    Forall2 (scaled_by all_scalers) (rows MoreExamples.two_symbol_candles)
            (rows normalized) ∧
    (∀ s, s ∉ symbols MoreExamples.two_symbol_candles → all_scalers !! s = None) ∧
    ∀ s, s ∈ symbols MoreExamples.two_symbol_candles →
      ∃ symbol_scalers,
        all_scalers !! s = Some symbol_scalers ∧
        (∀ c, c ∉ NormalizeData.feature_columns → symbol_scalers !! c = None) ∧
        ∀ c, c ∈ NormalizeData.feature_columns →
          ∃ series sc,
            column (of_symbol MoreExamples.two_symbol_candles s) c = Some series ∧
            fit_with MoreExamples.centring_fit "standard" series = Some sc ∧
            symbol_scalers !! c = Some sc.
Proof.
  destruct (normalize_data MoreExamples.centring_fit MoreExamples.two_symbol_candles
              "standard") as [[normalized all_scalers]|] eqn:Hnorm;
    [|by vm_compute in Hnorm].
  exists normalized, all_scalers. split; [reflexivity|].
  apply (normalize_data_output MoreExamples.centring_fit
           MoreExamples.two_symbol_candles "standard" normalized all_scalers Hnorm).
Defined.

(** X21. [normalize_data] raises exactly when, for some symbol of the data, one
    of the five OHLCV columns is missing or its fit raises. On a frame
    without rows it returns the frame and an empty dictionary, whatever the
    columns. *)
Theorem normalize_data_returns_iff fit data method :
  (is_Some (normalize_data fit data method)
   ↔ ∀ s c, s ∈ symbols data → c ∈ NormalizeData.feature_columns →
       c ∈ columns data ∧
       ∀ series, column (of_symbol data s) c = Some series →
                 is_Some (fit_with fit method series)) ∧
  (rows data = [] → normalize_data fit data method = Some (data, ∅)).
Proof.
  split.
  - unfold normalize_data. rewrite normalize_symbols_is_Some, Forall_forall.
    split.
    + intros Hok s c Hs Hc. specialize (Hok s Hs). rewrite Forall_forall in Hok.
      specialize (Hok c Hc). unfold column in *. cbn [columns of_symbol with_rows] in *.
      case_decide; [|by destruct Hok]. split; [done|].
      intros series [= <-]. done.
    + intros Hok s Hs. apply Forall_forall. intros c Hc.
      destruct (Hok s c Hs Hc) as [Hcol Hfit]. unfold column in *.
      cbn [columns of_symbol with_rows] in *. rewrite decide_True in * by done.
      by apply Hfit.
  - intros Hrows. unfold normalize_data.
    by rewrite (proj2 (symbols_nil data) Hrows).
Qed.

(** X22. The scalers [normalize_data] returns, loaded into [KronosCLI], make the
    normalization of [prepare_data_for_prediction] reproduce the training
    data: on the rows of one symbol of the data it returns the rows of that
    symbol of the normalized frame. *)
Theorem prediction_normalize_reproduces_training fit data method normalized
    (all_scalers : gmap string (gmap string Scaler)) s :
  normalize_data fit data method = Some (normalized, all_scalers) →
  s ∈ symbols data →
  normalize (mkCLI (Some all_scalers))
    (filter (λ c, c ∈ columns data) KronosPredict.feature_columns)
    (of_symbol data s)
  = Some (of_symbol normalized s).
Proof.
  intros Hnorm Hs.
  destruct (normalize_data_inv _ _ _ _ _ Hnorm) as (Hcols & Hrel & _ & Hin).
  destruct (Hin s Hs) as (symbol_scalers & Hss & Hother & Hfeat).
  apply elem_of_symbols in Hs as (r0 & Hr0 & Hsym0).
  unfold normalize. cbn [scalers].
  rewrite decide_False; [|intros ->; by rewrite lookup_empty in Hss].
  assert (Hr0' : r0 ∈ rows (of_symbol data s))
    by (cbn [rows of_symbol with_rows]; by apply list_elem_of_filter).
  destruct (head (rows (of_symbol data s))) as [first|] eqn:Hhead.
  2:{ apply head_None in Hhead. rewrite Hhead in Hr0'.
      by apply not_elem_of_nil in Hr0'. }
  cbn [mbind option_bind].
  assert (Hfirst : symbol first = s).
  { apply head_Some_elem_of in Hhead. cbn [rows of_symbol with_rows] in Hhead.
    by apply list_elem_of_filter in Hhead as []. }
  rewrite Hfirst, Hss. f_equal. clear Hhead Hfirst first Hr0'.
  set (available := filter (λ c, c ∈ columns data) KronosPredict.feature_columns).
  assert (Hav : Forall (λ c, c ∈ columns (of_symbol data s)) available)
    by (apply Forall_forall; by intros c [? _]%list_elem_of_filter).
  apply frame_eq.
  { by rewrite (proj1 (apply_scalers_shape symbol_scalers available _ Hav)). }
  assert (Hnd : NoDup available) by apply NoDup_filter, NoDup_feature_columns.
  pose proof (apply_scalers_cells symbol_scalers available (of_symbol data s) Hnd) as HA.
  assert (HB : Forall2 (scaled_by all_scalers) (rows (of_symbol data s))
                       (rows (of_symbol normalized s))).
  { cbn [rows of_symbol with_rows]. apply Forall2_filter_both.
    eapply Forall2_impl; [exact Hrel|]. intros r r' [Hk Hc]. split; [by split|].
    unfold row_key in Hk. by replace (symbol r') with (symbol r) by congruence. }
  eapply Forall2_functional; [|exact HA|exact HB].
  intros r r1 r2 Hr [Hk1 Hc1] [Hk2 Hc2]. apply row_eq; [congruence|].
  intros c. rewrite Hc1, Hc2.
  cbn [rows of_symbol with_rows] in Hr. apply list_elem_of_filter in Hr as [-> _].
  rewrite Hss. destruct (symbol_scalers !! c) as [sc|] eqn:Hsc; [|done].
  rewrite decide_True; [done|].
  destruct (decide (c ∈ NormalizeData.feature_columns)) as [Hc|Hc];
    [|by rewrite Hother in Hsc].
  destruct (Hfeat c Hc) as (series & _ & Hcol & _ & _).
  apply list_elem_of_filter. split.
  - unfold column in Hcol. by case_decide.
  - clear Hsc Hcol. revert c Hc. apply Forall_forall.
    apply (bool_decide_unpack _). vm_compute. exact I.
Qed.

Lemma prediction_normalize_reproduces_training_witness :
  ∃ normalized all_scalers,
    normalize_data MoreExamples.centring_fit MoreExamples.two_symbol_candles "minmax"
    = Some (normalized, all_scalers) ∧
    "Y" ∈ symbols MoreExamples.two_symbol_candles ∧
    normalize (mkCLI (Some all_scalers))
      (filter (λ c, c ∈ columns MoreExamples.two_symbol_candles)
              KronosPredict.feature_columns)
      (of_symbol MoreExamples.two_symbol_candles "Y")
    = Some (of_symbol normalized "Y").
Proof.
  destruct (normalize_data MoreExamples.centring_fit MoreExamples.two_symbol_candles
              "minmax") as [[normalized all_scalers]|] eqn:Hnorm;
    [|by vm_compute in Hnorm].
  exists normalized, all_scalers. split; [reflexivity|].
  assert (Hs : "Y" ∈ symbols MoreExamples.two_symbol_candles)
    by (apply (bool_decide_unpack _); vm_compute; exact I).
  split; [exact Hs|].
  apply (prediction_normalize_reproduces_training MoreExamples.centring_fit
           MoreExamples.two_symbol_candles "minmax" normalized all_scalers "Y" Hnorm Hs).
Defined.

End normalize_data_results.
